(** * agentsh-deno: bootstrap and exec-result classification

  A shallow embedding of the TypeScript sources of the repository
  (setup.ts in its three revisions, demo-network.ts, detect-sandbox.ts,
  test-sandbox.ts) and the properties of the specification that concern
  them.

  Conventions of the embedding:
  - a JavaScript string is the list of its UTF-16 code units ([jsstring]);
  - an optional field [f?: T] of a TypeScript interface is an [option T];
    [None] stands for both [undefined] and [null], which [?.] and [??]
    treat alike;
  - a call that may throw returns an [option] or a sum; [None] or [inl]
    is the exception;
  - [console.log] output is returned next to the value of the function. *)

From Stdlib Require Import List String Ascii Bool NArith ZArith Lia DecimalString.
Import ListNotations.

Set Implicit Arguments.

(* ------------------------------------------------------------------ *)
(** ** JavaScript values used by the scripts *)
(* ------------------------------------------------------------------ *)

Module JS.

Local Open Scope N_scope.

(** A string is its sequence of UTF-16 code units. *)
Definition jsstring := list N.

(** An ASCII literal of the source, as code units. *)
Fixpoint js (s : string) : jsstring :=
  match s with
  | EmptyString => []
  | String c r => N_of_ascii c :: js r
  end.

(** [a === b] on strings. *)
Fixpoint streq (a b : jsstring) : bool :=
  match a, b with
  | [], [] => true
  | x :: a', y :: b' => N.eqb x y && streq a' b'
  | _, _ => false
  end.

(** ECMAScript WhiteSpace and LineTerminator code points, the set that
    [String.prototype.trim] strips. *)
Definition isWhiteSpace (c : N) : bool :=
  ((9 <=? c) && (c <=? 13)) || (c =? 32) || (c =? 160) || (c =? 5760)
  || ((8192 <=? c) && (c <=? 8202)) || (c =? 8232) || (c =? 8233)
  || (c =? 8239) || (c =? 8287) || (c =? 12288) || (c =? 65279).

Fixpoint trimStart (s : jsstring) : jsstring :=
  match s with
  | [] => []
  | c :: r => if isWhiteSpace c then trimStart r else s
  end.

Definition trimEnd (s : jsstring) : jsstring := rev (trimStart (rev s)).

(** [s.trim()] *)
Definition trim (s : jsstring) : jsstring := trimEnd (trimStart s).

(** [s.slice(0, n)] and [s.substring(0, n)] for a literal [n >= 0]. *)
Definition slice0 (n : nat) (s : jsstring) : jsstring := firstn n s.

(** [s.replace(/\n/g, "\\n")]: every line feed becomes backslash, n. *)
Fixpoint escapeNewlines (s : jsstring) : jsstring :=
  match s with
  | [] => []
  | c :: r => (if c =? 10 then [92; 110] else [c]) ++ escapeNewlines r
  end.

(** [s.startsWith(p)] *)
Fixpoint startsWith (p s : jsstring) : bool :=
  match p, s with
  | [], _ => true
  | x :: p', y :: s' => N.eqb x y && startsWith p' s'
  | _ :: _, [] => false
  end.

(** [s.includes(p)] *)
Fixpoint includes (p s : jsstring) : bool :=
  startsWith p s ||
  match s with
  | [] => false
  | _ :: s' => includes p s'
  end.

(** Truthiness of a string: non-empty. *)
Definition truthy (s : jsstring) : bool :=
  match s with [] => false | _ :: _ => true end.

(** [a || b] on strings. *)
Definition orElse (a b : jsstring) : jsstring := if truthy a then a else b.

(** [Number.isSafeInteger(n)] for a number whose value is the integer
    [n]: its magnitude is at most 2^53 - 1. *)
Definition isSafeInteger (n : Z) : bool := (Z.abs n <=? 9007199254740991)%Z.

(** Template interpolation of a number whose value is the integer [z]:
    its decimal digits. This is what JavaScript prints for a safe
    integer. A larger number it prints with the shortest digits that read
    back as the same double, in exponent notation from 1e21 on; the model
    does not follow it there, so a statement that pins printed digits is
    made for safe integers. *)
Definition showZ (z : Z) : jsstring := js (NilZero.string_of_int (Z.to_int z)).

(** The em dash of the log templates, U+2014. *)
Definition emDash : N := 8212.

(** Optional chaining [o?.f] and nullish coalescing [o ?? d]. *)
Definition chain {A B} (o : option A) (f : A -> option B) : option B :=
  match o with Some a => f a | None => None end.

Definition nullish {A} (o : option A) (d : A) : A :=
  match o with Some a => a | None => d end.

(** [o === lit] where [o] may be undefined. *)
Definition isString (o : option jsstring) (lit : jsstring) : bool :=
  match o with Some s => streq s lit | None => false end.

Definition isNumber (o : option Z) (lit : Z) : bool :=
  match o with Some z => Z.eqb z lit | None => false end.

Definition isTrue (o : option bool) : bool := nullish o false.

End JS.

Import JS.

Declare Scope js_scope.
Delimit Scope js_scope with js.
Notation "o ?. f" := (chain o f) (at level 40, left associativity) : js_scope.
Notation "o ?? d" := (nullish o d) (at level 45, left associativity) : js_scope.
Notation "a +++ b" := (@app N a b) (at level 60, right associativity) : js_scope.
Open Scope js_scope.

(* ------------------------------------------------------------------ *)
(** ** The agent's exec response (interface ExecResponse) *)
(* ------------------------------------------------------------------ *)

Module Wire.

Record ErrorInfo := {
  code : option jsstring;
  message : option jsstring;
  policy_rule : option jsstring
}.

Record Result := {
  exit_code : option Z;
  stdout : option jsstring;
  stderr : option jsstring;
  error : option ErrorInfo
}.

Record Guidance := {
  status : option jsstring;
  blocked : option bool;
  reason : option jsstring;
  guidance_policy_rule : option jsstring
}.

Record Policy := {
  rule : option jsstring;
  policy_message : option jsstring
}.

Record BlockedOp := { policy : option Policy }.

Record Events := {
  blocked_operations : option (list BlockedOp);
  blocked_operations_count : option Z
}.

Record ExecResponse := {
  result : option Result;
  guidance : option Guidance;
  events : option Events
}.

End Wire.

Import Wire.

(** The three outcome categories the scripts print. *)
Inductive Category := ALLOWED | BLOCKED | ERROR.

(** The category a log line announces: the word that follows the
  indentation. *)
Definition category_of_log (line : jsstring) : option Category :=
let body := trimStart line in
if startsWith (js "ALLOWED") body then Some ALLOWED
else if startsWith (js "BLOCKED") body then Some BLOCKED
else if startsWith (js "ERROR") body then Some ERROR
else None.

(* ------------------------------------------------------------------ *)
(** ** demo-network.ts: runAgentsh *)
(* ------------------------------------------------------------------ *)

Module DemoNetwork.

Record RunResult := { allowed : bool; output : jsstring }.

(** What one call leaves behind: the line it logs after the test header,
    and the value it returns. *)
Record Run := { logged : jsstring; returned : RunResult }.

Definition indent : jsstring := js "         ".

(** [json.result?.error?.code === "E_POLICY_DENIED"] *)
Definition policyDenied (json : ExecResponse) : bool :=
  isString (result json ?. error ?. code) (js "E_POLICY_DENIED").

(** [json.events?.blocked_operations ?? []] *)
Definition blockedOps (json : ExecResponse) : list BlockedOp :=
  events json ?. blocked_operations ?? [].

(** [json.guidance?.blocked || json.guidance?.status === "blocked"] *)
Definition guidanceBlocked (json : ExecResponse) : bool :=
  isTrue (guidance json ?. blocked)
  || isString (guidance json ?. status) (js "blocked").

(** Any of the three denial signals the script checks for. *)
Definition denialShape (json : ExecResponse) : bool :=
  policyDenied json
  || match blockedOps json with [] => false | _ :: _ => true end
  || guidanceBlocked json.

(** The body of the second [try] block, once [JSON.parse] has returned
    [json]. *)
Definition classify (output : jsstring) (json : ExecResponse) : Run :=
  (* Check 1: explicit command policy denial *)
  if policyDenied json then
    let rule := result json ?. error ?. policy_rule ?? js "unknown" in
    {| logged := indent +++ js "BLOCKED by policy rule: " +++ rule;
       returned := {| allowed := false; output := output |} |}
  else
  (* Check 2: network operations blocked, reported in events *)
  match blockedOps json with
  | first :: _ =>
    let rule := policy first ?. rule ?? js "unknown" in
    let msg := policy first ?. policy_message ?? [] in
    {| logged := indent +++ js "BLOCKED by network policy: " +++ rule
                 +++ (if truthy msg then js " " +++ [emDash] +++ js " " +++ msg
                      else []);
       returned := {| allowed := false; output := output |} |}
  | [] =>
  (* Check 3: guidance indicates blocked *)
  if guidanceBlocked json then
    let rule := guidance json ?. guidance_policy_rule ?? js "unknown" in
    let reason := guidance json ?. reason ?? [] in
    {| logged := indent +++ js "BLOCKED: " +++ rule
                 +++ (if truthy reason
                      then js " " +++ [emDash] +++ js " " +++ reason
                      else []);
       returned := {| allowed := false; output := output |} |}
  else
  (* Check 4: command succeeded *)
  if isNumber (result json ?. exit_code) 0 then
    let stdout :=
      (result json ?. stdout ?. (fun s => Some (trim s))) ?? [] in
    let preview := escapeNewlines (slice0 150 stdout) in
    {| logged := indent +++ js "ALLOWED (exit 0): " +++ preview;
       returned := {| allowed := true; output := stdout |} |}
  else
  (* Check 5: non-zero exit, taken as blocked at network level *)
    let exitCode := result json ?. exit_code ?? (-1)%Z in
    let stderr :=
      (result json ?. stderr ?. (fun s => Some (trim s))) ?? [] in
    {| logged := indent +++ js "BLOCKED (network-level, exit "
                 +++ showZ exitCode +++ js "): "
                 +++ orElse (slice0 100 stderr) (js "connection failed");
       returned := {| allowed := false; output := output |} |}
  end.

Section Gateway.

(** [JSON.parse] at the declared type [ExecResponse]. [None] stands for
    every way the second [try] block reaches its [catch] clause: the text
    is not JSON, or it is JSON (null, say) on which a member access of the
    block throws. The block logs nothing before it returns, so all of
    them leave the same line. *)
Variable JSON_parse : jsstring -> option ExecResponse.

(** The part of [runAgentsh] that follows the exchange:
    [response] is what [sandbox.fs.readTextFile] gives for
    /tmp/exec-result.json, [None] when it throws because the script
    produced no file. *)
Definition runAgentsh (response : option jsstring) : Run :=
  match response with
  | None =>
    {| logged := indent +++ js "ERROR: no response from API";
       returned := {| allowed := false; output := [] |} |}
  | Some output =>
    match JSON_parse (trim output) with
    | Some json => classify output json
    | None =>
      {| logged := indent +++ js "ERROR: failed to parse response: "
                   +++ slice0 200 output;
         returned := {| allowed := false; output := output |} |}
    end
  end.

End Gateway.

Definition category (r : Run) : option Category := category_of_log (logged r).

(** What the second [try] block gets to classify: the parsed response,
    [None] when the file is missing or its text cannot be parsed. *)
Definition parsed (JSON_parse : jsstring -> option ExecResponse)
           (response : option jsstring) : option ExecResponse :=
  response ?. (fun output => JSON_parse (trim output)).

(** The response shows one of the three denial shapes. A missing or
    unparseable response shows none. *)
Definition denied (JSON_parse : jsstring -> option ExecResponse)
           (response : option jsstring) : bool :=
  match parsed JSON_parse response with
  | Some json => denialShape json
  | None => false
  end.

(** The response holds a result with exit code exactly 0. *)
Definition exitsZero (JSON_parse : jsstring -> option ExecResponse)
           (response : option jsstring) : bool :=
  match parsed JSON_parse response with
  | Some json => isNumber (result json ?. exit_code) 0
  | None => false
  end.

End DemoNetwork.


(* ------------------------------------------------------------------ *)
(** ** detect-sandbox.ts: execViaApi *)
(* ------------------------------------------------------------------ *)

Module DetectSandbox.

(** The value [execViaApi] resolves to. *)
Record ApiResult := {
  exitCode : Z;
  stdout : jsstring;
  stderr : jsstring;
  blocked : bool;
  policyRule : jsstring
}.

(** The body of the second [try] block of [execViaApi]. The interface
    this script declares for the response has no [events] member;
    [JSON.parse] keeps whatever the agent sent, so the response is the
    same record as elsewhere and the member is simply never read. *)
Definition classify (json : ExecResponse) : ApiResult :=
  if isString (result json ?. error ?. code) (js "E_POLICY_DENIED") then
    let rule := result json ?. error ?. policy_rule ?? js "unknown" in
    {| exitCode := -1; stdout := [];
       stderr := result json ?. error ?. message ?? [];
       blocked := true; policyRule := rule |}
  else if isTrue (guidance json ?. Wire.blocked)
          || isString (guidance json ?. status) (js "blocked") then
    let rule := guidance json ?. guidance_policy_rule ?? js "unknown" in
    {| exitCode := -1; stdout := [];
       stderr := guidance json ?. reason ?? [];
       blocked := true; policyRule := rule |}
  else
    let exitCode := result json ?. exit_code ?? (-1)%Z in
    let stdout := (result json ?. Wire.stdout ?. (fun s => Some (trim s))) ?? [] in
    let stderr := (result json ?. Wire.stderr ?. (fun s => Some (trim s))) ?? [] in
    {| exitCode := exitCode; stdout := stdout; stderr := stderr;
       blocked := false; policyRule := [] |}.

Section Gateway.

(** [JSON.parse] at the declared type [ExecResponse]; [None] when the
    second [try] block reaches its [catch] clause. *)
Variable JSON_parse : jsstring -> option ExecResponse.

(** The part of [execViaApi] that follows the exchange; [response] is the
    outcome of reading /tmp/exec-result.json, [None] when that throws. *)
Definition execViaApi (response : option jsstring) : ApiResult :=
  match response with
  | None =>
    {| exitCode := -1; stdout := []; stderr := js "no API response";
       blocked := false; policyRule := [] |}
  | Some output =>
    match JSON_parse (trim output) with
    | Some json => classify json
    | None =>
      {| exitCode := -1; stdout := [];
         stderr := js "parse error: " +++ slice0 200 output;
         blocked := false; policyRule := [] |}
    end
  end.

End Gateway.

End DetectSandbox.

(* ------------------------------------------------------------------ *)
(** ** Effects: the sandbox, the console and thrown errors *)
(* ------------------------------------------------------------------ *)

Module Effects.

(** What a rejected promise carries. *)
Inductive Err :=
| Thrown (msg : jsstring)
| NonZeroExit (status : Z) (stderr : jsstring).

(** The [allowNet] member of [Sandbox.create]'s options. *)
Inductive AllowNet :=
| NetUndefined
| NetHosts (hosts : list jsstring).

(** The awaited calls the scripts make on the outside world. A shell
    command is recorded with the text of its template, interpolated values
    in place. *)
Inductive Call :=
| SandboxCreate (allowNet : AllowNet)
| Sh (cmd : jsstring)
| ShSudo (cmd : jsstring)
| DenoReadTextFile (url : jsstring)
| FsWriteTextFile (path content : jsstring)
| EnvSet (key value : jsstring)
| Close.

Inductive Event :=
| Called (c : Call) (r : Err + jsstring)
| Spawned (cmd : jsstring) (sudo : bool)
| Log (line : jsstring)
| LogError (line : jsstring).

(** The outside world: how it answers an awaited call, given all that
    happened before, and whether the [i]-th probe of the health endpoint
    succeeds. An answer is the text the call resolves to (the stdout of a
    command, the content of a file, the id of a sandbox) or the error it
    rejects with. *)
Record World := {
  reply : list Event -> Call -> Err + jsstring;
  health : nat -> bool
}.

Section Monad.

(** Module-level variables of the running script. *)
Variable G : Type.

Record State := { trace : list Event; globals : G }.

Definition M (A : Type) : Type := World -> State -> State * (Err + A).

Definition ret {A} (a : A) : M A := fun _ s => (s, inr a).

Definition throw {A} (e : Err) : M A := fun _ s => (s, inl e).

Definition bind {A B} (m : M A) (k : A -> M B) : M B :=
  fun w s =>
    match m w s with
    | (s', inr a) => k a w s'
    | (s', inl e) => (s', inl e)
    end.

Definition emit (ev : Event) : M unit :=
  fun _ s => ({| trace := trace s ++ [ev]; globals := globals s |}, inr tt).

(** [await] of a call: the world answers, the exchange is recorded. *)
Definition call (c : Call) : M jsstring :=
  fun w s =>
    let r := reply w (trace s) c in
    ({| trace := trace s ++ [Called c r]; globals := globals s |}, r).

Definition log (line : jsstring) : M unit := emit (Log line).

Definition logError (line : jsstring) : M unit := emit (LogError line).

(** A process started and not awaited. *)
Definition spawn (cmd : jsstring) (sudo : bool) : M unit :=
  emit (Spawned cmd sudo).

(** [try { body } catch (err) { handler }] *)
Definition tryCatch {A} (body : M A) (handler : Err -> M A) : M A :=
  fun w s =>
    match body w s with
    | (s', inr a) => (s', inr a)
    | (s', inl e) => handler e w s'
    end.

(** [try { body } finally { final }] *)
Definition tryFinally {A} (body : M A) (final : M unit) : M A :=
  fun w s =>
    match body w s with
    | (s', r) =>
      match final w s' with
      | (s'', inr _) => (s'', r)
      | (s'', inl e) => (s'', inl e)
      end
    end.

(** [try { body } catch { }] *)
Definition swallow {A} (body : M A) : M unit :=
  tryCatch (bind body (fun _ => ret tt)) (fun _ => ret tt).

Definition getGlobals : M G := fun _ s => (s, inr (globals s)).

Definition setGlobals (g : G) : M unit :=
  fun _ s => ({| trace := trace s; globals := g |}, inr tt).

End Monad.

Arguments ret {G A} a.
Arguments throw {G A} e.
Arguments bind {G A B} m k.
Arguments emit {G} ev.
Arguments call {G} c.
Arguments log {G} line.
Arguments logError {G} line.
Arguments spawn {G} cmd sudo.
Arguments tryCatch {G A} body handler.
Arguments tryFinally {G A} body final.
Arguments swallow {G A} body.
Arguments getGlobals {G}.
Arguments setGlobals {G} g.
Arguments trace {G} s.
Arguments globals {G} s.

(** Run an action that has no access to the script's variables. *)
Definition lift {G A} (m : M unit A) : M G A :=
  fun w s =>
    match m w {| trace := trace s; globals := tt |} with
    | (s', r) => ({| trace := trace s'; globals := globals s |}, r)
    end.

(** A script with no variables of its own, before anything happened. *)
Definition fresh : State unit := {| trace := []; globals := tt |}.

(** The number of teardown calls among the events. *)
Fixpoint teardowns (evs : list Event) : nat :=
  match evs with
  | [] => 0
  | Called Close _ :: rest => S (teardowns rest)
  | _ :: rest => teardowns rest
  end.

(** The awaited calls that were rejected, in order. *)
Fixpoint rejections (evs : list Event) : list (Call * Err) :=
  match evs with
  | [] => []
  | Called c (inl e) :: rest => (c, e) :: rejections rest
  | _ :: rest => rejections rest
  end.

(** Events with no teardown and no rejected call among them. *)
Definition clean (evs : list Event) : Prop :=
  teardowns evs = 0 /\ rejections evs = [].

(** An action that only appends events, leaves the script's variables
    alone, never closes the sandbox, and stops at the first call that is
    rejected, with the error of that call. *)
Definition stepwise {G A} (m : M G A) : Prop :=
  forall w s,
  exists added,
    trace (fst (m w s)) = trace s ++ added
    /\ globals (fst (m w s)) = globals s
    /\ match snd (m w s) with
       | inr _ => clean added
       | inl e => exists before c,
                   added = before ++ [Called c (inl e)]
                   /\ clean before /\ c <> Close
       end.

(** An action that can only resolve to [v]. *)
Definition returns {G A} (v : A) (m : M G A) : Prop :=
  forall w s a, snd (m w s) = inr a -> a = v.

End Effects.

Import Effects.

Declare Scope monad_scope.
Delimit Scope monad_scope with monad.
Notation "x <- m ;; k" := (bind m (fun x => k))
  (at level 61, m at next level, right associativity) : monad_scope.
Notation "m ;; k" := (bind m (fun _ => k))
  (at level 61, right associativity) : monad_scope.
Open Scope monad_scope.

(* ------------------------------------------------------------------ *)
(** ** setup.ts: createAgentshSandbox *)
(* ------------------------------------------------------------------ *)

Module Setup.

(** The double quote. *)
Definition dq : jsstring := [34%N].

(** Lines of a template literal, joined by line feeds. *)
Fixpoint lines (ls : list jsstring) : jsstring :=
  match ls with
  | [] => []
  | [l] => l
  | l :: rest => l +++ [10%N] +++ lines rest
  end.

(** interface AgentshSandboxOptions. The first revision has no
    [envVars] member and the second neither [allowNet] nor [envVars];
    a revision ignores the members it does not declare. *)
Record AgentshSandboxOptions := {
  agentshRepo : option jsstring;
  debArch : option jsstring;
  workspace : option jsstring;
  allowNet : option (list jsstring);
  envVars : option (list (jsstring * jsstring))
}.

Definition allowNetOf (opts : option AgentshSandboxOptions) : AllowNet :=
  match opts ?. allowNet with
  | Some hosts => NetHosts hosts
  | None => NetUndefined
  end.

(** *** The readiness loop

    [for i in $(seq 1 30); do if curl -sf .../health ...; then
       echo "agentsh server ready"; exit 0; fi; sleep 0.5; done;
     echo "agentsh server failed to start within 15s" >&2; exit 1] *)

Definition waitCommand : jsstring :=
  js "for i in $(seq 1 30); do if curl -sf http://127.0.0.1:18080/health > /dev/null 2>&1; then echo "
  +++ dq +++ js "agentsh server ready" +++ dq
  +++ js "; exit 0; fi; sleep 0.5; done; echo "
  +++ dq +++ js "agentsh server failed to start within 15s" +++ dq
  +++ js " >&2; exit 1".

(** What running the loop leaves: exit status, output, and the
    bookkeeping of the run, the probes made and the milliseconds slept. *)
Record ShellRun := {
  exitStatus : Z;
  out : jsstring;
  errOut : jsstring;
  probes : nat;
  sleptMs : Z
}.

(** [sleep 0.5] *)
Definition sleepMs : Z := 500.

(** The body of the loop over the remaining values of [i]; [curl i] tells
    whether the probe of iteration [i] succeeds. *)
Fixpoint waitLoop (curl : nat -> bool) (remaining : list nat)
         (probed : nat) (slept : Z) : ShellRun :=
  match remaining with
  | [] =>
    {| exitStatus := 1; out := [];
       errOut := js "agentsh server failed to start within 15s" +++ [10%N];
       probes := probed; sleptMs := slept |}
  | i :: rest =>
    if curl i then
      {| exitStatus := 0; out := js "agentsh server ready" +++ [10%N];
         errOut := []; probes := S probed; sleptMs := slept |}
    else waitLoop curl rest (S probed) (slept + sleepMs)
  end.

Definition waitForServer (curl : nat -> bool) : ShellRun :=
  waitLoop curl (seq 1 30) 0 0.

(** [await sandbox.sh`...`] of a finished command: rejects on a non-zero
    exit status. *)
Definition awaited (run : ShellRun) : Err + jsstring :=
  if (exitStatus run =? 0)%Z then inr (out run)
  else inl (NonZeroExit (exitStatus run) (errOut run)).

(** [await sandbox.sh`...`] of the readiness loop, answered by the health
    endpoint of the world. *)
Definition waitUntilReady {G} : M G jsstring :=
  fun w s =>
    let r := awaited (waitForServer (health w)) in
    ({| trace := trace s ++ [Called (Sh waitCommand) r];
        globals := globals s |}, r).

Definition aptCommand : jsstring :=
  js "apt-get update && apt-get install -y --no-install-recommends ca-certificates curl jq libseccomp2 sudo && rm -rf /var/lib/apt/lists/*".

Definition installScriptBody (dpkg : jsstring) (repo arch : jsstring)
  : list jsstring :=
  [ js "set -eux";
    js "LATEST_TAG=$(curl -fsSL " +++ dq
      +++ js "https://api.github.com/repos/" +++ repo +++ js "/releases/latest"
      +++ dq +++ js " | jq -r '.tag_name')";
    js "version=" +++ dq +++ js "${LATEST_TAG#v}" +++ dq;
    js "deb=" +++ dq +++ js "agentsh_${version}_linux_" +++ arch +++ js ".deb" +++ dq;
    js "url=" +++ dq +++ js "https://github.com/" +++ repo
      +++ js "/releases/download/${LATEST_TAG}/${deb}" +++ dq;
    js "echo " +++ dq +++ js "Downloading agentsh ${LATEST_TAG}: ${url}" +++ dq;
    js "curl -fsSL -L " +++ dq +++ js "${url}" +++ dq +++ js " -o /tmp/agentsh.deb";
    dpkg;
    js "rm -f /tmp/agentsh.deb";
    js "agentsh --version" ].

Definition mkdirCommand : jsstring :=
  js "mkdir -p /etc/agentsh/policies /var/lib/agentsh/quarantine /var/lib/agentsh/sessions /var/log/agentsh && chmod 755 /etc/agentsh /etc/agentsh/policies && chmod 755 /var/lib/agentsh /var/lib/agentsh/quarantine /var/lib/agentsh/sessions && chmod 755 /var/log/agentsh".

Definition shimCommand : jsstring :=
  js "agentsh shim install-shell --root / --shim /usr/bin/agentsh-shell-shim --bash --i-understand-this-modifies-the-host".

(** The catch clause shared by the first and the third revision. The
    sandbox object is known to the model by its id, the text
    [Sandbox.create] resolves to. *)
Definition cleanup {G A} (err : Err) : M G A :=
  logError (js "Bootstrap failed, cleaning up sandbox...") ;;
  swallow (call Close) ;;
  throw err.

(** The shape of a provisioning run whose instance was acquired: either
    it rejects with the error of the one rejected step, after which the
    failure is logged and [close] is called once, whatever [close]
    answers; or it resolves to the sandbox, with no teardown and no
    rejected call. And any rejected step is the error of the run. *)
Definition tornDownOnFailure (w : World) (sandbox : jsstring)
           (run : State unit * (Err + jsstring)) : Prop :=
  (forall e, snd run = inl e ->
     exists before c,
       let history := before
                      ++ [Called c (inl e);
                          LogError (js "Bootstrap failed, cleaning up sandbox...")] in
       trace (fst run) = history ++ [Called Close (reply w history Close)]
       /\ clean before /\ c <> Close
       /\ teardowns (trace (fst run)) = 1)
  /\ (forall sb, snd run = inr sb ->
       sb = sandbox /\ clean (trace (fst run)))
  /\ (forall c e, In (c, e) (rejections (trace (fst run))) ->
       c <> Close -> snd run = inl e).

End Setup.

Import Setup.

(** *** First revision: [allowNet] passed through, fixed user *)

Module SetupA.

(** [sandbox.fs.writeTextFile(path, content)] *)
Definition writeFileToSandbox {G} (path content : jsstring) : M G unit :=
  call (FsWriteTextFile path content) ;; ret tt.

(** The line appended to /etc/sudoers. *)
Definition sudoersEntry : jsstring :=
  js "user ALL=(ALL) NOPASSWD: /usr/bin/agentsh".

Definition sudoersCommand : jsstring :=
  js "echo " +++ dq +++ sudoersEntry +++ dq +++ js " >> /etc/sudoers".

Definition bootstrap {G} (repo arch sandbox : jsstring) : M G jsstring :=
  log (js "Installing system dependencies...") ;;
  call (Sh aptCommand) ;;
  log (js "Installing agentsh...") ;;
  call (Sh (lines (installScriptBody (js "dpkg -i /tmp/agentsh.deb") repo arch))) ;;
  log (js "Creating directories...") ;;
  call (Sh mkdirCommand) ;;
  log (js "Writing configuration files...") ;;
  configYaml <- call (DenoReadTextFile (js "./config.yaml")) ;;
  policyYaml <- call (DenoReadTextFile (js "./default.yaml")) ;;
  writeFileToSandbox (js "/etc/agentsh/config.yaml") configYaml ;;
  writeFileToSandbox (js "/etc/agentsh/policies/default.yaml") policyYaml ;;
  log (js "Setting permissions...") ;;
  call (Sh (js "chown -R user:user /var/lib/agentsh /var/log/agentsh /etc/agentsh")) ;;
  call (Sh sudoersCommand) ;;
  call (EnvSet (js "AGENTSH_SERVER") (js "http://127.0.0.1:18080")) ;;
  log (js "Starting agentsh server...") ;;
  spawn (js "agentsh server") false ;;
  log (js "Waiting for agentsh server to be ready...") ;;
  waitUntilReady ;;
  log (js "Installing shell shim...") ;;
  call (Sh (js "sudo " +++ shimCommand)) ;;
  log (js "agentsh sandbox ready.") ;;
  ret sandbox.

Definition createAgentshSandbox {G} (opts : option AgentshSandboxOptions)
  : M G jsstring :=
  let repo := opts ?. agentshRepo ?? js "erans/agentsh" in
  let arch := opts ?. debArch ?? js "amd64" in
  sandbox <- call (SandboxCreate (allowNetOf opts)) ;;
  log (js "Sandbox created: " +++ sandbox) ;;
  tryCatch (bootstrap repo arch sandbox) cleanup.

End SetupA.

(** *** Third revision: detected user, [.sudo()], [envVars] *)

Module SetupC.

(** [sandbox.fs.writeTextFile(path, content)] *)
Definition writeFileToSandbox {G} (path content : jsstring) : M G unit :=
  call (FsWriteTextFile path content) ;; ret tt.

(** The line appended to /etc/sudoers for the detected user. *)
Definition sudoersEntry (sbUser : jsstring) : jsstring :=
  sbUser +++ js " ALL=(ALL) NOPASSWD: ALL".

Definition sudoersCommand (sbUser : jsstring) : jsstring :=
  js "echo " +++ dq +++ sudoersEntry sbUser +++ dq
  +++ js " | sudo tee -a /etc/sudoers > /dev/null".

Definition stateDirs : jsstring :=
  js "/etc/agentsh/policies /var/lib/agentsh/quarantine /var/lib/agentsh/sessions /var/log/agentsh".

(** [for (const [key, value] of Object.entries(envVars)) await sandbox.env.set(key, value)] *)
Fixpoint setEnvVars {G} (entries : list (jsstring * jsstring)) : M G unit :=
  match entries with
  | [] => ret tt
  | (key, value) :: rest => call (EnvSet key value) ;; setEnvVars rest
  end.

Definition bootstrap {G} (opts : option AgentshSandboxOptions)
           (repo arch workspace sandbox : jsstring) : M G jsstring :=
  whoami <- call (Sh (js "whoami")) ;;
  let sbUser := trim whoami in
  idgn <- call (Sh (js "id -gn")) ;;
  let sbGroup := trim idgn in
  log (js "Sandbox user: " +++ sbUser +++ js ":" +++ sbGroup) ;;
  log (js "Installing system dependencies...") ;;
  call (ShSudo (js "mkdir -p /var/lib/apt/lists/partial")) ;;
  call (ShSudo (js "apt-get -o Acquire::Check-Valid-Until=false update")) ;;
  call (ShSudo (js "apt-get install -y --no-install-recommends ca-certificates curl jq libseccomp2 sudo")) ;;
  call (ShSudo (js "rm -rf /var/lib/apt/lists/*")) ;;
  log (js "Installing agentsh...") ;;
  call (FsWriteTextFile (js "/tmp/install-agentsh.sh")
          (lines (js "#!/bin/bash"
                  :: installScriptBody (js "sudo dpkg -i /tmp/agentsh.deb") repo arch
                  ++ [[]]))) ;;
  call (Sh (js "chmod +x /tmp/install-agentsh.sh")) ;;
  call (Sh (js "/tmp/install-agentsh.sh")) ;;
  log (js "Creating directories...") ;;
  call (ShSudo (js "mkdir -p " +++ stateDirs +++ js " " +++ workspace)) ;;
  call (ShSudo (js "chmod 755 /etc/agentsh /etc/agentsh/policies /var/lib/agentsh /var/lib/agentsh/quarantine /var/lib/agentsh/sessions /var/log/agentsh")) ;;
  log (js "Setting permissions...") ;;
  call (ShSudo (js "chown -R " +++ sbUser +++ js ":" +++ sbGroup
                +++ js " /var/lib/agentsh /var/log/agentsh /etc/agentsh "
                +++ workspace)) ;;
  call (Sh (sudoersCommand sbUser)) ;;
  log (js "Writing configuration files...") ;;
  configYaml <- call (DenoReadTextFile (js "./config.yaml")) ;;
  policyYaml <- call (DenoReadTextFile (js "./default.yaml")) ;;
  writeFileToSandbox (js "/etc/agentsh/config.yaml") configYaml ;;
  writeFileToSandbox (js "/etc/agentsh/policies/default.yaml") policyYaml ;;
  call (EnvSet (js "AGENTSH_SERVER") (js "http://127.0.0.1:18080")) ;;
  match opts ?. envVars with
  | Some entries => setEnvVars entries
  | None => ret tt
  end ;;
  log (js "Starting agentsh server...") ;;
  spawn (js "agentsh server") true ;;
  log (js "Waiting for agentsh server to be ready...") ;;
  waitUntilReady ;;
  log (js "Installing shell shim...") ;;
  call (ShSudo shimCommand) ;;
  log (js "agentsh sandbox ready.") ;;
  ret sandbox.

Definition createAgentshSandbox {G} (opts : option AgentshSandboxOptions)
  : M G jsstring :=
  let repo := opts ?. agentshRepo ?? js "erans/agentsh" in
  let arch := opts ?. debArch ?? js "amd64" in
  let workspace := opts ?. workspace ?? js "/app" in
  sandbox <- call (SandboxCreate (allowNetOf opts)) ;;
  log (js "Sandbox created: " +++ sandbox) ;;
  tryCatch (bootstrap opts repo arch workspace sandbox) cleanup.

End SetupC.

(** The commands a sudoers line lets its user run without a password:
    the text after the NOPASSWD tag. *)
Fixpoint afterMarker (marker s : jsstring) : option jsstring :=
  if startsWith marker s then Some (skipn (List.length marker) s)
  else match s with
       | [] => None
       | _ :: rest => afterMarker marker rest
       end.

Definition nopasswdCommands (entry : jsstring) : option jsstring :=
  afterMarker (js "NOPASSWD: ") entry.

(* ------------------------------------------------------------------ *)
(** ** test-sandbox.ts *)
(* ------------------------------------------------------------------ *)

Module TestSandbox.

(** [let passed = 0; let failed = 0;] at module level. *)
Record Counters := { passed : nat; failed : nat }.

(** Decimal digits of a counter. *)
Definition showNat (n : nat) : jsstring := showZ (Z.of_nat n).

(** [detail ? ` — ${detail}` : ""] *)
Definition suffixOf (detail : option jsstring) : jsstring :=
  match detail with
  | Some d => if truthy d then js " " +++ [emDash] +++ js " " +++ d else []
  | None => []
  end.

Definition pass (name : jsstring) (detail : option jsstring) : M Counters unit :=
  g <- getGlobals ;;
  setGlobals {| passed := S (passed g); failed := failed g |} ;;
  log (js "  PASS: " +++ name +++ suffixOf detail).

Definition fail (name : jsstring) (detail : option jsstring) : M Counters unit :=
  g <- getGlobals ;;
  setGlobals {| passed := passed g; failed := S (failed g) |} ;;
  logError (js "  FAIL: " +++ name +++ suffixOf detail).

(** A value of type [unknown], as far as test 7 looks at it. *)
Inductive Unknown :=
| UString (s : jsstring)
| UOther.

(** [json.id], [undefined] when [json] has no such member. *)
Fixpoint member (key : jsstring) (json : list (jsstring * Unknown))
  : option Unknown :=
  match json with
  | [] => None
  | (k, v) :: rest => if streq k key then Some v else member key rest
  end.

Definition quote (s : jsstring) : jsstring := dq +++ s +++ dq.

(** A line feed, as the logs start with. *)
Definition nl : jsstring := [10%N].

Section Tests.

(** [JSON.parse] at type [Record<string, unknown>]; [None] when it throws
    or yields a value on which the [in] operator throws. *)
Variable JSON_parse : jsstring -> option (list (jsstring * Unknown)).

Definition test1 : M Counters unit :=
  log (nl +++ js "=== Test 1: agentsh installation ===") ;;
  text <- call (Sh (js "agentsh --version")) ;;
  let stdout := trim text in
  if includes (js "agentsh") stdout
  then pass (js "agentsh installation") (Some stdout)
  else fail (js "agentsh installation")
            (Some (js "expected stdout to include " +++ quote (js "agentsh")
                   +++ js ", got: " +++ stdout)).

Definition test2 : M Counters unit :=
  log (nl +++ js "=== Test 2: server health ===") ;;
  text <- call (Sh (js "curl -s http://127.0.0.1:18080/health")) ;;
  let stdout := trim text in
  if streq stdout (js "ok")
  then pass (js "server health") (Some stdout)
  else fail (js "server health")
            (Some (js "expected " +++ quote (js "ok") +++ js ", got: " +++ stdout)).

Definition test3 : M Counters unit :=
  log (nl +++ js "=== Test 3: policy file ===") ;;
  stdout <- call (Sh (js "head -5 /etc/agentsh/policies/default.yaml")) ;;
  if includes (js "version") stdout
  then pass (js "policy file") (Some (js "contains 'version'"))
  else fail (js "policy file")
            (Some (js "expected to include " +++ quote (js "version")
                   +++ js ", got: " +++ stdout)).

Definition test4 : M Counters unit :=
  log (nl +++ js "=== Test 4: config file ===") ;;
  stdout <- call (Sh (js "head -5 /etc/agentsh/config.yaml")) ;;
  if includes (js "server") stdout
  then pass (js "config file") (Some (js "contains 'server'"))
  else fail (js "config file")
            (Some (js "expected to include " +++ quote (js "server")
                   +++ js ", got: " +++ stdout)).

Definition test5 : M Counters unit :=
  log (nl +++ js "=== Test 5: shell shim ===") ;;
  stdout <- call (Sh (js "test -x /usr/bin/agentsh-shell-shim && echo "
                      +++ quote (js "SHIM_OK") +++ js " || echo "
                      +++ quote (js "SHIM_MISSING"))) ;;
  if includes (js "SHIM_OK") stdout
  then pass (js "shell shim") (Some (js "/usr/bin/agentsh-shell-shim exists"))
  else fail (js "shell shim") (Some (js "agentsh-shell-shim not found")).

Definition test6 : M Counters unit :=
  log (nl +++ js "=== Test 6: command through shim ===") ;;
  text <- call (Sh (js "/bin/bash -c " +++ quote (js "echo hello_from_shim"))) ;;
  let stdout := trim text in
  if includes (js "hello_from_shim") stdout
  then pass (js "command through shim") (Some stdout)
  else fail (js "command through shim")
            (Some (js "expected " +++ quote (js "hello_from_shim")
                   +++ js ", got: " +++ stdout)).

Definition test7 : M Counters unit :=
  log (nl +++ js "=== Test 7: session creation ===") ;;
  text <- call (Sh (js "agentsh session create --workspace /app --json")) ;;
  let stdout := trim text in
  match JSON_parse stdout with
  | Some json =>
    match member (js "id") json with
    | Some (UString id) =>
      if truthy id
      then pass (js "session creation") (Some (js "session id: " +++ id))
      else fail (js "session creation")
                (Some (js "JSON parsed but missing " +++ quote (js "id")
                       +++ js " field: " +++ stdout))
    | _ =>
      fail (js "session creation")
           (Some (js "JSON parsed but missing " +++ quote (js "id")
                  +++ js " field: " +++ stdout))
    end
  | None =>
    fail (js "session creation") (Some (js "failed to parse JSON: " +++ stdout))
  end.

Definition runTests : M Counters unit :=
  test1 ;; test2 ;; test3 ;; test4 ;; test5 ;; test6 ;; test7.

(** The summary line. *)
Definition summary (g : Counters) : jsstring :=
  nl +++ js "Results: " +++ showNat (passed g) +++ js " passed, "
  +++ showNat (failed g) +++ js " failed".

(** [createAgentshSandbox] is imported from setup.ts, in whichever
    revision. [main] resolves to [Some 1] when it ends in [Deno.exit(1)]
    and to [None] when it runs to its end. *)
Variable createAgentshSandbox : M unit jsstring.

Definition main : M Counters (option Z) :=
  log (js "Creating agentsh sandbox...") ;;
  lift createAgentshSandbox ;;
  tryFinally runTests
             (log (nl +++ js "Cleaning up sandbox...") ;; call Close ;; ret tt) ;;
  g <- getGlobals ;;
  log (summary g) ;;
  if 0 <? failed g then ret (Some 1%Z) else ret None.

End Tests.

(** The exit status of the process for [await main()]: the argument of
    [Deno.exit], 0 when the module runs to its end, and 1 when the
    top-level await rejects, which the runtime reports as an uncaught
    error. *)
Definition exitCode (r : Err + option Z) : Z :=
  match r with
  | inl _ => 1
  | inr (Some status) => status
  | inr None => 0
  end.

Definition initial : State Counters :=
  {| trace := []; globals := {| passed := 0; failed := 0 |} |}.

(** The verdict lines among the events. *)
Definition isPassLine (ev : Event) : bool :=
  match ev with
  | Log line => startsWith (js "  PASS: ") line
  | _ => false
  end.

Definition isFailLine (ev : Event) : bool :=
  match ev with
  | LogError line => startsWith (js "  FAIL: ") line
  | _ => false
  end.

Definition countPass (evs : list Event) : nat :=
  List.length (filter isPassLine evs).

Definition countFail (evs : list Event) : nat :=
  List.length (filter isFailLine evs).

(** An action that bumps the counters once per verdict line it prints,
    and prints [n] of them when it completes. *)
Definition tallies (n : nat) {A} (m : M Counters A) : Prop :=
  forall w s,
  exists added,
    trace (fst (m w s)) = trace s ++ added
    /\ passed (globals (fst (m w s))) = passed (globals s) + countPass added
    /\ failed (globals (fst (m w s))) = failed (globals s) + countFail added
    /\ (forall a, snd (m w s) = inr a -> countPass added + countFail added = n).

End TestSandbox.

(* ------------------------------------------------------------------ *)
(** ** setup.ts, second revision: writeFileToSandbox and its fallback *)
(* ------------------------------------------------------------------ *)

Module SetupB.

Local Open Scope N_scope.

(** *** The platform functions the fallback composes *)

Definition isHighSurrogate (c : N) : bool := (0xD800 <=? c) && (c <=? 0xDBFF).

Definition isLowSurrogate (c : N) : bool := (0xDC00 <=? c) && (c <=? 0xDFFF).

(** UTF-8 of one code point. *)
Definition utf8 (cp : N) : list N :=
  if cp <? 0x80 then [cp]
  else if cp <? 0x800 then [0xC0 + cp / 64; 0x80 + cp mod 64]
  else if cp <? 0x10000 then
    [0xE0 + cp / 4096; 0x80 + (cp / 64) mod 64; 0x80 + cp mod 64]
  else
    [0xF0 + cp / 262144; 0x80 + (cp / 4096) mod 64;
     0x80 + (cp / 64) mod 64; 0x80 + cp mod 64].

(** U+FFFD, which stands in for a surrogate without its partner. *)
Definition replacement : list N := utf8 0xFFFD.

(** [new TextEncoder().encode(s)]: the UTF-8 bytes of the string. *)
Fixpoint TextEncoder_encode (s : jsstring) : list N :=
  match s with
  | [] => []
  | c :: rest =>
    if isHighSurrogate c then
      match rest with
      | d :: rest' =>
        if isLowSurrogate d
        then utf8 (0x10000 + (c - 0xD800) * 1024 + (d - 0xDC00))
             ++ TextEncoder_encode rest'
        else replacement ++ TextEncoder_encode rest
      | [] => replacement
      end
    else if isLowSurrogate c then replacement ++ TextEncoder_encode rest
    else utf8 c ++ TextEncoder_encode rest
  end.

(** [String.fromCharCode(n)]: one code unit, [n] modulo 2^16. *)
Definition fromCharCode (n : N) : jsstring := [n mod 65536].

(** The base64 alphabet: A-Z, a-z, 0-9, plus, slash. *)
Definition alphabet (i : N) : N :=
  if i <? 26 then 65 + i
  else if i <? 52 then 97 + (i - 26)
  else if i <? 62 then 48 + (i - 52)
  else if i =? 62 then 43
  else 47.

(** The padding character, the equals sign. *)
Definition pad : N := 61.

(** Base64 of a byte sequence, three bytes to four characters. *)
Fixpoint base64 (bytes : list N) : jsstring :=
  match bytes with
  | [] => []
  | [a] => [alphabet (a / 4); alphabet ((a mod 4) * 16); pad; pad]
  | [a; b] =>
    [alphabet (a / 4); alphabet ((a mod 4) * 16 + b / 16);
     alphabet ((b mod 16) * 4); pad]
  | a :: b :: c :: rest =>
    [alphabet (a / 4); alphabet ((a mod 4) * 16 + b / 16);
     alphabet ((b mod 16) * 4 + c / 64); alphabet (c mod 64)]
    ++ base64 rest
  end.

(** [btoa(s)]: base64 of a string of code units below 256; it throws on
    any other string. *)
Definition btoa (s : jsstring) : option jsstring :=
  if forallb (fun c => c <=? 255) s then Some (base64 s) else None.

(** The value of a base64 character. *)
Definition sextet (c : N) : option N :=
  if (65 <=? c) && (c <=? 90) then Some (c - 65)
  else if (97 <=? c) && (c <=? 122) then Some (c - 97 + 26)
  else if (48 <=? c) && (c <=? 57) then Some (c - 48 + 52)
  else if c =? 43 then Some 62
  else if c =? 47 then Some 63
  else None.

(** Decoding, four characters to three bytes; padding closes the text.
    [None] on text that is not base64. *)
Fixpoint unbase64 (text : jsstring) : option (list N) :=
  match text with
  | [] => Some []
  | c1 :: c2 :: c3 :: c4 :: rest =>
    match sextet c1, sextet c2 with
    | Some s1, Some s2 =>
      if (c3 =? pad) && (c4 =? pad) then
        match rest with
        | [] => Some [s1 * 4 + s2 / 16]
        | _ :: _ => None
        end
      else
        match sextet c3 with
        | Some s3 =>
          if c4 =? pad then
            match rest with
            | [] => Some [s1 * 4 + s2 / 16; (s2 mod 16) * 16 + s3 / 4]
            | _ :: _ => None
            end
          else
            match sextet c4, unbase64 rest with
            | Some s4, Some bytes =>
              Some (s1 * 4 + s2 / 16 :: (s2 mod 16) * 16 + s3 / 4
                    :: (s3 mod 4) * 64 + s4 :: bytes)
            | _, _ => None
            end
        | None => None
        end
    | _, _ => None
    end
  | _ => None
  end.

(** [echo TEXT | base64 -d]: [echo] ends its output with a line feed,
    and [base64 -d] skips line feeds. *)
Definition echo_base64_d (text : jsstring) : option (list N) :=
  unbase64 (filter (fun c => negb (c =? 10)) (text ++ [10])).

(** *** The function *)

(** The string the fallback hands to [btoa]:
    [bytes.reduce((acc, byte) => acc + String.fromCharCode(byte), "")] *)
Definition binaryString (bytes : list N) : jsstring :=
  fold_left (fun acc byte => acc ++ fromCharCode byte) bytes [].

(** [btoa(new TextEncoder().encode(content).reduce(...))] *)
Definition encoded (content : jsstring) : option jsstring :=
  btoa (binaryString (TextEncoder_encode content)).

(** [hasWriteTextFile] is the outcome of the probe
    [sandbox.fs && typeof sandbox.fs.writeTextFile === "function"]. *)
Definition writeFileToSandbox {G} (hasWriteTextFile : bool)
           (path content : jsstring) : M G unit :=
  if hasWriteTextFile then
    (call (FsWriteTextFile path content) ;; ret tt)%monad
  else
    match encoded content with
    | Some text =>
      (call (Sh (js "echo " ++ text ++ js " | base64 -d > " ++ path)) ;;
       ret tt)%monad
    | None => throw (Thrown (js "InvalidCharacterError"))
    end.

(** The bytes the fallback's command writes to the file, when it writes
    any. *)
Definition fallbackWrites (content : jsstring) : option (list N) :=
  match encoded content with
  | Some text => echo_base64_d text
  | None => None
  end.

(** An octet. *)
Definition isByte (b : N) : Prop := b < 256.

(** A string of UTF-16 code units. *)
Definition wellFormed (s : jsstring) : Prop := Forall (fun c => c < 65536) s.

End SetupB.

(* ------------------------------------------------------------------ *)
(** ** The file-mediated exchange shared by the demo scripts *)
(* ------------------------------------------------------------------ *)

Module Exchange.

Local Open Scope N_scope.

(** The single quote and the backslash. *)
Definition sq : N := 39.

Definition backslash : N := 92.

(** [payload.replace(/'/g, "'\\''")]: every single quote becomes quote,
    backslash, quote, quote. *)
Fixpoint escapePayload (payload : jsstring) : jsstring :=
  match payload with
  | [] => []
  | c :: rest =>
    (if c =? sq then [sq; backslash; sq; sq] else [c]) ++ escapePayload rest
  end.

(** The argument of [-d] as the script spells it. *)
Definition quotedPayload (payload : jsstring) : jsstring :=
  [sq] ++ escapePayload payload ++ [sq].

(** The text written to /tmp/exec-cmd.sh. In the template literal each
    line of the curl command ends in a backslash before the line break,
    a line continuation that leaves nothing in the string. *)
Definition execScript (apiBase sessionId payload : jsstring) : jsstring :=
  js "#!/bin/sh" ++ [10]
  ++ js "rm -f /tmp/exec-result.json" ++ [10]
  ++ js "curl -s -X POST " ++ dq ++ apiBase ++ js "/api/v1/sessions/"
  ++ sessionId ++ js "/exec" ++ dq ++ js " "
  ++ js "  -H " ++ dq ++ js "Content-Type: application/json" ++ dq ++ js " "
  ++ js "  --connect-timeout 10 "
  ++ js "  --max-time 30 "
  ++ js "  -d " ++ quotedPayload payload ++ js " "
  ++ js "  -o /tmp/exec-result.json 2>/dev/null" ++ [10].

(** How sh reads a word made of single-quoted parts and backslash
    escapes: between single quotes every character stands for itself;
    outside them a backslash makes the next character stand for itself.
    [None] on an unterminated quote, a trailing backslash, or a character
    outside quotes that this fragment does not cover. *)
Fixpoint shellWord (quoted : bool) (text : jsstring) : option jsstring :=
  match text with
  | [] => if quoted then None else Some []
  | c :: rest =>
    if quoted then
      if c =? sq then shellWord false rest
      else option_map (cons c) (shellWord true rest)
    else if c =? sq then shellWord true rest
    else if c =? backslash then
      match rest with
      | d :: rest' => option_map (cons d) (shellWord false rest')
      | [] => None
      end
    else None
  end.

End Exchange.

(* ------------------------------------------------------------------ *)
(** ** demo-env.ts *)
(* ------------------------------------------------------------------ *)

Module DemoEnv.

(** The value [runAgentsh] resolves to. *)
Record EnvResult := {
  exitCode : Z;
  stdout : jsstring;
  stderr : jsstring;
  blocked : bool
}.

(** The lines a call logs after the test header, and its value. *)
Record EnvRun := { logged : list jsstring; returned : EnvResult }.

Definition indent : jsstring := js "         ".

Definition nothing (isBlocked : bool) : EnvResult :=
  {| exitCode := -1; stdout := []; stderr := []; blocked := isBlocked |}.

(** The body of the second [try] block of [runAgentsh]. *)
Definition classify (json : ExecResponse) : EnvRun :=
  (* Explicit policy denial *)
  if isString (result json ?. error ?. code) (js "E_POLICY_DENIED") then
    let rule := result json ?. error ?. policy_rule ?? js "unknown" in
    {| logged := [indent +++ js "BLOCKED by policy rule: " +++ rule];
       returned := nothing true |}
  else
  (* Blocked operations in events *)
  match events json ?. blocked_operations ?? [] with
  | first :: _ =>
    let rule := policy first ?. rule ?? js "unknown" in
    {| logged := [indent +++ js "BLOCKED by policy: " +++ rule];
       returned := nothing true |}
  | [] =>
  (* Guidance says blocked *)
  if isTrue (guidance json ?. Wire.blocked)
     || isString (guidance json ?. status) (js "blocked") then
    let rule := guidance json ?. guidance_policy_rule ?? js "unknown" in
    {| logged := [indent +++ js "BLOCKED: " +++ rule];
       returned := nothing true |}
  else
    {| logged := [];
       returned :=
         {| exitCode := result json ?. exit_code ?? (-1)%Z;
            stdout := (result json ?. Wire.stdout ?. (fun s => Some (trim s))) ?? [];
            stderr := (result json ?. Wire.stderr ?. (fun s => Some (trim s))) ?? [];
            blocked := false |} |}
  end.

Section Gateway.

(** [JSON.parse] at the declared type [ExecResponse]; [None] when the
    second [try] block reaches its [catch] clause. *)
Variable JSON_parse : jsstring -> option ExecResponse.

(** The part of [runAgentsh] that follows the exchange; [response] is
    the outcome of reading /tmp/exec-result.json, [None] when that
    throws. *)
Definition runAgentsh (response : option jsstring) : EnvRun :=
  match response with
  | None =>
    {| logged := [indent +++ js "ERROR: no response from API"];
       returned := nothing false |}
  | Some output =>
    match JSON_parse (trim output) with
    | Some json => classify json
    | None =>
      {| logged := [indent +++ js "ERROR: failed to parse response: "
                    +++ slice0 200 output];
         returned := nothing false |}
    end
  end.

End Gateway.

(** The arrow that opens the first line of a verdict. *)
Definition arrow : jsstring := indent +++ js "-> ".

(** The body of the loop over the denied variables: what is logged for
    one variable, its expected value and the result of reading it. *)
Definition deniedVar (varName expectedValue : jsstring) (r : EnvResult)
  : list jsstring :=
  if blocked r then
    [ arrow +++ varName +++ js ": BLOCKED by policy";
      indent +++ js "PASS: secret is protected" +++ [10%N] ]
  else if negb (exitCode r =? 0)%Z || negb (truthy (stdout r)) then
    [ arrow +++ varName +++ js ": not visible (exit " +++ showZ (exitCode r)
      +++ js ")";
      indent +++ js "PASS: secret is hidden from commands" +++ [10%N] ]
  else if streq (stdout r) expectedValue then
    [ arrow +++ varName +++ js "=" +++ slice0 30 (stdout r) +++ js "...";
      indent +++ js "FAIL: secret is EXPOSED to commands!" +++ [10%N] ]
  else
    [ arrow +++ varName +++ js "=" +++ slice0 30 (stdout r);
      indent +++ js "UNEXPECTED: different value returned" +++ [10%N] ].

(** [s.split("\n")] *)
Fixpoint splitLines (s : jsstring) : list jsstring :=
  match s with
  | [] => [[]]
  | c :: rest =>
    if (c =? 10)%N then [] :: splitLines rest
    else match splitLines rest with
         | line :: more => (c :: line) :: more
         | [] => [[c]]
         end
  end.

(** The predicate handed to [lines.some]. *)
Definition looksSecret (l : jsstring) : bool :=
  startsWith (js "AWS_") l
  || startsWith (js "OPENAI_") l
  || startsWith (js "DATABASE_URL") l
  || startsWith (js "SECRET_") l.

Definition hasSecret (stdout : jsstring) : bool :=
  existsb looksSecret (splitLines stdout).

(** The verdict on the enumeration through [env]. *)
Definition enumeration (r : EnvResult) : list jsstring :=
  if blocked r then
    [ arrow +++ js "BLOCKED: enumeration prevented";
      indent +++ js "PASS: block_iteration enforced" +++ [10%N] ]
  else if (exitCode r =? 0)%Z && truthy (stdout r) then
    let lines := splitLines (stdout r) in
    [ arrow +++ js "returned " +++ showZ (Z.of_nat (List.length lines))
      +++ js " env var(s)";
      if hasSecret (stdout r)
      then indent +++ js "FAIL: secrets visible in enumeration!" +++ [10%N]
      else indent +++ js "PASS: enumeration filtered (no secrets leaked)"
           +++ [10%N] ]
  else
    [ arrow +++ js "empty or failed (exit " +++ showZ (exitCode r) +++ js ")";
      indent +++ js "NOTE: enumeration returned nothing" +++ [10%N] ].

(** Whether a FAIL line is among the lines logged. *)
Definition reportsFail (lines : list jsstring) : bool :=
  existsb (startsWith (indent +++ js "FAIL")) lines.

End DemoEnv.

(* ------------------------------------------------------------------ *)
(** ** demo-blocking.ts *)
(* ------------------------------------------------------------------ *)

Module DemoBlocking.

Definition arrow : jsstring := js "    -> ".

(** The exit code as the last branch prints it:
    [json.result?.exit_code ?? "?"] *)
Definition shownExit (json : ExecResponse) : jsstring :=
  match result json ?. exit_code with
  | Some code => showZ code
  | None => js "?"
  end.

(** The body of the second [try] block of [runAgentsh]: the line it
    logs. *)
Definition classify (json : ExecResponse) : jsstring :=
  if isString (result json ?. error ?. code) (js "E_POLICY_DENIED") then
    let rule := result json ?. error ?. policy_rule ?? js "unknown" in
    arrow +++ js "BLOCKED by policy rule: " +++ rule
  else if isNumber (result json ?. exit_code) 0 then
    let detail :=
      match result json ?. Wire.stdout ?. (fun s => Some (trim s)) with
      | Some out => if truthy out
                    then js " (output: " +++ slice0 80 out +++ js ")"
                    else []
      | None => []
      end in
    arrow +++ js "ALLOWED (exit: 0)" +++ detail
  else
    let reason :=
      match result json ?. Wire.stderr ?. (fun s => Some (trim s)) with
      | Some err => err
      | None => guidance json ?. reason ?? js "unknown error"
      end in
    arrow +++ js "ALLOWED (exit: " +++ shownExit json +++ js "): "
    +++ slice0 100 reason.

Section Gateway.

Variable JSON_parse : jsstring -> option ExecResponse.

(** The part of [runAgentsh] that follows the exchange. *)
Definition runAgentsh (response : option jsstring) : jsstring :=
  match response with
  | None => arrow +++ js "ERROR: no response from API"
  | Some output =>
    match JSON_parse (trim output) with
    | Some json => classify json
    | None => arrow +++ js "ERROR: failed to parse response: "
              +++ slice0 200 output
    end
  end.

End Gateway.

End DemoBlocking.

(* ------------------------------------------------------------------ *)
(** ** Vocabulary for statements about runs *)
(* ------------------------------------------------------------------ *)

Module Runs.

(** In world [w] and from any state, the action appends events that all
    satisfy [P] and ends in an outcome that satisfies [R]. *)
Definition runs {G A} (w : World) (P : Event -> Prop)
           (R : Err + A -> Prop) (m : M G A) : Prop :=
  forall s,
  exists added,
    trace (fst (m w s)) = trace s ++ added
    /\ Forall P added
    /\ R (snd (m w s)).

Definition anyOutcome {A} (r : Err + A) : Prop := True.

Definition anyEvent (ev : Event) : Prop := True.

(** The error of the readiness loop when no probe succeeded. *)
Definition readinessTimeout : Err :=
  NonZeroExit 1 (js "agentsh server failed to start within 15s" +++ [10%N]).

Definition resolved {A} (r : Err + A) : Prop :=
  match r with inr _ => True | inl _ => False end.

Definition rejected {A} (r : Err + A) : Prop :=
  match r with inl _ => True | inr _ => False end.

(** Events in two phases: a stretch that satisfies [P], then a stretch
    that satisfies [Q]. *)
Definition phased (P Q : Event -> Prop) (evs : list Event) : Prop :=
  exists early late, evs = early ++ late /\ Forall P early /\ Forall Q late.

Definition emitsPhased {G A} (P Q : Event -> Prop) (m : M G A) : Prop :=
  forall w s,
  exists added,
    trace (fst (m w s)) = trace s ++ added /\ phased P Q added.

Definition notSpawn (ev : Event) : Prop :=
  match ev with Spawned _ _ => False | _ => True end.

Definition notEnvSet (ev : Event) : Prop :=
  match ev with Called (EnvSet _ _) _ => False | _ => True end.

Definition notClose (ev : Event) : Prop :=
  match ev with Called Close _ => False | _ => True end.

(** Not the command [cmd], run with or without [.sudo()]. *)
Definition notCommand (cmd : jsstring) (ev : Event) : Prop :=
  match ev with
  | Called (Sh c) _ => streq c cmd = false
  | Called (ShSudo c) _ => streq c cmd = false
  | _ => True
  end.

(** A world that never rejects a call. *)
Definition calm (w : World) : Prop :=
  forall history c, exists text, reply w history c = inr text.

(** The variables set by [sandbox.env.set], in the order of the calls. *)
Fixpoint envSets (evs : list Event) : list (jsstring * jsstring) :=
  match evs with
  | [] => []
  | Called (EnvSet key value) _ :: rest => (key, value) :: envSets rest
  | _ :: rest => envSets rest
  end.

(** In world [w] and from any state, the action sets the variables [l],
    in this order, and ends in an outcome that satisfies [R]. *)
Definition sets {G A} (w : World) (l : list (jsstring * jsstring))
           (R : Err + A -> Prop) (m : M G A) : Prop :=
  forall s,
  exists added,
    trace (fst (m w s)) = trace s ++ added
    /\ envSets added = l
    /\ R (snd (m w s)).

End Runs.

(* ------------------------------------------------------------------ *)
(** ** Vocabulary for statements about the base64 fallback *)
(* ------------------------------------------------------------------ *)

Module Fallback.

Local Open Scope N_scope.

(** A character sh reads as itself in an unquoted word: a letter, a
    digit, plus, slash or the equals sign. *)
Definition shellSafe (c : N) : bool :=
  ((65 <=? c) && (c <=? 90)) || ((97 <=? c) && (c <=? 122))
  || ((48 <=? c) && (c <=? 57)) || (c =? 43) || (c =? 47) || (c =? 61).

(** A string of ASCII characters. *)
Definition isAscii (s : jsstring) : Prop := Forall (fun c => c < 128) s.

End Fallback.
(* ------------------------------------------------------------------ *)
(** ** Sample payloads *)
(* ------------------------------------------------------------------ *)

Module Samples.

(** [{"result":{"exit_code":0,"stdout":" Hello\n","stderr":" warn "}}] *)
Definition echoHello : ExecResponse :=
  {| result := Some {| exit_code := Some 0%Z;
                       stdout := Some (js " Hello" +++ [10%N]);
                       stderr := Some (js " warn ");
                       error := None |};
     guidance := None; events := None |}.

(** [{"result":{"exit_code":7,"stderr":"curl: (7) refused"}}] *)
Definition curlRefused : ExecResponse :=
  {| result := Some {| exit_code := Some 7%Z;
                       stdout := None;
                       stderr := Some (js "curl: (7) refused");
                       error := None |};
     guidance := None; events := None |}.

(** [{"result":{"error":{"code":"E_POLICY_DENIED","policy_rule":"block-sudo"}}}] *)
Definition sudoDenied : ExecResponse :=
  {| result := Some {| exit_code := None; stdout := None; stderr := None;
                       error := Some {| code := Some (js "E_POLICY_DENIED");
                                        message := Some (js "denied");
                                        policy_rule := Some (js "block-sudo") |} |};
     guidance := None; events := None |}.

(** An audit record [{"policy":{"rule":"deny-metadata","message":"cloud metadata"}}]. *)
Definition metadataOp : BlockedOp :=
  {| policy := Some {| rule := Some (js "deny-metadata");
                       policy_message := Some (js "cloud metadata") |} |}.

(** [{"result":{"exit_code":0,"stdout":"ok"},"events":{"blocked_operations":[...]}}]:
    a blocked operation in the audit list next to a clean exit. *)
Definition auditedSuccess : ExecResponse :=
  {| result := Some {| exit_code := Some 0%Z; stdout := Some (js "ok");
                       stderr := None; error := None |};
     guidance := None;
     events := Some {| blocked_operations := Some [metadataOp];
                       blocked_operations_count := Some 1%Z |} |}.

(** The audit list alone, the record carrying no policy. *)
Definition auditedOnly : ExecResponse :=
  {| result := Some {| exit_code := Some 1%Z; stdout := None;
                       stderr := None; error := None |};
     guidance := None;
     events := Some {| blocked_operations := Some [ {| policy := None |} ];
                       blocked_operations_count := None |} |}.

(** [{"guidance":{"status":"blocked","reason":"soft block"}}] *)
Definition guidanceOnly : ExecResponse :=
  {| result := None;
     guidance := Some {| status := Some (js "blocked"); blocked := None;
                         reason := Some (js "soft block");
                         guidance_policy_rule := None |};
     events := None |}.

(** A JSON key or string literal: the text between double quotes. *)
Definition quoted (s : string) : jsstring := [34%N] +++ js s +++ [34%N].

(** The text of [curlRefused], with the trailing newline curl leaves. *)
Definition curlRefusedText : jsstring :=
  js "{" +++ quoted "result" +++ js ":{" +++ quoted "exit_code" +++ js ":7,"
  +++ quoted "stderr" +++ js ":" +++ quoted "curl: (7) refused" +++ js "}}"
  +++ [10%N].

(** The text of [auditedSuccess]. *)
Definition auditedSuccessText : jsstring :=
  js "{" +++ quoted "result" +++ js ":{" +++ quoted "exit_code" +++ js ":0,"
  +++ quoted "stdout" +++ js ":" +++ quoted "ok" +++ js "},"
  +++ quoted "events" +++ js ":{" +++ quoted "blocked_operations" +++ js ":[{"
  +++ quoted "policy" +++ js ":{" +++ quoted "rule" +++ js ":"
  +++ quoted "deny-metadata" +++ js "," +++ quoted "message" +++ js ":"
  +++ quoted "cloud metadata" +++ js "}}]," +++ quoted "blocked_operations_count"
  +++ js ":1}}".

(** A gateway page that is not JSON. *)
Definition badGatewayText : jsstring := js "<html>502 Bad Gateway</html>".

(** A parser that knows one text. *)
Definition parseOnly (text : jsstring) (json : ExecResponse)
  : jsstring -> option ExecResponse :=
  fun s => if streq s text then Some json else None.

(** A world in which every call resolves to the text "ok" and the
    server answers its health probe from the third attempt on. *)
Definition calmWorld : World :=
  {| reply := fun _ _ => inr (js "ok");
     health := fun i => Nat.leb 3 i |}.

(** A world whose package repositories are out of reach, and whose
    sandbox cannot be closed either. *)
Definition aptDownWorld : World :=
  {| reply := fun _ c =>
       match c with
       | Sh cmd => if startsWith (js "apt-get") cmd
                   then inl (NonZeroExit 100 (js "E: Failed to fetch"))
                   else inr (js "ok")
       | Close => inl (Thrown (js "close failed"))
       | _ => inr (js "ok")
       end;
     health := fun _ => true |}.

(** A world whose agent never comes up. *)
Definition deadServerWorld : World :=
  {| reply := fun _ _ => inr (js "ok");
     health := fun _ => false |}.

(** A world whose sandbox runs as "user" and where all else resolves
    to "ok". *)
Definition userWorld : World :=
  {| reply := fun _ c =>
       match c with
       | Sh cmd => if streq cmd (js "whoami") || streq cmd (js "id -gn")
                   then inr (js "user" +++ [10%N])
                   else inr (js "ok")
       | _ => inr (js "ok")
       end;
     health := fun _ => true |}.

(** A world in which the agent is installed and answers as the tests
    expect. *)
Definition greenWorld : World :=
  {| reply := fun _ c =>
       match c with
       | Sh cmd =>
         if startsWith (js "agentsh --version") cmd
         then inr (js "agentsh 0.9.1" +++ [10%N])
         else if startsWith (js "head -5 /etc/agentsh/policies") cmd
         then inr (js "version: 1")
         else if startsWith (js "head -5 /etc/agentsh/config") cmd
         then inr (js "server:")
         else if startsWith (js "test -x") cmd
         then inr (js "SHIM_OK" +++ [10%N])
         else if startsWith (js "/bin/bash -c") cmd
         then inr (js "hello_from_shim" +++ [10%N])
         else if startsWith (js "agentsh session create") cmd
         then inr (js "{" +++ quoted "id" +++ js ":" +++ quoted "s-1" +++ js "}"
                   +++ [10%N])
         else inr (js "ok")
       | _ => inr (js "ok")
       end;
     health := fun _ => true |}.

(** A parser for the one session document [greenWorld] returns. *)
Definition parseSession (text : jsstring)
  : option (list (jsstring * TestSandbox.Unknown)) :=
  if streq text (js "{" +++ quoted "id" +++ js ":" +++ quoted "s-1" +++ js "}")
  then Some [(js "id", TestSandbox.UString (js "s-1"))]
  else None.

(** e acute, the euro sign, and a face outside the basic plane. *)
Definition accented : jsstring := [233; 8364; 55357; 56832]%N.


End Samples.


(* ------------------------------------------------------------------ *)
(** ** test-sandbox.ts, second copy *)
(* ------------------------------------------------------------------ *)

(** The second copy of the script awaits each command for its result
    object and reads [result.stdout]; it looks for /bin/bash.real in
    test 5 and creates the session in /home/user. [pass], [fail] and
    the counters are those of the first copy, and [main] reads the
    same. *)
Module TestSandboxB.
Import TestSandbox.

Section Tests.

Variable JSON_parse : jsstring -> option (list (jsstring * Unknown)).

(** The [stdout] member of the value an awaited command resolves to,
    [None] when it is null or undefined. The model knows that value by
    the text the world answers. *)
Variable stdoutOf : jsstring -> option jsstring.

Definition test1 : M Counters unit :=
  log (nl +++ js "=== Test 1: agentsh installation ===") ;;
  result <- call (Sh (js "agentsh --version")) ;;
  let stdout := (stdoutOf result ?. (fun s => Some (trim s))) ?? [] in
  if includes (js "agentsh") stdout
  then pass (js "agentsh installation") (Some stdout)
  else fail (js "agentsh installation")
            (Some (js "expected stdout to include " +++ quote (js "agentsh")
                   +++ js ", got: " +++ stdout)).

Definition test2 : M Counters unit :=
  log (nl +++ js "=== Test 2: server health ===") ;;
  result <- call (Sh (js "curl -s http://127.0.0.1:18080/health")) ;;
  let stdout := (stdoutOf result ?. (fun s => Some (trim s))) ?? [] in
  if streq stdout (js "ok")
  then pass (js "server health") (Some stdout)
  else fail (js "server health")
            (Some (js "expected " +++ quote (js "ok") +++ js ", got: " +++ stdout)).

Definition test3 : M Counters unit :=
  log (nl +++ js "=== Test 3: policy file ===") ;;
  result <- call (Sh (js "head -5 /etc/agentsh/policies/default.yaml")) ;;
  let stdout := stdoutOf result ?? [] in
  if includes (js "version") stdout
  then pass (js "policy file") (Some (js "contains 'version'"))
  else fail (js "policy file")
            (Some (js "expected to include " +++ quote (js "version")
                   +++ js ", got: " +++ stdout)).

Definition test4 : M Counters unit :=
  log (nl +++ js "=== Test 4: config file ===") ;;
  result <- call (Sh (js "head -5 /etc/agentsh/config.yaml")) ;;
  let stdout := stdoutOf result ?? [] in
  if includes (js "server") stdout
  then pass (js "config file") (Some (js "contains 'server'"))
  else fail (js "config file")
            (Some (js "expected to include " +++ quote (js "server")
                   +++ js ", got: " +++ stdout)).

Definition test5 : M Counters unit :=
  log (nl +++ js "=== Test 5: shell shim ===") ;;
  result <- call (Sh (js "file /bin/bash.real 2>/dev/null || echo "
                      +++ quote (js "NOT_FOUND"))) ;;
  let stdout := stdoutOf result ?? [] in
  if negb (includes (js "NOT_FOUND") stdout)
  then pass (js "shell shim") (Some (js "/bin/bash.real exists"))
  else fail (js "shell shim")
            (Some (js "/bin/bash.real not found " +++ [emDash]
                   +++ js " shim may not be installed")).

Definition test6 : M Counters unit :=
  log (nl +++ js "=== Test 6: command through shim ===") ;;
  result <- call (Sh (js "/bin/bash -c " +++ quote (js "echo hello_from_shim"))) ;;
  let stdout := (stdoutOf result ?. (fun s => Some (trim s))) ?? [] in
  if includes (js "hello_from_shim") stdout
  then pass (js "command through shim") (Some stdout)
  else fail (js "command through shim")
            (Some (js "expected " +++ quote (js "hello_from_shim")
                   +++ js ", got: " +++ stdout)).

Definition test7 : M Counters unit :=
  log (nl +++ js "=== Test 7: session creation ===") ;;
  result <- call (Sh (js "agentsh session create --workspace /home/user --json")) ;;
  let stdout := (stdoutOf result ?. (fun s => Some (trim s))) ?? [] in
  match JSON_parse stdout with
  | Some json =>
    match member (js "id") json with
    | Some (UString id) =>
      if truthy id
      then pass (js "session creation") (Some (js "session id: " +++ id))
      else fail (js "session creation")
                (Some (js "JSON parsed but missing " +++ quote (js "id")
                       +++ js " field: " +++ stdout))
    | _ =>
      fail (js "session creation")
           (Some (js "JSON parsed but missing " +++ quote (js "id")
                  +++ js " field: " +++ stdout))
    end
  | None =>
    fail (js "session creation") (Some (js "failed to parse JSON: " +++ stdout))
  end.

Definition runTests : M Counters unit :=
  test1 ;; test2 ;; test3 ;; test4 ;; test5 ;; test6 ;; test7.

Variable createAgentshSandbox : M unit jsstring.

Definition main : M Counters (option Z) :=
  log (js "Creating agentsh sandbox...") ;;
  lift createAgentshSandbox ;;
  tryFinally runTests
             (log (nl +++ js "Cleaning up sandbox...") ;; call Close ;; ret tt) ;;
  g <- getGlobals ;;
  log (summary g) ;;
  if 0 <? failed g then ret (Some 1%Z) else ret None.

End Tests.

End TestSandboxB.

(* ------------------------------------------------------------------ *)
(** ** Vocabulary for statements about a run of main *)
(* ------------------------------------------------------------------ *)

Module TestRuns.
Import TestSandbox.

(** An action that stops at the first call that is rejected, with the
    error of that call, and resolves only when none was. *)
Definition haltsAtRejection {A} (m : M Counters A) : Prop :=
  forall w s,
  exists added,
    trace (fst (m w s)) = trace s ++ added
    /\ match snd (m w s) with
       | inr _ => rejections added = []
       | inl e => exists before c,
                   added = before ++ [Called c (inl e)]
                   /\ rejections before = []
       end.

(** The line that opens the [finally] block. *)
Definition cleaning : Event := Log (nl +++ js "Cleaning up sandbox...").

(** A summary line among the events. *)
Definition isSummaryLine (ev : Event) : bool :=
  match ev with
  | Log line => startsWith (nl +++ js "Results: ") line
  | _ => false
  end.

(** What a run of [main] shows, given the run of [createAgentshSandbox]
    it starts with. The events are those of the provisioning, then those
    of the tests, then those of the [finally] block and the summary. The
    counters are the numbers of PASS and FAIL lines of the tests, and a
    FAIL line makes the exit status 1. The run resolves exactly when the
    provisioning resolved and no call of the tests or of the [finally]
    block was rejected; then it ends with the summary line after seven
    verdicts, and the exit status is 0 exactly when no test failed. In
    every other run the exit status is 1 and no summary follows: either
    the provisioning was rejected and nothing more happened, or the
    [finally] block ran and the error is that of [close], if it was
    rejected, and else that of the test command that was. *)
Definition summarised (booted : State unit * (Err + jsstring))
           (run : State Counters * (Err + option Z)) : Prop :=
  let g := globals (fst run) in
  let code := exitCode (snd run) in
  exists tests after,
    trace (fst run) = trace (fst booted) ++ tests ++ after
    /\ passed g = countPass tests
    /\ failed g = countFail tests
    /\ (0 < countFail tests -> code = 1%Z)
    /\ (code = 0%Z \/ code = 1%Z)
    /\ ((exists status, snd run = inr status)
        <-> (exists sandbox, snd booted = inr sandbox)
            /\ rejections (tests ++ after) = [])
    /\ match snd run with
       | inr _ =>
         (exists closed,
            after = [cleaning; Called Close (inr closed); Log (summary g)])
         /\ passed g + failed g = 7
         /\ (code = 0%Z <-> failed g = 0)
       | inl e =>
         code = 1%Z
         /\ match snd booted with
            | inl e' => e = e' /\ tests = [] /\ after = []
            | inr _ =>
              exists closed,
                after = [cleaning; Called Close closed]
                /\ match closed with
                   | inl e' => e = e'
                   | inr _ => exists before c,
                               tests = before ++ [Called c (inl e)]
                   end
            end
       end.

End TestRuns.

(* ------------------------------------------------------------------ *)
(** ** More sample worlds *)
(* ------------------------------------------------------------------ *)

Module MoreSamples.

(** The world of an installed agent, whose sandbox cannot be closed. *)
Definition stuckWorld : World :=
  {| reply := fun history c =>
       match c with
       | Close => inl (Thrown (js "close failed"))
       | _ => reply Samples.greenWorld history c
       end;
     health := fun _ => true |}.

End MoreSamples.

(* ------------------------------------------------------------------ *)
(** ** Properties of the response classifiers *)
(* ------------------------------------------------------------------ *)

Section StringFacts.

Lemma streq_refl (s : jsstring) : streq s s = true.
Proof.
  induction s as [|c s IH]; simpl; [reflexivity|].
  now rewrite N.eqb_refl, IH.
Qed.

Lemma streq_eq (a b : jsstring) : streq a b = true <-> a = b.
Proof.
  split; [|intros ->; apply streq_refl].
  revert b; induction a as [|x a IH]; intros [|y b]; simpl; try discriminate; auto.
  intros H. apply andb_true_iff in H as [Hx Hab].
  apply N.eqb_eq in Hx. f_equal; auto.
Qed.

Lemma slice0_length (n : nat) (s : jsstring) : List.length (slice0 n s) <= n.
Proof. unfold slice0. apply firstn_le_length. Qed.

Lemma slice0_prefix (n : nat) (s : jsstring) :
  exists rest, s = slice0 n s ++ rest.
Proof. exists (skipn n s). unfold slice0. now rewrite firstn_skipn. Qed.

End StringFacts.

Module DemoNetworkFacts.
Import DemoNetwork.

Lemma denialShape_false (json : ExecResponse) :
  denialShape json = false <->
  policyDenied json = false /\ blockedOps json = [] /\ guidanceBlocked json = false.
Proof.
  unfold denialShape.
  destruct (policyDenied json), (blockedOps json), (guidanceBlocked json);
    simpl; intuition congruence.
Qed.

(** Whatever follows the label, the category of a line is its label. *)
Lemma category_blocked (rest : jsstring) :
  category_of_log (indent +++ js "BLOCKED" +++ rest) = Some BLOCKED.
Proof. reflexivity. Qed.

Lemma category_allowed (rest : jsstring) :
  category_of_log (indent +++ js "ALLOWED" +++ rest) = Some ALLOWED.
Proof. reflexivity. Qed.

Lemma category_error (rest : jsstring) :
  category_of_log (indent +++ js "ERROR" +++ rest) = Some ERROR.
Proof. reflexivity. Qed.

Lemma classify_denied (output : jsstring) (json : ExecResponse) :
  policyDenied json = true ->
  classify output json =
  {| logged := indent +++ js "BLOCKED by policy rule: "
               +++ (result json ?. error ?. policy_rule ?? js "unknown");
     returned := {| allowed := false; output := output |} |}.
Proof. intros H. unfold classify. now rewrite H. Qed.

Lemma classify_blockedOps (output : jsstring) (json : ExecResponse)
      (first : BlockedOp) (others : list BlockedOp) :
  policyDenied json = false ->
  blockedOps json = first :: others ->
  classify output json =
  {| logged := indent +++ js "BLOCKED by network policy: "
               +++ (policy first ?. rule ?? js "unknown")
               +++ (if truthy (policy first ?. policy_message ?? [])
                    then js " " +++ [emDash] +++ js " "
                         +++ (policy first ?. policy_message ?? [])
                    else []);
     returned := {| allowed := false; output := output |} |}.
Proof. intros H1 H2. unfold classify. now rewrite H1, H2. Qed.

Lemma classify_guidance (output : jsstring) (json : ExecResponse) :
  policyDenied json = false ->
  blockedOps json = [] ->
  guidanceBlocked json = true ->
  classify output json =
  {| logged := indent +++ js "BLOCKED: "
               +++ (guidance json ?. guidance_policy_rule ?? js "unknown")
               +++ (if truthy (guidance json ?. reason ?? [])
                    then js " " +++ [emDash] +++ js " "
                         +++ (guidance json ?. reason ?? [])
                    else []);
     returned := {| allowed := false; output := output |} |}.
Proof. intros H1 H2 H3. unfold classify. now rewrite H1, H2, H3. Qed.

Lemma classify_success (output : jsstring) (json : ExecResponse) :
  denialShape json = false ->
  isNumber (result json ?. exit_code) 0 = true ->
  classify output json =
  {| logged := indent +++ js "ALLOWED (exit 0): "
               +++ escapeNewlines (slice0 150
                     ((result json ?. Wire.stdout ?. (fun s => Some (trim s))) ?? []));
     returned := {| allowed := true;
                    output := (result json ?. Wire.stdout
                                 ?. (fun s => Some (trim s))) ?? [] |} |}.
Proof.
  intros H H4. apply denialShape_false in H as (H1 & H2 & H3).
  unfold classify. now rewrite H1, H2, H3, H4.
Qed.

Lemma classify_failure (output : jsstring) (json : ExecResponse) :
  denialShape json = false ->
  isNumber (result json ?. exit_code) 0 = false ->
  classify output json =
  {| logged := indent +++ js "BLOCKED (network-level, exit "
               +++ showZ (result json ?. exit_code ?? (-1)%Z) +++ js "): "
               +++ orElse (slice0 100
                     ((result json ?. Wire.stderr ?. (fun s => Some (trim s))) ?? []))
                     (js "connection failed");
     returned := {| allowed := false; output := output |} |}.
Proof.
  intros H H4. apply denialShape_false in H as (H1 & H2 & H3).
  unfold classify. now rewrite H1, H2, H3, H4.
Qed.

(** A denial shape is never reported as allowed, whatever else the
    payload holds. *)
Lemma classify_denial_blocked (output : jsstring) (json : ExecResponse) :
  denialShape json = true ->
  category (classify output json) = Some BLOCKED
  /\ allowed (returned (classify output json)) = false.
Proof.
  intros H. unfold denialShape in H.
  destruct (policyDenied json) eqn:H1.
  { rewrite classify_denied by assumption. split; reflexivity. }
  destruct (blockedOps json) as [|first others] eqn:H2.
  - simpl in H. rewrite classify_guidance by assumption.
    split; reflexivity.
  - rewrite (classify_blockedOps _ _ H1 H2). split; reflexivity.
Qed.

End DemoNetworkFacts.

Section ClassifierClaims.
Import DemoNetwork DemoNetworkFacts.

(** C1. The checks of [runAgentsh] are applied in a fixed order and the
    first that matches decides: the explicit denial code, then a non-empty
    blocked-operations list, then a guidance-level block, then success on
    exit code 0. In particular a response with both a non-empty
    blocked-operations list and exit code 0 is BLOCKED, not ALLOWED. *)
Theorem runAgentsh_priority_order
        (JSON_parse : jsstring -> option ExecResponse)
        (output : jsstring) (json : ExecResponse) :
  JSON_parse (trim output) = Some json ->
  let r := runAgentsh JSON_parse (Some output) in
  (policyDenied json = true ->
     category r = Some BLOCKED
     /\ logged r = indent +++ js "BLOCKED by policy rule: "
                   +++ (result json ?. error ?. policy_rule ?? js "unknown"))
  /\ (policyDenied json = false ->
      forall first others, blockedOps json = first :: others ->
     category r = Some BLOCKED
     /\ startsWith (indent +++ js "BLOCKED by network policy: ") (logged r) = true)
  /\ (policyDenied json = false -> blockedOps json = [] ->
      guidanceBlocked json = true ->
     category r = Some BLOCKED
     /\ startsWith (indent +++ js "BLOCKED: ") (logged r) = true)
  /\ (policyDenied json = false -> blockedOps json = [] ->
      guidanceBlocked json = false ->
      isNumber (result json ?. exit_code) 0 = true ->
     category r = Some ALLOWED
     /\ startsWith (indent +++ js "ALLOWED (exit 0): ") (logged r) = true
     /\ allowed (returned r) = true)
  /\ (blockedOps json <> [] ->
      isNumber (result json ?. exit_code) 0 = true ->
     category r = Some BLOCKED /\ category r <> Some ALLOWED
     /\ allowed (returned r) = false).
Proof.
  intros Hparse r. subst r. unfold runAgentsh. rewrite Hparse.
  repeat split.
  - rewrite classify_denied by assumption. reflexivity.
  - rewrite classify_denied by assumption. reflexivity.
  - rewrite (classify_blockedOps _ _ H H0). reflexivity.
  - rewrite (classify_blockedOps _ _ H H0). reflexivity.
  - rewrite classify_guidance by assumption. reflexivity.
  - rewrite classify_guidance by assumption. reflexivity.
  - rewrite classify_success; [reflexivity| |assumption].
    now apply denialShape_false.
  - rewrite classify_success; [reflexivity| |assumption].
    now apply denialShape_false.
  - rewrite classify_success; [reflexivity| |assumption].
    now apply denialShape_false.
  - apply classify_denial_blocked. unfold denialShape.
    destruct (blockedOps json); [congruence|].
    now rewrite orb_true_r.
  - assert (Hb : category (classify output json) = Some BLOCKED).
    { apply classify_denial_blocked. unfold denialShape.
      destruct (blockedOps json); [congruence|]. now rewrite orb_true_r. }
    rewrite Hb. discriminate.
  - apply classify_denial_blocked. unfold denialShape.
    destruct (blockedOps json); [congruence|].
    now rewrite orb_true_r.
Qed.

(** The audited success of the samples is reported as blocked. *)
Lemma runAgentsh_priority_order_witness :
  let r := runAgentsh (Samples.parseOnly Samples.auditedSuccessText
                                         Samples.auditedSuccess)
                      (Some Samples.auditedSuccessText) in
  category r = Some BLOCKED /\ category r <> Some ALLOWED
  /\ allowed (returned r) = false.
Proof.
  apply (runAgentsh_priority_order
           (Samples.parseOnly Samples.auditedSuccessText Samples.auditedSuccess)
           Samples.auditedSuccessText (json := Samples.auditedSuccess)).
  - reflexivity.
  - discriminate.
  - reflexivity.
Defined.

(** C2, as the specification words it, fails twice. A response with none
    of the three denial shapes and a non-zero exit code is not reported as
    ERROR: the script labels it BLOCKED (network-level). And on exit code
    0 only stdout is handed on: neither the returned value nor the logged
    line carries the stderr of the response. *)
Lemma runAgentsh_nonzero_exit_is_not_error :
  let refused := runAgentsh (Samples.parseOnly (trim Samples.curlRefusedText)
                                               Samples.curlRefused)
                            (Some Samples.curlRefusedText) in
  let hello := classify (js "raw") Samples.echoHello in
  (denialShape Samples.curlRefused = false
   /\ isNumber (result Samples.curlRefused ?. exit_code) 0 = false
   /\ category refused = Some BLOCKED
   /\ category refused <> Some ERROR
   /\ allowed (returned refused) = false)
  /\ (denialShape Samples.echoHello = false
      /\ result Samples.echoHello ?. Wire.stderr = Some (js " warn ")
      /\ category hello = Some ALLOWED
      /\ returned hello = {| allowed := true; output := js "Hello" |}
      /\ includes (js "warn") (logged hello) = false).
Proof. repeat split; try reflexivity. discriminate. Qed.

(** C2, amended. For every response with none of the three denial
    shapes, a missing or unparseable one included, the outcome is ALLOWED
    exactly when the response is parsed and its result carries exit code
    0, and then the returned output is stdout trimmed of surrounding
    whitespace (the result has no stderr member). Any other such response
    is never ALLOWED. A missing or unparseable response is an ERROR. A
    parsed response whose exit code is absent or not 0 is reported as
    BLOCKED at network level and the raw text is returned; the line
    names the exit code (-1 when absent), in decimal digits for a safe
    integer, and the first 100 code units of the trimmed stderr, or
    "connection failed". *)
Theorem runAgentsh_allowed_iff_exit_zero
        (JSON_parse : jsstring -> option ExecResponse)
        (response : option jsstring) :
  denied JSON_parse response = false ->
  let r := runAgentsh JSON_parse response in
  let trimmed (json : ExecResponse) (field : Result -> option jsstring) :=
    (result json ?. field ?. (fun s => Some (trim s))) ?? [] in
  (category r = Some ALLOWED <-> exitsZero JSON_parse response = true)
  /\ (allowed (returned r) = true <-> exitsZero JSON_parse response = true)
  /\ (forall json,
        parsed JSON_parse response = Some json ->
        isNumber (result json ?. exit_code) 0 = true ->
        DemoNetwork.output (returned r) = trimmed json Wire.stdout)
  /\ (parsed JSON_parse response = None ->
      category r = Some ERROR /\ allowed (returned r) = false)
  /\ (forall output json,
        response = Some output ->
        JSON_parse (trim output) = Some json ->
        isNumber (result json ?. exit_code) 0 = false ->
        let exitCode := result json ?. exit_code ?? (-1)%Z in
        let reason := orElse (slice0 100 (trimmed json Wire.stderr))
                             (js "connection failed") in
        category r = Some BLOCKED
        /\ allowed (returned r) = false
        /\ DemoNetwork.output (returned r) = output
        /\ startsWith (indent +++ js "BLOCKED (network-level, exit ")
                      (logged r) = true
        /\ (isSafeInteger exitCode = true ->
            logged r = indent +++ js "BLOCKED (network-level, exit "
                       +++ showZ exitCode +++ js "): " +++ reason)).
Proof.
  intros Hshape r trimmed. subst r trimmed.
  unfold denied, exitsZero, parsed in *.
  assert (Herror : forall rest returned,
             let r := {| logged := indent +++ js "ERROR" +++ rest;
                         returned := returned |} in
             category r = Some ALLOWED -> false = true).
  { intros rest returned r H. subst r. unfold category in H. cbn [logged] in H.
    rewrite category_error in H. discriminate. }
  destruct response as [output|]; cbn [chain runAgentsh] in *.
  2:{ split; [split; [apply (Herror (js ": no response from API"))|discriminate]|].
      split; [split; discriminate|]. split; [discriminate|].
      split; [intros _; split; reflexivity|discriminate]. }
  destruct (JSON_parse (trim output)) as [json|] eqn:Hparse.
  2:{ split; [split; [apply (Herror (js ": failed to parse response: "
                                       +++ slice0 200 output))
                     |discriminate]|].
      split; [split; discriminate|]. split; [discriminate|].
      split; [intros _; split; reflexivity|].
      intros output' json' [= <-] Hparse'. congruence. }
  destruct (isNumber (result json ?. exit_code) 0) eqn:Hexit.
  - rewrite classify_success by assumption.
    split; [split; reflexivity|]. split; [split; reflexivity|].
    split; [intros json' [= <-] _; reflexivity|].
    split; [discriminate|].
    intros output' json' [= <-] Hparse' Hexit'.
    rewrite Hparse in Hparse'. injection Hparse' as <-. congruence.
  - rewrite classify_failure by assumption.
    split; [split; discriminate|]. split; [split; discriminate|].
    split; [intros json' [= <-] Hexit'; congruence|].
    split; [discriminate|].
    intros output' json' [= <-] Hparse' _.
    rewrite Hparse in Hparse'. injection Hparse' as <-.
    repeat split; intros; reflexivity.
Qed.

(** The refused curl of the samples: BLOCKED at network level, exit 7. *)
Lemma runAgentsh_allowed_iff_exit_zero_witness :
  let r := runAgentsh (Samples.parseOnly (trim Samples.curlRefusedText)
                                         Samples.curlRefused)
                      (Some Samples.curlRefusedText) in
  category r <> Some ALLOWED
  /\ category r = Some BLOCKED
  /\ allowed (returned r) = false
  /\ DemoNetwork.output (returned r) = Samples.curlRefusedText
  /\ logged r = indent +++ js "BLOCKED (network-level, exit 7): curl: (7) refused".
Proof.
  pose proof (@runAgentsh_allowed_iff_exit_zero
                (Samples.parseOnly (trim Samples.curlRefusedText)
                                   Samples.curlRefused)
                (Some Samples.curlRefusedText) eq_refl)
    as (Hiff & _ & _ & _ & Hblocked).
  destruct (Hblocked Samples.curlRefusedText Samples.curlRefused
              eq_refl eq_refl eq_refl)
    as (Hcat & Hallowed & Hout & _ & Hline).
  split; [intros H; apply Hiff in H; discriminate|].
  split; [exact Hcat|]. split; [exact Hallowed|]. split; [exact Hout|].
  exact (Hline eq_refl).
Defined.

(** C3. When the exchange produced no response file the outcome is ERROR
    with the reason "no response from API", which is not the parse-failure
    reason, and no response text, parsed or not, is ever given the
    no-response reason; a response that is present but cannot be parsed is
    ERROR with a parse reason that carries the first 200 code units of the
    raw text. *)
Theorem runAgentsh_no_response_vs_parse_failure
        (JSON_parse : jsstring -> option ExecResponse) :
  let noResponse := indent +++ js "ERROR: " +++ js "no response from API" in
  (category (runAgentsh JSON_parse None) = Some ERROR
   /\ logged (runAgentsh JSON_parse None) = noResponse
   /\ returned (runAgentsh JSON_parse None) = {| allowed := false; output := [] |}
   /\ startsWith (indent +++ js "ERROR: failed to parse response: ")
                 (logged (runAgentsh JSON_parse None)) = false)
  /\ (forall output, logged (runAgentsh JSON_parse (Some output)) <> noResponse)
  /\ (forall output, JSON_parse (trim output) = None ->
        let r := runAgentsh JSON_parse (Some output) in
        category r = Some ERROR
        /\ logged r = indent +++ js "ERROR: " +++ js "failed to parse response: "
                      +++ slice0 200 output
        /\ List.length (slice0 200 output) <= 200
        /\ (exists rest, output = slice0 200 output ++ rest)
        /\ returned r = {| allowed := false; output := output |}).
Proof.
  intros noResponse. subst noResponse. split; [|split].
  - repeat split.
  - intros output. unfold runAgentsh.
    destruct (JSON_parse (trim output)) as [json|]; [|discriminate].
    unfold classify.
    destruct (policyDenied json); [discriminate|].
    destruct (blockedOps json); [|discriminate].
    destruct (guidanceBlocked json); [discriminate|].
    destruct (isNumber _ 0); discriminate.
  - intros output Hparse r. subst r. unfold runAgentsh. rewrite Hparse.
    repeat split.
    + apply slice0_length.
    + apply slice0_prefix.
Qed.

(** A gateway page instead of JSON: a parse failure, not a missing
    response. *)
Lemma runAgentsh_no_response_vs_parse_failure_witness :
  let parse := Samples.parseOnly Samples.auditedSuccessText Samples.auditedSuccess in
  let r := runAgentsh parse (Some Samples.badGatewayText) in
  category r = Some ERROR
  /\ logged r = indent +++ js "ERROR: " +++ js "failed to parse response: "
                +++ slice0 200 Samples.badGatewayText
  /\ List.length (slice0 200 Samples.badGatewayText) <= 200
  /\ (exists rest, Samples.badGatewayText = slice0 200 Samples.badGatewayText ++ rest)
  /\ returned r = {| allowed := false; output := Samples.badGatewayText |}.
Proof.
  apply (runAgentsh_no_response_vs_parse_failure
           (Samples.parseOnly Samples.auditedSuccessText Samples.auditedSuccess)).
  reflexivity.
Defined.

(** C4. A block through the explicit denial code names the embedded rule,
    or "unknown" when the response carries none; a block through the
    blocked-operations list names the rule and the message of the first
    record of the list, with "unknown" and the empty message when the
    record carries none. *)
Theorem runAgentsh_blocked_rule_and_reason
        (JSON_parse : jsstring -> option ExecResponse)
        (output : jsstring) (json : ExecResponse) :
  JSON_parse (trim output) = Some json ->
  let r := runAgentsh JSON_parse (Some output) in
  (policyDenied json = true ->
     forall ruleId,
       ruleId = match result json ?. error ?. policy_rule with
                | Some id => id
                | None => js "unknown"
                end ->
       category r = Some BLOCKED
       /\ logged r = indent +++ js "BLOCKED by policy rule: " +++ ruleId)
  /\ (policyDenied json = false ->
      forall first others, blockedOps json = first :: others ->
      forall ruleId reason,
       ruleId = match policy first ?. rule with
                | Some id => id
                | None => js "unknown"
                end ->
       reason = match policy first ?. policy_message with
                | Some msg => msg
                | None => []
                end ->
       category r = Some BLOCKED
       /\ logged r = indent +++ js "BLOCKED by network policy: " +++ ruleId
                     +++ match reason with
                         | [] => []
                         | _ :: _ => js " " +++ [emDash] +++ js " " +++ reason
                         end).
Proof.
  intros Hparse r. subst r. unfold runAgentsh. rewrite Hparse. split.
  - intros Hdenied ruleId ->.
    rewrite classify_denied by assumption. split; reflexivity.
  - intros Hdenied first others Hops ruleId reason -> ->.
    rewrite (classify_blockedOps _ _ Hdenied Hops). split; [reflexivity|].
    simpl. unfold nullish.
    destruct (policy first ?. policy_message) as [[|c msg]|]; reflexivity.
Qed.

(** The samples: a denial that names block-sudo, and an audit record
    that names deny-metadata with its message. *)
Lemma runAgentsh_blocked_rule_and_reason_witness :
  logged (runAgentsh (Samples.parseOnly (js "denied") Samples.sudoDenied)
                     (Some (js " denied ")))
  = indent +++ js "BLOCKED by policy rule: " +++ js "block-sudo"
  /\ logged (runAgentsh (Samples.parseOnly Samples.auditedSuccessText
                                            Samples.auditedSuccess)
                        (Some Samples.auditedSuccessText))
     = indent +++ js "BLOCKED by network policy: " +++ js "deny-metadata"
       +++ js " " +++ [emDash] +++ js " " +++ js "cloud metadata".
Proof.
  split.
  - apply (proj1 (runAgentsh_blocked_rule_and_reason
                    (Samples.parseOnly (js "denied") Samples.sudoDenied)
                    (js " denied ") (json := Samples.sudoDenied) eq_refl)
                 eq_refl (js "block-sudo") eq_refl).
  - apply (proj2 (runAgentsh_blocked_rule_and_reason
                    (Samples.parseOnly Samples.auditedSuccessText
                                       Samples.auditedSuccess)
                    Samples.auditedSuccessText (json := Samples.auditedSuccess)
                    eq_refl)
                 eq_refl Samples.metadataOp [] eq_refl
                 (js "deny-metadata") (js "cloud metadata") eq_refl eq_refl).
Defined.

End ClassifierClaims.

Section DetectSandboxClaims.
Import DetectSandbox.

(** C9. The blocked flag of [execViaApi] is true exactly when a response
    was parsed that carries the denial code E_POLICY_DENIED, or a guidance
    object whose blocked member is true or whose status is "blocked". A
    response whose only denial signal is a non-empty
    events.blocked_operations list gets blocked = false (where
    [runAgentsh] of demo-network.ts reports the same response as
    BLOCKED). *)
Theorem execViaApi_blocked_iff
        (JSON_parse : jsstring -> option ExecResponse)
        (response : option jsstring) :
  (blocked (execViaApi JSON_parse response) = true <->
   exists output json,
     response = Some output
     /\ JSON_parse (trim output) = Some json
     /\ (isString (result json ?. error ?. code) (js "E_POLICY_DENIED") = true
         \/ isTrue (guidance json ?. Wire.blocked) = true
         \/ isString (guidance json ?. status) (js "blocked") = true))
  /\ (forall output json,
        response = Some output ->
        JSON_parse (trim output) = Some json ->
        DemoNetwork.policyDenied json = false ->
        DemoNetwork.guidanceBlocked json = false ->
        DemoNetwork.blockedOps json <> [] ->
        blocked (execViaApi JSON_parse response) = false
        /\ DemoNetwork.category
             (DemoNetwork.runAgentsh JSON_parse response) = Some BLOCKED).
Proof.
  split.
  - split.
    + destruct response as [output|]; simpl; [|discriminate].
      destruct (JSON_parse (trim output)) as [json|] eqn:Hparse;
        [|discriminate].
      unfold classify. intros H. exists output, json.
      split; [reflexivity|]. split; [assumption|].
      destruct (isString (result json ?. error ?. code) _); [now left|].
      destruct (isTrue (guidance json ?. Wire.blocked)); [now right; left|].
      destruct (isString (guidance json ?. status) _); [now right; right|].
      discriminate.
    + intros (output & json & -> & Hparse & H). simpl. rewrite Hparse.
      unfold classify.
      destruct (isString (result json ?. error ?. code) _); [reflexivity|].
      destruct H as [H|[H|H]]; [discriminate| |]; rewrite H;
        [|rewrite orb_true_r]; reflexivity.
  - intros output json -> Hparse Hdenied Hguidance Hops. simpl.
    rewrite Hparse. split.
    + unfold classify. unfold DemoNetwork.policyDenied in Hdenied.
      unfold DemoNetwork.guidanceBlocked in Hguidance.
      now rewrite Hdenied, Hguidance.
    + apply DemoNetworkFacts.classify_denial_blocked.
      unfold DemoNetwork.denialShape.
      destruct (DemoNetwork.blockedOps json); [congruence|].
      now rewrite orb_true_r.
Qed.

(** The audit-only sample: not blocked for [execViaApi], BLOCKED for
    [runAgentsh]. *)
Lemma execViaApi_blocked_iff_witness :
  let parse := Samples.parseOnly (js "audit") Samples.auditedOnly in
  blocked (execViaApi parse (Some (js "audit"))) = false
  /\ DemoNetwork.category
       (DemoNetwork.runAgentsh parse (Some (js "audit"))) = Some BLOCKED.
Proof.
  apply (proj2 (execViaApi_blocked_iff
                  (Samples.parseOnly (js "audit") Samples.auditedOnly)
                  (Some (js "audit")))
               (js "audit") Samples.auditedOnly eq_refl eq_refl eq_refl eq_refl).
  discriminate.
Defined.

End DetectSandboxClaims.

(* ------------------------------------------------------------------ *)
(** ** Properties of the bootstrap *)
(* ------------------------------------------------------------------ *)

Module EffectFacts.

Lemma teardowns_app (a b : list Event) :
  teardowns (a ++ b) = teardowns a + teardowns b.
Proof.
  induction a as [|ev a IH]; simpl; [reflexivity|].
  destruct ev as [c r| | |]; try assumption.
  destruct c; simpl; auto.
Qed.

Lemma rejections_app (a b : list Event) :
  rejections (a ++ b) = rejections a ++ rejections b.
Proof.
  induction a as [|ev a IH]; simpl; [reflexivity|].
  destruct ev as [c [e|t]| | |]; simpl; try assumption.
  now rewrite IH.
Qed.

Lemma clean_nil : clean [].
Proof. split; reflexivity. Qed.

Lemma clean_app (a b : list Event) : clean a -> clean b -> clean (a ++ b).
Proof.
  intros [Ha1 Ha2] [Hb1 Hb2]. split.
  - rewrite teardowns_app. lia.
  - rewrite rejections_app, Ha2, Hb2. reflexivity.
Qed.

Lemma clean_resolved (c : Call) (t : jsstring) :
  c <> Close -> clean [Called c (inr t)].
Proof. intros H1. split; [|reflexivity]. destruct c; simpl; congruence. Qed.

Section Rules.

Context {G : Type}.

Lemma stepwise_ret {A} (a : A) : stepwise (G := G) (ret a).
Proof.
  intros w s. exists []. simpl. rewrite app_nil_r.
  repeat split.
Qed.

Lemma stepwise_emit (ev : Event) :
  clean [ev] -> stepwise (G := G) (emit ev).
Proof. intros H w s. exists [ev]. simpl. repeat split; apply H. Qed.

Lemma stepwise_log (line : jsstring) : stepwise (G := G) (log line).
Proof. apply stepwise_emit. split; reflexivity. Qed.

Lemma stepwise_spawn (cmd : jsstring) (sudo : bool) :
  stepwise (G := G) (spawn cmd sudo).
Proof. apply stepwise_emit. split; reflexivity. Qed.

Lemma stepwise_call (c : Call) :
  c <> Close -> stepwise (G := G) (call c).
Proof.
  intros H1 w s. unfold call. simpl.
  exists [Called c (reply w (trace s) c)].
  split; [reflexivity|]. split; [reflexivity|].
  destruct (reply w (trace s) c) as [e|t].
  - exists [], c. repeat split; assumption.
  - now apply clean_resolved.
Qed.

Lemma stepwise_waitUntilReady : stepwise (G := G) waitUntilReady.
Proof.
  intros w s. unfold waitUntilReady. simpl.
  exists [Called (Sh waitCommand) (awaited (waitForServer (health w)))].
  split; [reflexivity|]. split; [reflexivity|].
  destruct (awaited (waitForServer (health w))) as [e|t].
  - exists [], (Sh waitCommand). repeat split; discriminate.
  - apply clean_resolved; discriminate.
Qed.

Lemma stepwise_bind {A B} (m : M G A) (k : A -> M G B) :
  stepwise m -> (forall a, stepwise (k a)) -> stepwise (bind m k).
Proof.
  intros Hm Hk w s. unfold bind.
  destruct (Hm w s) as (added1 & Ht1 & Hg1 & Hr1).
  destruct (m w s) as [s1 [e|a]]; simpl in *.
  - exists added1. repeat split; assumption.
  - destruct (Hk a w s1) as (added2 & Ht2 & Hg2 & Hr2).
    exists (added1 ++ added2).
    rewrite Ht2, Ht1, Hg2, Hg1, app_assoc.
    split; [reflexivity|]. split; [reflexivity|].
    destruct (snd (k a w s1)) as [e|b].
    + destruct Hr2 as (before & c & -> & Hclean & Hc).
      exists (added1 ++ before), c. rewrite app_assoc.
      split; [reflexivity|]. split; [|exact Hc].
      now apply clean_app.
    + now apply clean_app.
Qed.

Lemma stepwise_setEnvVars (entries : list (jsstring * jsstring)) :
  stepwise (G := G) (SetupC.setEnvVars entries).
Proof.
  induction entries as [|[key value] rest IH]; simpl.
  - apply stepwise_ret.
  - apply stepwise_bind; [apply stepwise_call; discriminate|].
    intros _. exact IH.
Qed.

End Rules.

Create HintDb stepwise.

#[export] Hint Resolve stepwise_ret stepwise_log stepwise_spawn
  stepwise_waitUntilReady stepwise_setEnvVars : stepwise.

(** Decompose a sequence of steps into its calls. *)
Ltac stepwise :=
  repeat first
    [ apply stepwise_bind; [|intros ?]
    | apply stepwise_call; discriminate
    | solve [auto with stepwise] ].

Lemma stepwise_bootstrapA {G} (repo arch sandbox : jsstring) :
  stepwise (G := G) (SetupA.bootstrap repo arch sandbox).
Proof. unfold SetupA.bootstrap, SetupA.writeFileToSandbox. stepwise. Qed.

Lemma stepwise_bootstrapC {G} (opts : option AgentshSandboxOptions)
      (repo arch workspace sandbox : jsstring) :
  stepwise (G := G) (SetupC.bootstrap opts repo arch workspace sandbox).
Proof.
  unfold SetupC.bootstrap, SetupC.writeFileToSandbox. stepwise.
  destruct (opts ?. envVars); auto with stepwise.
Qed.

End EffectFacts.

Section TeardownOnFailure.
Import EffectFacts.

Context {G : Type}.

(** What the catch clause makes of a body that proceeds call by call. *)
Lemma tryCatch_cleanup (body : M G jsstring) (w : World) (s : State G) :
  stepwise body ->
  let run := tryCatch body cleanup w s in
  exists added,
    trace (fst run) = trace s ++ added
    /\ match snd run with
       | inr _ => clean added
       | inl e =>
         exists before c,
           added = before
                   ++ [Called c (inl e);
                       LogError (js "Bootstrap failed, cleaning up sandbox...");
                       Called Close
                         (reply w (trace s ++ before
                                   ++ [Called c (inl e);
                                       LogError (js "Bootstrap failed, cleaning up sandbox...")])
                                Close)]
           /\ clean before /\ c <> Close
       end.
Proof.
  intros Hbody run. subst run. unfold tryCatch.
  destruct (Hbody w s) as (added & Ht & _ & Hr).
  destruct (body w s) as [s1 [e|sandbox]]; cbn [fst snd] in *.
  - destruct Hr as (before & c & -> & Hclean & Hc).
    unfold cleanup, bind, logError, emit, swallow, tryCatch, bind, call, ret, throw.
    cbn [trace globals fst snd]. rewrite Ht.
    set (bang := LogError _).
    replace ((trace s ++ before ++ [Called c (inl e)]) ++ [bang])
      with (trace s ++ before ++ [Called c (inl e); bang])
      by now rewrite <- !app_assoc.
    remember (reply w _ Close) as closed eqn:Hclosed.
    exists (before ++ [Called c (inl e); bang; Called Close closed]).
    split.
    + destruct closed; cbn [trace fst snd]; now rewrite <- !app_assoc.
    + destruct closed; cbn [trace fst snd]; exists before, c;
        rewrite <- Hclosed;
        (split; [reflexivity|]); (split; [exact Hclean|exact Hc]).
  - exists added. split; assumption.
Qed.

End TeardownOnFailure.

Section BootstrapShape.
Import EffectFacts.

Lemma returns_bind {G A B} (v : B) (m : M G A) (k : A -> M G B) :
  (forall a, returns v (k a)) -> returns v (bind m k).
Proof.
  intros Hk w s b. unfold bind.
  destruct (m w s) as [s1 [e|a]]; simpl; [discriminate|]. apply Hk.
Qed.

Lemma returns_ret {G A} (v : A) : returns (G := G) v (ret v).
Proof. intros w s a. simpl. congruence. Qed.

Lemma returns_bootstrapA {G} (repo arch sandbox : jsstring) :
  returns (G := G) sandbox (SetupA.bootstrap repo arch sandbox).
Proof.
  unfold SetupA.bootstrap.
  repeat (apply returns_bind; intros ?). apply returns_ret.
Qed.

Lemma returns_bootstrapC {G} (opts : option AgentshSandboxOptions)
      (repo arch workspace sandbox : jsstring) :
  returns (G := G) sandbox (SetupC.bootstrap opts repo arch workspace sandbox).
Proof.
  unfold SetupC.bootstrap.
  repeat (apply returns_bind; intros ?). apply returns_ret.
Qed.

(** Acquire, then bootstrap under the catch clause. *)
Lemma provision_shape (w : World) (net : AllowNet) (sandbox : jsstring)
      (body : jsstring -> M unit jsstring) :
  (forall sb, stepwise (body sb)) ->
  (forall sb, returns sb (body sb)) ->
  reply w [] (SandboxCreate net) = inr sandbox ->
  tornDownOnFailure w sandbox
    ((created <- call (SandboxCreate net) ;;
      log (js "Sandbox created: " +++ created) ;;
      tryCatch (body created) cleanup) w fresh).
Proof.
  intros Hstep Hret Hcreate.
  unfold bind at 1. unfold call at 1. cbn [trace globals fresh].
  rewrite Hcreate. cbn [app].
  unfold bind, log, emit. cbn [trace globals app].
  set (s1 := {| trace := _; globals := tt |}).
  assert (Hs1 : clean (trace s1)) by (split; reflexivity).
  pose proof (tryCatch_cleanup w s1 (Hstep sandbox)) as Hcatch.
  cbv zeta in Hcatch. destruct Hcatch as (added & Ht & Hr).
  pose proof (Hret sandbox w s1) as Hsb.
  unfold tryCatch in *.
  destruct (body sandbox w s1) as [s2 [e|sb]]; cbn [fst snd] in Ht, Hr.
  - assert (Hsnd : snd (cleanup (A := jsstring) e w s2) = inl e).
    { unfold cleanup, bind, logError, emit, swallow, tryCatch, bind, call, ret, throw.
      cbn [trace globals fst snd].
      destruct (reply w _ Close); reflexivity. }
    rewrite Hsnd in Hr.
    destruct Hr as (before & c & -> & Hclean & Hc1).
    assert (Hshape :
      trace (fst (cleanup (A := jsstring) e w s2))
      = ((trace s1 ++ before)
         ++ [Called c (inl e);
             LogError (js "Bootstrap failed, cleaning up sandbox...")])
        ++ [Called Close
              (reply w ((trace s1 ++ before)
                        ++ [Called c (inl e);
                            LogError (js "Bootstrap failed, cleaning up sandbox...")])
                     Close)]).
    { rewrite Ht. rewrite <- !app_assoc. reflexivity. }
    assert (Hbefore : clean (trace s1 ++ before)) by now apply clean_app.
    split; [|split].
    + intros e0 He0. rewrite Hsnd in He0. injection He0 as <-.
      exists (trace s1 ++ before), c. cbv zeta.
      split; [exact Hshape|]. split; [exact Hbefore|].
      split; [exact Hc1|].
      rewrite Hshape, teardowns_app, teardowns_app. destruct Hbefore as [-> _].
      destruct c; try congruence; reflexivity.
    + intros sb Hsb'. rewrite Hsnd in Hsb'. discriminate.
    + intros c0 e0 Hin Hc0. rewrite Hsnd.
      rewrite Hshape, rejections_app, rejections_app in Hin.
      destruct Hbefore as [_ Hrej]. rewrite Hrej in Hin.
      cbn [app rejections] in Hin.
      destruct Hin as [Hin|Hin]; [congruence|].
      destruct (reply w _ Close); cbn [rejections] in Hin;
        [destruct Hin as [Hin|[]]; congruence|destruct Hin].
  - cbn [fst snd] in *. split; [|split].
    + discriminate.
    + intros sb0 [= <-]. split; [now apply Hsb|].
      cbn [fst]. rewrite Ht. now apply clean_app.
    + intros c0 e0 Hin _. exfalso.
      assert (Hall : clean (trace s2)) by (rewrite Ht; now apply clean_app).
      destruct Hall as [_ Hrej]. cbn [fst] in Hin. rewrite Hrej in Hin.
      destruct Hin.
Qed.

End BootstrapShape.

Section BootstrapClaims.
Import EffectFacts.

(** C7. Once the instance is acquired, a bootstrap step that fails makes
    [createAgentshSandbox] (first and third revision) log the failure and
    call [close] exactly once before it rejects; whatever [close] answers,
    an error included, is dropped, and the run rejects with the error of the
    step that failed. A run that resolves has torn nothing down. *)
Theorem createAgentshSandbox_teardown_on_failure
        (opts : option AgentshSandboxOptions) (w : World) (sandbox : jsstring) :
  reply w [] (SandboxCreate (allowNetOf opts)) = inr sandbox ->
  tornDownOnFailure w sandbox (SetupA.createAgentshSandbox opts w fresh)
  /\ tornDownOnFailure w sandbox (SetupC.createAgentshSandbox opts w fresh).
Proof.
  intros Hcreate. split.
  - apply (provision_shape w (allowNetOf opts)
             (fun sb => SetupA.bootstrap
                          (opts ?. agentshRepo ?? js "erans/agentsh")
                          (opts ?. debArch ?? js "amd64") sb)).
    + intros sb. apply stepwise_bootstrapA.
    + intros sb. apply returns_bootstrapA.
    + exact Hcreate.
  - apply (provision_shape w (allowNetOf opts)
             (fun sb => SetupC.bootstrap opts
                          (opts ?. agentshRepo ?? js "erans/agentsh")
                          (opts ?. debArch ?? js "amd64")
                          (opts ?. workspace ?? js "/app") sb)).
    + intros sb. apply stepwise_bootstrapC.
    + intros sb. apply returns_bootstrapC.
    + exact Hcreate.
Qed.

(** Package repositories out of reach, and a sandbox that refuses to
    close. *)
Lemma createAgentshSandbox_teardown_on_failure_witness :
  tornDownOnFailure Samples.aptDownWorld (js "ok")
    (SetupA.createAgentshSandbox None Samples.aptDownWorld fresh)
  /\ tornDownOnFailure Samples.aptDownWorld (js "ok")
       (SetupC.createAgentshSandbox None Samples.aptDownWorld fresh).
Proof.
  apply (createAgentshSandbox_teardown_on_failure None Samples.aptDownWorld
           (sandbox := js "ok")).
  reflexivity.
Defined.

(** The same run, evaluated: the apt error is what the caller sees, the
    error of [close] is not, and [close] was called once. *)
Example aptDown_run :
  let run := SetupA.createAgentshSandbox None Samples.aptDownWorld fresh in
  snd run = inl (NonZeroExit 100 (js "E: Failed to fetch"))
  /\ teardowns (trace (fst run)) = 1
  /\ rejections (trace (fst run))
     = [(Sh aptCommand, NonZeroExit 100 (js "E: Failed to fetch"));
        (Close, Thrown (js "close failed"))].
Proof. repeat split. Qed.

End BootstrapClaims.

Section SudoersClaim.

(** C5, evaluated on the code. The first revision appends a sudoers line
    whose NOPASSWD scope is the agent executable alone; the third revision
    appends, for the detected user, a line whose scope is ALL. *)
Theorem sudoers_entry_scope :
  nopasswdCommands SetupA.sudoersEntry = Some (js "/usr/bin/agentsh")
  /\ In (Called (Sh SetupA.sudoersCommand) (inr (js "ok")))
        (trace (fst (SetupA.createAgentshSandbox None Samples.userWorld
                       fresh)))
  /\ SetupC.sudoersEntry (js "user") = js "user ALL=(ALL) NOPASSWD: ALL"
  /\ nopasswdCommands (SetupC.sudoersEntry (js "user")) = Some (js "ALL")
  /\ nopasswdCommands (SetupC.sudoersEntry (js "user"))
     <> Some (js "/usr/bin/agentsh")
  /\ In (Called (Sh (SetupC.sudoersCommand (js "user"))) (inr (js "ok")))
        (trace (fst (SetupC.createAgentshSandbox None Samples.userWorld
                       fresh))).
Proof.
  split; [reflexivity|]. split.
  { vm_compute. repeat (try (left; reflexivity); right). }
  split; [reflexivity|]. split; [reflexivity|]. split; [discriminate|].
  vm_compute. repeat (try (left; reflexivity); right).
Qed.

End SudoersClaim.

Section ReadinessLoop.

(** The loop over [seq a n], started with [p] probes made and [sl]
    milliseconds slept: it stops at the first probe that succeeds, or runs
    out of iterations. *)
Lemma waitLoop_spec (curl : nat -> bool) (n : nat) :
  forall (a p : nat) (sl : Z),
    let r := waitLoop curl (seq a n) p sl in
    (exists i, a <= i < a + n
       /\ curl i = true
       /\ (forall j, a <= j < i -> curl j = false)
       /\ exitStatus r = 0%Z
       /\ out r = js "agentsh server ready" +++ [10%N]
       /\ probes r = p + (i - a) + 1
       /\ sleptMs r = (sl + sleepMs * Z.of_nat (i - a))%Z)
    \/ ((forall j, a <= j < a + n -> curl j = false)
        /\ exitStatus r = 1%Z
        /\ errOut r = js "agentsh server failed to start within 15s" +++ [10%N]
        /\ probes r = p + n
        /\ sleptMs r = (sl + sleepMs * Z.of_nat n)%Z).
Proof.
  induction n as [|n IH]; intros a p sl; cbn [seq waitLoop].
  - right. cbn [exitStatus out errOut probes sleptMs]. unfold sleepMs.
    repeat split; try lia.
  - destruct (curl a) eqn:Ha.
    + left. exists a. cbn [exitStatus out errOut probes sleptMs].
      replace (a - a) with 0 by lia. unfold sleepMs.
      repeat split; try assumption; try lia.
    + destruct (IH (S a) (S p) (sl + sleepMs)%Z)
        as [(i & Hi & Hcurl & Hfirst & Hst & Hout & Hp & Hs)
           |(Hnone & Hst & Herr & Hp & Hs)].
      * left. exists i. unfold sleepMs in *.
        repeat split; try assumption; try lia.
        intros j Hj. destruct (Nat.eq_dec j a) as [->|Hne]; [assumption|].
        apply Hfirst. lia.
      * right. unfold sleepMs in *.
        repeat split; try assumption; try lia.
        intros j Hj. destruct (Nat.eq_dec j a) as [->|Hne]; [assumption|].
        apply Hnone. lia.
Qed.

(** C6. The readiness loop probes the health endpoint at most 30 times
    and sleeps 0.5 s after each failed probe, 15 s in all. It exits 0 at
    the first probe that succeeds, having slept less than 15 s; when none
    of the 30 probes succeeds it has slept 15 s, exits 1, and the awaited
    command rejects. It never succeeds once 15 s have been slept. *)
Theorem waitForServer_bounded (curl : nat -> bool) :
  let r := waitForServer curl in
  probes r <= 30
  /\ (0 <= sleptMs r <= 15000)%Z
  /\ ((exists i, 1 <= i <= 30 /\ curl i = true) ->
      exists i, 1 <= i <= 30
        /\ curl i = true
        /\ (forall j, 1 <= j < i -> curl j = false)
        /\ probes r = i
        /\ sleptMs r = (500 * Z.of_nat (i - 1))%Z
        /\ awaited r = inr (js "agentsh server ready" +++ [10%N]))
  /\ ((forall i, 1 <= i <= 30 -> curl i = false) ->
      probes r = 30
      /\ sleptMs r = 15000%Z
      /\ awaited r = inl (NonZeroExit 1
                            (js "agentsh server failed to start within 15s"
                             +++ [10%N])))
  /\ (forall t, awaited r = inr t -> (sleptMs r < 15000)%Z)
  /\ ((15000 <= sleptMs r)%Z -> exists e, awaited r = inl e).
Proof.
  intros r. subst r. unfold waitForServer.
  pose proof (waitLoop_spec curl 30 1 0 0%Z) as H. cbv zeta in H.
  unfold sleepMs in H.
  destruct H as [(i & Hi & Hcurl & Hfirst & Hst & Hout & Hp & Hs)
                |(Hnone & Hst & Herr & Hp & Hs)].
  - assert (Hawait : awaited (waitLoop curl (seq 1 30) 0 0)
                     = inr (js "agentsh server ready" +++ [10%N])).
    { unfold awaited. rewrite Hst, Hout. reflexivity. }
    split; [lia|]. split; [lia|]. split; [|split; [|split]].
    + intros _. exists i. repeat split; try assumption; lia.
    + intros Hall. rewrite Hall in Hcurl by lia. discriminate.
    + intros t _. lia.
    + intros Hlate. exfalso. lia.
  - assert (Hawait : awaited (waitLoop curl (seq 1 30) 0 0)
                     = inl (NonZeroExit 1
                              (js "agentsh server failed to start within 15s"
                               +++ [10%N]))).
    { unfold awaited. rewrite Hst, Herr. reflexivity. }
    split; [lia|]. split; [lia|]. split; [|split; [|split]].
    + intros (i & Hi & Hcurl). rewrite Hnone in Hcurl by lia. discriminate.
    + intros _. repeat split; try assumption; lia.
    + intros t Ht. rewrite Hawait in Ht. discriminate.
    + intros _. eexists. exact Hawait.
Qed.

(** A server that answers from the third probe on: ready after two
    sleeps, one second in all. *)
Lemma waitForServer_bounded_witness :
  exists i, 1 <= i <= 30
    /\ health Samples.calmWorld i = true
    /\ (forall j, 1 <= j < i -> health Samples.calmWorld j = false)
    /\ probes (waitForServer (health Samples.calmWorld)) = i
    /\ sleptMs (waitForServer (health Samples.calmWorld))
       = (500 * Z.of_nat (i - 1))%Z
    /\ awaited (waitForServer (health Samples.calmWorld))
       = inr (js "agentsh server ready" +++ [10%N]).
Proof.
  apply (waitForServer_bounded (health Samples.calmWorld)).
  exists 3. split; [lia|reflexivity].
Defined.

(** The two ends, evaluated. *)
Example waitForServer_runs :
  sleptMs (waitForServer (health Samples.calmWorld)) = 1000%Z
  /\ probes (waitForServer (health Samples.deadServerWorld)) = 30
  /\ sleptMs (waitForServer (health Samples.deadServerWorld)) = 15000%Z
  /\ exitStatus (waitForServer (health Samples.deadServerWorld)) = 1%Z.
Proof. repeat split. Qed.

End ReadinessLoop.

(* ------------------------------------------------------------------ *)
(** ** Properties of the test run *)
(* ------------------------------------------------------------------ *)

Module TallyFacts.
Import TestSandbox.



Lemma tallies_ret {A} (a : A) : tallies 0 (ret a).
Proof.
  intros w s. exists []. cbn. rewrite app_nil_r. repeat split; lia.
Qed.







Section WithParser.

Variable JSON_parse : jsstring -> option (list (jsstring * Unknown)).










End WithParser.

(** The second copy. *)
Section SecondCopy.

Variable JSON_parse : jsstring -> option (list (jsstring * Unknown)).
Variable stdoutOf : jsstring -> option jsstring.



End SecondCopy.

End TallyFacts.

Module HaltFacts.
Import TestSandbox TestRuns EffectFacts.










End HaltFacts.

Section MainClaim.
Import TestSandbox TallyFacts.

Variable JSON_parse : jsstring -> option (list (jsstring * Unknown)).
Variable createAgentshSandbox : M unit jsstring.
Variable w : World.

(** [main], unfolded along its outcomes. *)
Lemma main_unfold :
  main JSON_parse createAgentshSandbox w initial =
  let creating := Log (js "Creating agentsh sandbox...") in
  let cleaning := Log (nl +++ js "Cleaning up sandbox...") in
  match createAgentshSandbox w {| trace := [creating]; globals := tt |} with
  | (s1, inl e) => ({| trace := trace s1; globals := globals initial |}, inl e)
  | (s1, inr _) =>
    match runTests JSON_parse w
            {| trace := trace s1; globals := globals initial |} with
    | (s2, r) =>
      let closed := reply w (trace s2 ++ [cleaning]) Close in
      let s3 := {| trace := (trace s2 ++ [cleaning]) ++ [Called Close closed];
                   globals := globals s2 |} in
      match closed, r with
      | inl e, _ => (s3, inl e)
      | inr _, inl e => (s3, inl e)
      | inr _, inr _ =>
        ({| trace := trace s3 ++ [Log (summary (globals s2))];
            globals := globals s2 |},
         inr (if 0 <? failed (globals s2) then Some 1%Z else None))
      end
    end
  end.
Proof.
  unfold main, bind, lift, tryFinally, log, emit, call, ret, getGlobals.
  cbn [trace globals initial app].
  destruct (createAgentshSandbox w _) as [s1 [e|sandbox]]; [reflexivity|].
  destruct (runTests JSON_parse w _) as [s2 r].
  cbn [trace globals].
  destruct (reply w _ Close) as [e|closed]; [reflexivity|].
  destruct r as [e|[]]; [reflexivity|].
  cbn [trace globals].
  destruct (0 <? failed (globals s2)); reflexivity.
Qed.

End MainClaim.

Section MainOverTests.
Import TestSandbox TestRuns TallyFacts HaltFacts EffectFacts.

Variable tests : M Counters unit.
Variable createAgentshSandbox : M unit jsstring.
Variable w : World.

(** The text of [main], the same in both copies, over the tests of
    either. *)
Local Notation "'program'" :=
  (log (js "Creating agentsh sandbox...") ;;
   lift createAgentshSandbox ;;
   tryFinally tests
              (log (nl +++ js "Cleaning up sandbox...") ;; call Close ;; ret tt) ;;
   g <- getGlobals ;;
   log (summary g) ;;
   if 0 <? failed g then ret (Some 1%Z) else ret None)
  (only parsing).



End MainOverTests.

Section SummaryClaim.
Import TestSandbox TestRuns TallyFacts HaltFacts.

Variable JSON_parse : jsstring -> option (list (jsstring * Unknown)).
Variable stdoutOf : jsstring -> option jsstring.
Variable createAgentshSandbox : M unit jsstring.
Variable w : World.


End SummaryClaim.



(** Two runs, evaluated: an installed agent passes all seven tests and
    the process exits 0; a sandbox that answers "ok" to everything fails
    six of them and the process exits 1. *)
Example main_runs :
  let green := TestSandbox.main Samples.parseSession
                 (SetupA.createAgentshSandbox None)
                 Samples.greenWorld TestSandbox.initial in
  let calm := TestSandbox.main Samples.parseSession
                (SetupA.createAgentshSandbox None)
                Samples.calmWorld TestSandbox.initial in
  globals (fst green) = {| TestSandbox.passed := 7; TestSandbox.failed := 0 |}
  /\ TestSandbox.exitCode (snd green) = 0%Z
  /\ last (trace (fst green)) (Log [])
     = Log (TestSandbox.nl +++ js "Results: 7 passed, 0 failed")
  /\ globals (fst calm) = {| TestSandbox.passed := 1; TestSandbox.failed := 6 |}
  /\ TestSandbox.exitCode (snd calm) = 1%Z
  /\ last (trace (fst calm)) (Log [])
     = Log (TestSandbox.nl +++ js "Results: 1 passed, 6 failed").
Proof. vm_compute. repeat split. Qed.


(* ------------------------------------------------------------------ *)
(** ** Properties of the base64 fallback *)
(* ------------------------------------------------------------------ *)

Module Base64Facts.
Import SetupB.
Local Open Scope N_scope.

(** Linear arithmetic with division and remainder by constants. *)
Ltac divlia := zify; Z.to_euclidean_division_equations; lia.

(** Lists, three elements at a time. *)
Lemma triples_ind (A : Type) (P : list A -> Prop) :
  P [] -> (forall a, P [a]) -> (forall a b, P [a; b]) ->
  (forall a b c rest, P rest -> P (a :: b :: c :: rest)) ->
  forall l, P l.
Proof.
  intros H0 H1 H2 H3 l.
  assert (H : P l /\ (forall a, P (a :: l)) /\ (forall a b, P (a :: b :: l))).
  { induction l as [|x l (IH0 & IH1 & IH2)]; auto. }
  apply H.
Qed.

Lemma below_64 (i : N) :
  i < 64 -> In i (map N.of_nat (seq 0 64)).
Proof.
  intros H. replace i with (N.of_nat (N.to_nat i)) by apply N2Nat.id.
  apply in_map, in_seq. lia.
Qed.

Lemma sextet_alphabet (i : N) : i < 64 -> sextet (alphabet i) = Some i.
Proof.
  intros H. apply below_64 in H. revert i H. apply Forall_forall.
  repeat (constructor; [reflexivity|]). constructor.
Qed.

Lemma alphabet_not_pad (i : N) : i < 64 -> (alphabet i =? pad) = false.
Proof.
  intros H. apply below_64 in H. revert i H. apply Forall_forall.
  repeat (constructor; [reflexivity|]). constructor.
Qed.

Lemma alphabet_printable (i : N) : 43 <= alphabet i.
Proof.
  unfold alphabet.
  destruct (N.ltb_spec i 26); [lia|].
  destruct (N.ltb_spec i 52); [lia|].
  destruct (N.ltb_spec i 62); [lia|].
  destruct (i =? 62); lia.
Qed.

(** No character of a base64 text is a line feed. *)
Lemma base64_no_newline (bytes : list N) :
  Forall (fun c => negb (c =? 10) = true) (base64 bytes).
Proof.
  assert (Ha : forall i, negb (alphabet i =? 10) = true).
  { intros i. pose proof (alphabet_printable i).
    destruct (N.eqb_spec (alphabet i) 10); [lia|reflexivity]. }
  induction bytes as [| a | a b | a b c rest IH] using triples_ind;
    cbn [base64 app]; repeat constructor; auto.
Qed.

Lemma filter_all {A} (f : A -> bool) (l : list A) :
  Forall (fun x => f x = true) l -> filter f l = l.
Proof.
  induction 1 as [|x l Hx _ IH]; cbn; [reflexivity|].
  now rewrite Hx, IH.
Qed.

Lemma echo_base64_d_base64 (bytes : list N) :
  echo_base64_d (base64 bytes) = unbase64 (base64 bytes).
Proof.
  unfold echo_base64_d. rewrite filter_app. cbn [filter N.eqb negb].
  rewrite app_nil_r. f_equal. apply filter_all, base64_no_newline.
Qed.

(** Decoding undoes encoding, on bytes. *)
Lemma unbase64_base64 (bytes : list N) :
  Forall isByte bytes -> unbase64 (base64 bytes) = Some bytes.
Proof.
  unfold isByte.
  induction bytes as [| a | a b | a b c rest IH] using triples_ind; intros H.
  - reflexivity.
  - inversion_clear H as [|? ? Ha _].
    cbn [base64 unbase64].
    rewrite !sextet_alphabet by divlia.
    change ((pad =? pad) && (pad =? pad)) with true. cbv iota.
    do 2 f_equal. divlia.
  - inversion_clear H as [|? ? Ha H']. inversion_clear H' as [|? ? Hb _].
    cbn [base64 unbase64].
    rewrite !sextet_alphabet by divlia.
    rewrite (alphabet_not_pad (i := (b mod 16) * 4)) by divlia.
    change (pad =? pad) with true. cbn [andb].
    f_equal. f_equal; [divlia|]. f_equal. divlia.
  - inversion_clear H as [|? ? Ha H']. inversion_clear H' as [|? ? Hb H''].
    inversion_clear H'' as [|? ? Hc Hrest].
    cbn [base64 unbase64 app].
    rewrite !sextet_alphabet by divlia.
    rewrite (alphabet_not_pad (i := (b mod 16) * 4 + c / 64)) by divlia.
    rewrite (alphabet_not_pad (i := c mod 64)) by divlia.
    cbn [andb]. rewrite (IH Hrest).
    f_equal. f_equal; [divlia|]. f_equal; [divlia|]. f_equal. divlia.
Qed.

Lemma utf8_bytes (cp : N) : cp < 0x110000 -> Forall isByte (utf8 cp).
Proof.
  intros H. unfold utf8, isByte.
  destruct (N.ltb_spec cp 0x80); [repeat constructor; lia|].
  destruct (N.ltb_spec cp 0x800); [repeat constructor; divlia|].
  destruct (N.ltb_spec cp 0x10000); repeat constructor; divlia.
Qed.

Lemma replacement_bytes : Forall isByte replacement.
Proof. apply utf8_bytes. reflexivity. Qed.

Lemma surrogate_pair_range (c d : N) :
  isHighSurrogate c = true -> isLowSurrogate d = true ->
  0x10000 + (c - 0xD800) * 1024 + (d - 0xDC00) < 0x110000.
Proof.
  unfold isHighSurrogate, isLowSurrogate. intros Hc Hd.
  apply andb_true_iff in Hc as [Hc1 Hc2]. apply andb_true_iff in Hd as [Hd1 Hd2].
  apply N.leb_le in Hc1, Hc2, Hd1, Hd2. lia.
Qed.

(** The encoder yields bytes. The recursion skips two code units on a
    surrogate pair, hence the induction on a bound of the length. *)
Lemma TextEncoder_encode_bytes (s : jsstring) :
  wellFormed s -> Forall isByte (TextEncoder_encode s).
Proof.
  unfold wellFormed.
  assert (H : forall n s, (List.length s <= n)%nat ->
                Forall (fun c => c < 65536) s ->
                Forall isByte (TextEncoder_encode s)).
  { clear s. induction n as [|n IH]; intros [|c rest] Hlen Hs;
      cbn [TextEncoder_encode]; try constructor; cbn [List.length] in Hlen;
      try lia.
    inversion_clear Hs as [|? ? Hc Hrest].
    assert (IHrest : Forall isByte (TextEncoder_encode rest))
      by (apply IH; [lia|assumption]).
    destruct (isHighSurrogate c) eqn:Hhigh.
    - destruct rest as [|d rest']; [apply replacement_bytes|].
      destruct (isLowSurrogate d) eqn:Hlow.
      + apply Forall_app. split.
        * now apply utf8_bytes, surrogate_pair_range.
        * apply IH; [cbn [List.length] in Hlen; lia|].
          now inversion_clear Hrest.
      + apply Forall_app. split; [apply replacement_bytes|assumption].
    - destruct (isLowSurrogate c).
      + apply Forall_app. split; [apply replacement_bytes|assumption].
      + apply Forall_app. split; [|assumption].
        apply utf8_bytes. lia. }
  apply (H (List.length s)). lia.
Qed.

(** On bytes, the string handed to [btoa] has the bytes as its code
    units. *)
Lemma binaryString_bytes (bytes : list N) :
  Forall isByte bytes -> binaryString bytes = bytes.
Proof.
  unfold binaryString. intros H.
  assert (Hacc : forall acc, fold_left (fun acc byte => acc ++ fromCharCode byte)
                                       bytes acc = acc ++ bytes).
  { induction H as [|b bytes Hb _ IH]; intros acc; cbn [fold_left].
    - now rewrite app_nil_r.
    - rewrite IH. unfold fromCharCode. rewrite <- app_assoc. cbn [app].
      unfold isByte in Hb. rewrite N.mod_small by lia. reflexivity. }
  apply (Hacc []).
Qed.

Lemma btoa_bytes (bytes : list N) :
  Forall isByte bytes -> btoa bytes = Some (base64 bytes).
Proof.
  intros H. unfold btoa.
  assert (Hall : forallb (fun c => c <=? 255) bytes = true).
  { apply forallb_forall. intros b Hb.
    rewrite Forall_forall in H. specialize (H b Hb). unfold isByte in H.
    apply N.leb_le. lia. }
  now rewrite Hall.
Qed.

End Base64Facts.

Section FallbackClaim.
Import SetupB Base64Facts.

(** C10. The shell-mediated fallback of [writeFileToSandbox] round-trips:
    for every content string [btoa] accepts the byte-to-character mapping
    of its UTF-8 bytes, and base64-decoding what [btoa] returns, as the
    command [echo ... | base64 -d] does, yields exactly those UTF-8 bytes,
    which is what the file then holds. *)
Theorem writeFileToSandbox_fallback_roundtrip (content : jsstring) :
  wellFormed content ->
  exists text,
    encoded content = Some text
    /\ text = base64 (TextEncoder_encode content)
    /\ unbase64 text = Some (TextEncoder_encode content)
    /\ echo_base64_d text = Some (TextEncoder_encode content)
    /\ fallbackWrites content = Some (TextEncoder_encode content)
    /\ forall (path : jsstring) (w : World) (s : State unit),
         writeFileToSandbox false path content w s
         = (call (Sh (js "echo " ++ text ++ js " | base64 -d > " ++ path)) ;;
            ret tt) w s.
Proof.
  intros Hcontent.
  pose proof (TextEncoder_encode_bytes Hcontent) as Hbytes.
  assert (Henc : encoded content = Some (base64 (TextEncoder_encode content))).
  { unfold encoded. rewrite (binaryString_bytes Hbytes).
    now apply btoa_bytes. }
  exists (base64 (TextEncoder_encode content)).
  split; [exact Henc|]. split; [reflexivity|].
  split; [now apply unbase64_base64|].
  split; [rewrite echo_base64_d_base64; now apply unbase64_base64|].
  split.
  - unfold fallbackWrites. rewrite Henc, echo_base64_d_base64.
    now apply unbase64_base64.
  - intros path w s. unfold writeFileToSandbox. now rewrite Henc.
Qed.

(** Non-ASCII content: seven bytes of UTF-8 go through intact. *)
Lemma writeFileToSandbox_fallback_roundtrip_witness :
  exists text,
    encoded Samples.accented = Some text
    /\ text = base64 (TextEncoder_encode Samples.accented)
    /\ unbase64 text = Some (TextEncoder_encode Samples.accented)
    /\ echo_base64_d text = Some (TextEncoder_encode Samples.accented)
    /\ fallbackWrites Samples.accented = Some (TextEncoder_encode Samples.accented)
    /\ forall (path : jsstring) (w : World) (s : State unit),
         writeFileToSandbox false path Samples.accented w s
         = (call (Sh (js "echo " ++ text ++ js " | base64 -d > " ++ path)) ;;
            ret tt) w s.
Proof.
  apply (writeFileToSandbox_fallback_roundtrip (content := Samples.accented)).
  repeat (constructor; [reflexivity|]). constructor.
Defined.

(** The same content, evaluated: w6nigqzwn5iA decodes to its UTF-8. *)
Example accented_roundtrip :
  encoded Samples.accented = Some (js "w6nigqzwn5iA")
  /\ fallbackWrites Samples.accented
     = Some [0xC3; 0xA9; 0xE2; 0x82; 0xAC; 0xF0; 0x9F; 0x98; 0x80]%N.
Proof. split; reflexivity. Qed.

End FallbackClaim.

(* ------------------------------------------------------------------ *)
(** ** Further properties of the classifiers *)
(* ------------------------------------------------------------------ *)

Module TrimFacts.

Lemma escapeNewlines_no_newline (s : jsstring) : ~ In 10%N (escapeNewlines s).
Proof.
  induction s as [|c s IH]; cbn [escapeNewlines]; [intros []|].
  intros Hin. apply in_app_or in Hin as [Hin|Hin]; [|now apply IH].
  destruct (N.eqb_spec c 10) as [->|Hne].
  - destruct Hin as [H|[H|[]]]; discriminate.
  - destruct Hin as [H|[]]. congruence.
Qed.

Lemma escapeNewlines_length (s : jsstring) :
  List.length (escapeNewlines s) <= 2 * List.length s.
Proof.
  induction s as [|c s IH]; cbn [escapeNewlines]; [cbn; lia|].
  rewrite length_app. cbn [List.length].
  destruct (c =? 10)%N; cbn [List.length]; lia.
Qed.

(** What [trimStart] returns does not start with white space. *)
Lemma trimStart_head (s : jsstring) :
  match trimStart s with
  | [] => True
  | c :: _ => isWhiteSpace c = false
  end.
Proof.
  induction s as [|c s IH]; cbn [trimStart]; [exact I|].
  destruct (isWhiteSpace c) eqn:Hc; [exact IH|exact Hc].
Qed.

Lemma trimStart_fixed (s : jsstring) :
  match s with
  | [] => True
  | c :: _ => isWhiteSpace c = false
  end ->
  trimStart s = s.
Proof. destruct s as [|c s]; cbn [trimStart]; [auto|]. now intros ->. Qed.

Lemma trimStart_idem (s : jsstring) : trimStart (trimStart s) = trimStart s.
Proof. apply trimStart_fixed, trimStart_head. Qed.

(** [trimStart] returns a suffix. *)
Lemma trimStart_suffix (s : jsstring) :
  exists blank, s = blank ++ trimStart s /\ forallb isWhiteSpace blank = true.
Proof.
  induction s as [|c s (blank & Hs & Hb)]; cbn [trimStart].
  - now exists [].
  - destruct (isWhiteSpace c) eqn:Hc.
    + exists (c :: blank). cbn [app forallb]. rewrite Hc, Hb.
      split; [now f_equal|reflexivity].
    + now exists [].
Qed.

Lemma trimStart_blank_app (blank s : jsstring) :
  forallb isWhiteSpace blank = true -> trimStart (blank ++ s) = trimStart s.
Proof.
  induction blank as [|c blank IH]; cbn [app forallb trimStart]; [auto|].
  intros H. apply andb_true_iff in H as [-> H]. now apply IH.
Qed.

(** Trimming the end keeps a head that is not white space. *)
Lemma trimEnd_keeps_head (c : N) (s : jsstring) :
  isWhiteSpace c = false ->
  exists rest, trimEnd (c :: s) = c :: rest.
Proof.
  intros Hc. unfold trimEnd. cbn [rev].
  destruct (trimStart_suffix (rev s ++ [c])) as (blank & Hs & Hb).
  assert (Hshape : exists front, trimStart (rev s ++ [c]) = front ++ [c]).
  { revert Hs Hb. generalize (trimStart (rev s ++ [c])) as t.
    intros t Hs Hb.
    destruct t as [|x t] using rev_ind.
    - rewrite app_nil_r in Hs.
      assert (Hin : In c blank) by (rewrite <- Hs; apply in_or_app; right; now left).
      rewrite forallb_forall in Hb. rewrite (Hb c Hin) in Hc. discriminate.
    - rewrite app_assoc in Hs. apply app_inj_tail in Hs as [_ <-].
      now exists t. }
  destruct Hshape as (front & ->). rewrite rev_app_distr. cbn [rev app].
  now exists (rev front).
Qed.

Lemma trimEnd_idem (s : jsstring) : trimEnd (trimEnd s) = trimEnd s.
Proof.
  unfold trimEnd. rewrite rev_involutive, trimStart_idem. reflexivity.
Qed.

(** What [trim] returns has no white space at either end, so trimming
    it again changes nothing. *)
Lemma trim_fixed (s : jsstring) :
  trimStart (trim s) = trim s /\ trimEnd (trim s) = trim s.
Proof.
  unfold trim. split; [|apply trimEnd_idem].
  pose proof (trimStart_head s) as Hhead.
  destruct (trimStart s) as [|c t]; [reflexivity|].
  destruct (@trimEnd_keeps_head c t Hhead) as (rest & ->).
  cbn [trimStart]. now rewrite Hhead.
Qed.

End TrimFacts.

Section MoreOnRunAgentsh.
Import DemoNetwork DemoNetworkFacts TrimFacts.

Variable JSON_parse : jsstring -> option ExecResponse.

(** X1. The flag [runAgentsh] returns and the label it prints never
    disagree: [allowed] is true exactly when the line says ALLOWED,
    whatever the response, missing and unparseable ones included. *)
Theorem runAgentsh_flag_matches_label (response : option jsstring) :
  let r := runAgentsh JSON_parse response in
  allowed (returned r) = true <-> category r = Some ALLOWED.
Proof.
  cbv zeta. destruct response as [output|]; cbn [runAgentsh];
    [|split; discriminate].
  destruct (JSON_parse (trim output)) as [json|]; [|split; discriminate].
  destruct (denialShape json) eqn:Hshape.
  - destruct (classify_denial_blocked output json Hshape) as [-> ->].
    split; discriminate.
  - destruct (isNumber (result json ?. exit_code) 0) eqn:Hexit.
    + rewrite classify_success by assumption. split; reflexivity.
    + rewrite classify_failure by assumption. split; discriminate.
Qed.

(** X2. An ALLOWED outcome is logged on one line: the line holds no line
    feed and at most 327 code units, and the output returned carries no
    white space at either end. *)
Theorem runAgentsh_allowed_line (response : option jsstring) :
  let r := runAgentsh JSON_parse response in
  category r = Some ALLOWED ->
  ~ In 10%N (logged r)
  /\ List.length (logged r) <= 327
  /\ trimStart (output (returned r)) = output (returned r)
  /\ trimEnd (output (returned r)) = output (returned r).
Proof.
  cbv zeta. destruct response as [output|]; cbn [runAgentsh];
    [|discriminate].
  destruct (JSON_parse (trim output)) as [json|]; [|discriminate].
  destruct (denialShape json) eqn:Hshape.
  { destruct (classify_denial_blocked output json Hshape) as [-> _].
    discriminate. }
  destruct (isNumber (result json ?. exit_code) 0) eqn:Hexit;
    [|rewrite classify_failure by assumption; discriminate].
  rewrite classify_success by assumption. intros _.
  cbn [logged returned DemoNetwork.output].
  set (out := (result json ?. Wire.stdout ?. (fun s => Some (trim s))) ?? []).
  assert (Hout : trimStart out = out /\ trimEnd out = out).
  { subst out. destruct (result json ?. Wire.stdout) as [s|]; cbn.
    - apply trim_fixed.
    - split; reflexivity. }
  split; [|split; [|exact Hout]].
  - intros Hin. apply in_app_or in Hin as [Hin|Hin].
    + revert Hin. vm_compute. intuition discriminate.
    + apply in_app_or in Hin as [Hin|Hin].
      * revert Hin. vm_compute. intuition discriminate.
      * now apply escapeNewlines_no_newline in Hin.
  - rewrite !length_app.
    pose proof (escapeNewlines_length (slice0 150 out)).
    pose proof (slice0_length 150 out).
    change (List.length indent) with 9.
    change (List.length (js "ALLOWED (exit 0): ")) with 18. lia.
Qed.

End MoreOnRunAgentsh.

(** A success whose stdout carries white space at both ends. *)
Lemma runAgentsh_allowed_line_witness :
  let r := DemoNetwork.runAgentsh (Samples.parseOnly (js "hello") Samples.echoHello)
                                  (Some (js "hello")) in
  ~ In 10%N (DemoNetwork.logged r)
  /\ List.length (DemoNetwork.logged r) <= 327
  /\ trimStart (DemoNetwork.output (DemoNetwork.returned r))
     = DemoNetwork.output (DemoNetwork.returned r)
  /\ trimEnd (DemoNetwork.output (DemoNetwork.returned r))
     = DemoNetwork.output (DemoNetwork.returned r).
Proof.
  apply (runAgentsh_allowed_line
           (Samples.parseOnly (js "hello") Samples.echoHello) (Some (js "hello"))).
  reflexivity.
Defined.

Section MoreOnExecViaApi.
Import DetectSandbox.

Variable JSON_parse : jsstring -> option ExecResponse.

(** X3. [execViaApi] reports exit code 0 only for a response that was
    parsed, carries no denial it recognises, and has a result whose exit
    code is 0; a missing, unparseable or blocked response always has exit
    code -1. So the callers' last branch, the warning that a denied path
    was readable, is reached only on the agent's own report of success. *)
Theorem execViaApi_exit_zero (response : option jsstring) :
  let r := execViaApi JSON_parse response in
  (exitCode r = 0%Z ->
   blocked r = false
   /\ policyRule r = []
   /\ exists output json,
        response = Some output
        /\ JSON_parse (trim output) = Some json
        /\ result json ?. exit_code = Some 0%Z)
  /\ (blocked r = true -> exitCode r = (-1)%Z /\ stdout r = [])
  /\ (response = None -> exitCode r = (-1)%Z)
  /\ (forall output, response = Some output ->
        JSON_parse (trim output) = None -> exitCode r = (-1)%Z).
Proof.
  cbv zeta. split; [|split; [|split]].
  - destruct response as [output|]; cbn [execViaApi]; [|discriminate].
    destruct (JSON_parse (trim output)) as [json|] eqn:Hparse; [|discriminate].
    unfold classify.
    destruct (isString (result json ?. error ?. code) _); [discriminate|].
    destruct (isTrue _ || isString _ _); [discriminate|].
    cbn [exitCode blocked policyRule]. intros Hexit.
    split; [reflexivity|]. split; [reflexivity|].
    exists output, json. split; [reflexivity|]. split; [assumption|].
    destruct (result json ?. exit_code) as [code|]; cbn in Hexit;
      [now subst|discriminate].
  - destruct response as [output|]; cbn [execViaApi]; [|discriminate].
    destruct (JSON_parse (trim output)) as [json|]; [|discriminate].
    unfold classify.
    destruct (isString (result json ?. error ?. code) _); [now split|].
    destruct (isTrue _ || isString _ _); [now split|discriminate].
  - now intros ->.
  - intros output -> Hparse. cbn [execViaApi]. now rewrite Hparse.
Qed.

End MoreOnExecViaApi.

(** The audited sample: exit code 1, hence not the warning branch; and
    the echo sample, whose exit code 0 is the agent's. *)
Lemma execViaApi_exit_zero_witness :
  let r := DetectSandbox.execViaApi
             (Samples.parseOnly (js "hello") Samples.echoHello)
             (Some (js " hello ")) in
  DetectSandbox.blocked r = false
  /\ DetectSandbox.policyRule r = []
  /\ exists output json,
       Some (js " hello ") = Some output
       /\ Samples.parseOnly (js "hello") Samples.echoHello (trim output) = Some json
       /\ result json ?. exit_code = Some 0%Z.
Proof.
  apply (execViaApi_exit_zero
           (Samples.parseOnly (js "hello") Samples.echoHello)
           (Some (js " hello "))).
  reflexivity.
Defined.

Module DemoEnvFacts.
Import DemoEnv.

(** The two outcomes of the second [try] block: nothing of the result
    on a denial shape, the result itself otherwise. *)
Lemma classify_shape (json : ExecResponse) :
  (DemoNetwork.denialShape json = true ->
   returned (classify json) = nothing true)
  /\ (DemoNetwork.denialShape json = false ->
      classify json
      = {| logged := [];
           returned :=
             {| exitCode := result json ?. exit_code ?? (-1)%Z;
                stdout := (result json ?. Wire.stdout
                             ?. (fun s => Some (trim s))) ?? [];
                stderr := (result json ?. Wire.stderr
                             ?. (fun s => Some (trim s))) ?? [];
                blocked := false |} |}).
Proof.
  unfold DemoNetwork.denialShape, DemoNetwork.policyDenied,
    DemoNetwork.blockedOps, DemoNetwork.guidanceBlocked, classify.
  destruct (isString (result json ?. error ?. code) _);
    [split; [reflexivity|discriminate]|].
  destruct (events json ?. blocked_operations ?? []);
    [|split; [reflexivity|discriminate]].
  destruct (isTrue _ || isString _ _); split;
    try reflexivity; discriminate.
Qed.

End DemoEnvFacts.

Section MoreOnDemoEnv.
Import DemoEnv DemoEnvFacts.

Variable JSON_parse : jsstring -> option ExecResponse.

(** X4. [runAgentsh] of demo-env.ts sets [blocked] exactly on the three
    denial shapes that [runAgentsh] of demo-network.ts reports as BLOCKED,
    the blocked-operations list included, and then hands on nothing of the
    result: exit code -1 and empty stdout and stderr. *)
Theorem demoEnv_blocked_iff_denial (response : option jsstring) :
  let r := returned (runAgentsh JSON_parse response) in
  (blocked r = true <->
   exists output json,
     response = Some output
     /\ JSON_parse (trim output) = Some json
     /\ DemoNetwork.denialShape json = true)
  /\ (blocked r = true ->
      exitCode r = (-1)%Z /\ stdout r = [] /\ stderr r = [])
  /\ (forall output json,
        response = Some output ->
        JSON_parse (trim output) = Some json ->
        DemoNetwork.denialShape json = false ->
        logged (runAgentsh JSON_parse response) = []
        /\ exitCode r = result json ?. exit_code ?? (-1)%Z
        /\ stdout r
           = (result json ?. Wire.stdout ?. (fun s => Some (trim s))) ?? []).
Proof.
  cbv zeta. pose proof classify_shape as Hclassify.
  split; [|split].
  - split.
    + destruct response as [output|]; cbn [runAgentsh]; [|discriminate].
      destruct (JSON_parse (trim output)) as [json|] eqn:Hparse; [|discriminate].
      intros Hb. exists output, json. split; [reflexivity|]. split; [assumption|].
      destruct (DemoNetwork.denialShape json) eqn:Hshape; [reflexivity|].
      rewrite (proj2 (Hclassify json) Hshape) in Hb. discriminate.
    + intros (output & json & -> & Hparse & Hshape). cbn [runAgentsh].
      rewrite Hparse, (proj1 (Hclassify json) Hshape). reflexivity.
  - destruct response as [output|]; cbn [runAgentsh]; [|discriminate].
    destruct (JSON_parse (trim output)) as [json|]; [|discriminate].
    destruct (DemoNetwork.denialShape json) eqn:Hshape.
    + rewrite (proj1 (Hclassify json) Hshape). now repeat split.
    + rewrite (proj2 (Hclassify json) Hshape). discriminate.
  - intros output json -> Hparse Hshape. cbn [runAgentsh].
    rewrite Hparse, (proj2 (Hclassify json) Hshape). now repeat split.
Qed.

(** X5. Reading a denied variable ends in the line "FAIL: secret is EXPOSED"
    exactly when the response was parsed, shows none of the three denial
    shapes, has exit code 0, and its trimmed stdout is the expected value
    and not empty. A different or longer output is never a FAIL. *)
Theorem deniedVar_fail_iff (varName expectedValue : jsstring)
        (response : option jsstring) :
  reportsFail (deniedVar varName expectedValue
                 (returned (runAgentsh JSON_parse response))) = true
  <->
  exists output json,
    response = Some output
    /\ JSON_parse (trim output) = Some json
    /\ DemoNetwork.denialShape json = false
    /\ result json ?. exit_code = Some 0%Z
    /\ (result json ?. Wire.stdout ?. (fun s => Some (trim s))) ?? []
       = expectedValue
    /\ expectedValue <> [].
Proof.
  unfold deniedVar.
  destruct response as [output|]; cbn [runAgentsh];
    [|cbn; split; [discriminate|intros (? & ? & ? & _); discriminate]].
  destruct (JSON_parse (trim output)) as [json|] eqn:Hparse.
  2:{ cbn. split; [discriminate|intros (? & ? & [= <-] & ? & _); congruence]. }
  destruct (DemoNetwork.denialShape json) eqn:Hshape.
  - rewrite (proj1 (classify_shape json) Hshape). cbn.
    split; [discriminate|].
    intros (? & ? & [= <-] & Hp & Hs & _).
    rewrite Hparse in Hp. injection Hp as <-. congruence.
  - rewrite (proj2 (classify_shape json) Hshape).
    cbn [returned blocked exitCode stdout].
    set (out := (result json ?. Wire.stdout ?. (fun s => Some (trim s))) ?? []).
    destruct (result json ?. exit_code) as [code|] eqn:Hcode; cbn [nullish].
    2:{ cbn. split; [discriminate|intros (? & ? & [= <-] & Hp & _ & Hc & _)].
        rewrite Hparse in Hp. injection Hp as <-. congruence. }
    destruct (Z.eqb_spec code 0) as [->|Hne]; cbn [negb orb].
    2:{ cbn. split; [discriminate|intros (? & ? & [= <-] & Hp & _ & Hc & _)].
        rewrite Hparse in Hp. injection Hp as <-. congruence. }
    destruct out as [|c out'] eqn:Hout'; cbn [truthy negb].
    { cbn. split; [discriminate|intros (? & ? & [= <-] & Hp & _ & _ & Ho & Hne)].
      rewrite Hparse in Hp. injection Hp as <-. subst out. congruence. }
    destruct (streq (c :: out') expectedValue) eqn:Heq.
    + apply streq_eq in Heq. split.
      * intros _. exists output, json. subst out. repeat split; try assumption.
        -- congruence.
        -- rewrite <- Heq. discriminate.
      * intros _. reflexivity.
    + split; [cbn; discriminate|].
      intros (? & ? & [= <-] & Hp & _ & _ & Ho & _).
      rewrite Hparse in Hp. injection Hp as <-. subst out.
      rewrite Hout' in Ho. rewrite <- Ho, streq_refl in Heq. discriminate.
Qed.

End MoreOnDemoEnv.

(** The blocked-operations sample: blocked for demo-env.ts. *)
Lemma demoEnv_blocked_iff_denial_witness :
  let r := DemoEnv.returned
             (DemoEnv.runAgentsh (Samples.parseOnly (js "audit") Samples.auditedOnly)
                                 (Some (js "audit"))) in
  DemoEnv.exitCode r = (-1)%Z /\ DemoEnv.stdout r = [] /\ DemoEnv.stderr r = [].
Proof.
  apply (demoEnv_blocked_iff_denial
           (Samples.parseOnly (js "audit") Samples.auditedOnly)
           (Some (js "audit"))).
  reflexivity.
Defined.

Module SplitFacts.
Import DemoEnv.

Lemma startsWith_app (p rest : jsstring) : startsWith p (p ++ rest) = true.
Proof.
  induction p as [|c p IH]; cbn [app startsWith]; [reflexivity|].
  now rewrite N.eqb_refl, IH.
Qed.

Lemma startsWith_split (p s : jsstring) :
  startsWith p s = true -> exists rest, s = p ++ rest.
Proof.
  revert s. induction p as [|c p IH]; intros s H.
  - now exists s.
  - destruct s as [|d s]; cbn [startsWith] in H; [discriminate|].
    apply andb_true_iff in H as [Hc Hp]. apply N.eqb_eq in Hc as ->.
    destruct (IH s Hp) as (rest & ->). now exists rest.
Qed.

Lemma splitLines_cons (s : jsstring) :
  exists line more, splitLines s = line :: more.
Proof.
  induction s as [|c s (line & more & IH)]; cbn [splitLines].
  - now exists [], [].
  - destruct (c =? 10)%N; [now exists [], (splitLines s)|].
    rewrite IH. now exists (c :: line), more.
Qed.

(** The lines of a text are those before a line feed, then those after
    it. *)
Lemma splitLines_at_LF (a b : jsstring) :
  exists line more, splitLines (a ++ 10%N :: b) = (line :: more) ++ splitLines b.
Proof.
  induction a as [|c a (line & more & IH)]; cbn [app splitLines].
  - now exists [], [].
  - destruct (c =? 10)%N.
    + rewrite IH. now exists [], (line :: more).
    + rewrite IH. cbn [app]. now exists (c :: line), more.
Qed.

(** The first line of a text that starts with [p], a text without line
    feed, starts with [p]. *)
Lemma splitLines_head (p rest : jsstring) :
  ~ In 10%N p ->
  exists tail more, splitLines (p ++ rest) = (p ++ tail) :: more.
Proof.
  induction p as [|c p IH]; intros Hp; cbn [app].
  - destruct (splitLines_cons rest) as (line & more & ->). now exists line, more.
  - cbn [splitLines]. destruct (N.eqb_spec c 10) as [->|Hne].
    + exfalso. apply Hp. now left.
    + destruct IH as (tail & more & ->); [intros H; apply Hp; now right|].
      now exists tail, more.
Qed.

Lemma looksSecret_no_LF (line : jsstring) :
  looksSecret line = true ->
  exists p rest, line = p ++ rest /\ ~ In 10%N p /\ looksSecret p = true.
Proof.
  unfold looksSecret. intros H.
  repeat (apply orb_true_iff in H as [H|H]);
    apply startsWith_split in H as (rest & ->);
    eexists _, rest; (split; [reflexivity|]); split;
      try reflexivity; vm_compute; intuition discriminate.
Qed.

Lemma looksSecret_app (p rest : jsstring) :
  looksSecret p = true -> looksSecret (p ++ rest) = true.
Proof.
  unfold looksSecret. intros H.
  repeat (apply orb_true_iff in H as [H|H]);
    apply startsWith_split in H as (tail & ->);
    rewrite <- app_assoc, startsWith_app;
    rewrite ?orb_true_r; reflexivity.
Qed.

Lemma lines_cons (l next : jsstring) (more : list jsstring) :
  lines (l :: next :: more) = l ++ 10%N :: lines (next :: more).
Proof. reflexivity. Qed.

(** Joining the lines with line feeds gives the text back. *)
Lemma lines_splitLines (s : jsstring) : lines (splitLines s) = s.
Proof.
  induction s as [|c s IH]; cbn [splitLines]; [reflexivity|].
  destruct (splitLines_cons s) as (line & more & Hs). rewrite Hs in *.
  destruct (N.eqb_spec c 10) as [->|Hne].
  - rewrite lines_cons, IH. reflexivity.
  - destruct more as [|next more].
    + cbn [lines] in *. now rewrite IH.
    + rewrite lines_cons in *. cbn [app]. now rewrite IH.
Qed.

(** A line of a joined text stands at the start of a line of it. *)
Lemma lines_middle (l1 l2 : list jsstring) (line : jsstring) :
  exists before after,
    lines (l1 ++ line :: l2) = before ++ line ++ after
    /\ (before = [] \/ exists b, before = b ++ [10%N]).
Proof.
  induction l1 as [|l l1 (before & after & IH & Hb)]; cbn [app].
  - destruct l2 as [|next l2]; cbn [lines].
    + exists [], []. rewrite app_nil_r. split; [reflexivity|now left].
    + exists [], (10%N :: lines (next :: l2)). split; [reflexivity|now left].
  - assert (Hlines : lines (l :: l1 ++ line :: l2)
                     = l ++ 10%N :: lines (l1 ++ line :: l2)).
    { destruct l1; apply lines_cons. }
    rewrite Hlines, IH. exists (l ++ 10%N :: before), after.
    split; [now rewrite <- app_assoc|]. right.
    destruct Hb as [->|(b & ->)].
    + now exists l.
    + exists (l ++ 10%N :: b). now rewrite <- app_assoc.
Qed.

End SplitFacts.

Section SecretsInEnumeration.
Import DemoEnv SplitFacts.

(** X6. [hasSecret] holds exactly when the output has, at its start or right
    after a line feed, one of the prefixes AWS_, OPENAI_, DATABASE_URL,
    SECRET_: no leaked variable at the start of a line goes unseen, and
    nothing else raises the alarm. *)
Theorem hasSecret_iff (stdout : jsstring) :
  hasSecret stdout = true <->
  exists before line after,
    stdout = before ++ line ++ after
    /\ (before = [] \/ exists b, before = b ++ [10%N])
    /\ looksSecret line = true.
Proof.
  unfold hasSecret. rewrite existsb_exists. split.
  - intros (line & Hin & Hsecret).
    apply in_split in Hin as (l1 & l2 & Hsplit).
    destruct (lines_middle l1 l2 line) as (before & after & Hlines & Hb).
    rewrite <- Hsplit, lines_splitLines in Hlines.
    now exists before, line, after.
  - intros (before & line & after & -> & Hb & Hsecret).
    apply looksSecret_no_LF in Hsecret as (p & rest & -> & Hp & Hsecret).
    rewrite <- app_assoc.
    destruct (@splitLines_head p (rest ++ after) Hp) as (tail & more & Hhead).
    destruct Hb as [->|(b & ->)].
    + cbn [app]. rewrite Hhead. exists (p ++ tail).
      split; [now left|now apply looksSecret_app].
    + rewrite <- app_assoc. cbn [app].
      destruct (splitLines_at_LF b (p ++ rest ++ after)) as (l & m & ->).
      rewrite Hhead. exists (p ++ tail).
      split; [apply in_or_app; right; now left|now apply looksSecret_app].
Qed.

(** The enumeration through [env] ends in a FAIL line exactly when the
    result is not blocked, has exit code 0 and a stdout in which
    [hasSecret] holds. *)
Theorem enumeration_fail_iff (r : EnvResult) :
  reportsFail (enumeration r) = true <->
  blocked r = false /\ exitCode r = 0%Z /\ hasSecret (stdout r) = true.
Proof.
  unfold enumeration.
  destruct (blocked r); [cbn; intuition discriminate|].
  destruct (Z.eqb_spec (exitCode r) 0) as [Hz|Hnz]; cbn [andb].
  - destruct (stdout r) as [|c out] eqn:Hout; cbn [truthy].
    + cbn. intuition discriminate.
    + destruct (hasSecret (c :: out)); cbn; intuition discriminate.
  - cbn. intuition (try discriminate; try contradiction).
Qed.

End SecretsInEnumeration.

Section MoreOnDemoBlocking.
Import DemoBlocking.

Variable JSON_parse : jsstring -> option ExecResponse.

(** X7. [runAgentsh] of demo-blocking.ts prints BLOCKED for the denial code
    alone. Every other parsed response is printed as ALLOWED, also one
    that carries a blocked-operations list or a guidance block and that
    [runAgentsh] of demo-network.ts reports as BLOCKED. *)
Theorem demoBlocking_label (output : jsstring) (json : ExecResponse) :
  JSON_parse (trim output) = Some json ->
  let line := runAgentsh JSON_parse (Some output) in
  (startsWith (arrow +++ js "BLOCKED") line = true
   <-> DemoNetwork.policyDenied json = true)
  /\ (startsWith (arrow +++ js "ALLOWED") line = true
      <-> DemoNetwork.policyDenied json = false)
  /\ (DemoNetwork.policyDenied json = false ->
      DemoNetwork.denialShape json = true ->
      startsWith (arrow +++ js "ALLOWED") line = true
      /\ DemoNetwork.category
           (DemoNetwork.runAgentsh JSON_parse (Some output)) = Some BLOCKED).
Proof.
  intros Hparse line. subst line. cbn [runAgentsh]. rewrite Hparse.
  unfold classify, DemoNetwork.policyDenied.
  destruct (isString (result json ?. error ?. code) _) eqn:Hdenied.
  - split; [split; reflexivity|]. split; [split; discriminate|discriminate].
  - assert (Hallowed :
      startsWith (arrow +++ js "ALLOWED")
        (if isNumber (result json ?. exit_code) 0
         then arrow +++ js "ALLOWED (exit: 0)"
              +++ match result json ?. Wire.stdout ?. (fun s => Some (trim s)) with
                  | Some out => if truthy out
                                then js " (output: " +++ slice0 80 out +++ js ")"
                                else []
                  | None => []
                  end
         else arrow +++ js "ALLOWED (exit: " +++ shownExit json +++ js "): "
              +++ slice0 100
                    match result json ?. Wire.stderr ?. (fun s => Some (trim s)) with
                    | Some err => err
                    | None => guidance json ?. reason ?? js "unknown error"
                    end) = true).
    { destruct (isNumber (result json ?. exit_code) 0); reflexivity. }
    assert (Hblocked :
      startsWith (arrow +++ js "BLOCKED")
        (if isNumber (result json ?. exit_code) 0
         then arrow +++ js "ALLOWED (exit: 0)"
              +++ match result json ?. Wire.stdout ?. (fun s => Some (trim s)) with
                  | Some out => if truthy out
                                then js " (output: " +++ slice0 80 out +++ js ")"
                                else []
                  | None => []
                  end
         else arrow +++ js "ALLOWED (exit: " +++ shownExit json +++ js "): "
              +++ slice0 100
                    match result json ?. Wire.stderr ?. (fun s => Some (trim s)) with
                    | Some err => err
                    | None => guidance json ?. reason ?? js "unknown error"
                    end) = false).
    { destruct (isNumber (result json ?. exit_code) 0); reflexivity. }
    cbv zeta. rewrite Hallowed, Hblocked.
    split; [split; discriminate|]. split; [split; reflexivity|].
    intros _ Hshape. split; [reflexivity|].
    cbn [DemoNetwork.runAgentsh]. rewrite Hparse.
    now apply DemoNetworkFacts.classify_denial_blocked.
Qed.

End MoreOnDemoBlocking.

(** The guidance sample: ALLOWED for demo-blocking.ts, BLOCKED for
    demo-network.ts. *)
Lemma demoBlocking_label_witness :
  let parse := Samples.parseOnly (js "soft") Samples.guidanceOnly in
  startsWith (DemoBlocking.arrow +++ js "ALLOWED")
             (DemoBlocking.runAgentsh parse (Some (js "soft"))) = true
  /\ DemoNetwork.category (DemoNetwork.runAgentsh parse (Some (js "soft")))
     = Some BLOCKED.
Proof.
  apply (demoBlocking_label
           (Samples.parseOnly (js "soft") Samples.guidanceOnly)
           (js "soft") (json := Samples.guidanceOnly) eq_refl);
    reflexivity.
Defined.

Section ShellQuoting.
Import Exchange.

Lemma shellWord_quoted (payload : jsstring) :
  shellWord true (escapePayload payload ++ [sq]) = Some payload.
Proof.
  induction payload as [|c payload IH]; [reflexivity|].
  cbn [escapePayload]. destruct (N.eqb_spec c sq) as [->|Hne].
  - cbn [app shellWord]. change (sq =? sq)%N with true.
    change (backslash =? sq)%N with false.
    change (backslash =? backslash)%N with true. cbv iota.
    cbn [shellWord]. change (sq =? sq)%N with true. cbv iota.
    now rewrite IH.
  - cbn [app shellWord].
    destruct (N.eqb_spec c sq) as [Heq|_]; [contradiction|].
    now rewrite IH.
Qed.

(** X8. The payload survives the quoting of the script: read as sh reads a
    word, the argument of [-d] is the payload itself, whatever single
    quotes, backslashes or other characters it holds; and the script
    carries that argument between [-d] and [-o]. *)
Theorem escapePayload_roundtrip (payload : jsstring) :
  shellWord false (quotedPayload payload) = Some payload
  /\ forall apiBase sessionId,
       exists head,
         execScript apiBase sessionId payload
         = head ++ js "  -d " ++ quotedPayload payload
           ++ js "   -o /tmp/exec-result.json 2>/dev/null" ++ [10%N].
Proof.
  split.
  - unfold quotedPayload. cbn [app shellWord].
    change (sq =? sq)%N with true. cbv iota. apply shellWord_quoted.
  - intros apiBase sessionId.
    exists (js "#!/bin/sh" ++ [10%N]
            ++ js "rm -f /tmp/exec-result.json" ++ [10%N]
            ++ js "curl -s -X POST " ++ dq ++ apiBase ++ js "/api/v1/sessions/"
            ++ sessionId ++ js "/exec" ++ dq ++ js " "
            ++ js "  -H " ++ dq ++ js "Content-Type: application/json" ++ dq
            ++ js " " ++ js "  --connect-timeout 10 " ++ js "  --max-time 30 ").
    unfold execScript. rewrite <- !app_assoc. reflexivity.
Qed.

End ShellQuoting.

(* ------------------------------------------------------------------ *)
(** ** Further properties of the base64 fallback *)
(* ------------------------------------------------------------------ *)

Section MoreOnFallback.
Import SetupB Base64Facts Fallback.
Local Open Scope N_scope.

Lemma alphabet_shellSafe (i : N) : shellSafe (alphabet i) = true.
Proof.
  unfold alphabet, shellSafe.
  destruct (N.ltb_spec i 26) as [H1|H1].
  { replace ((65 <=? 65 + i) && (65 + i <=? 90)) with true; [reflexivity|].
    symmetry. apply andb_true_iff. split; apply N.leb_le; lia. }
  destruct (N.ltb_spec i 52) as [H2|H2].
  { replace ((97 <=? 97 + (i - 26)) && (97 + (i - 26) <=? 122)) with true;
      [now rewrite orb_true_r|].
    symmetry. apply andb_true_iff. split; apply N.leb_le; lia. }
  destruct (N.ltb_spec i 62) as [H3|H3].
  { replace ((48 <=? 48 + (i - 52)) && (48 + (i - 52) <=? 57)) with true;
      [now rewrite !orb_true_r|].
    symmetry. apply andb_true_iff. split; apply N.leb_le; lia. }
  destruct (i =? 62); reflexivity.
Qed.

Lemma base64_shellSafe (bytes : list N) : forallb shellSafe (base64 bytes) = true.
Proof.
  induction bytes as [| a | a b | a b c rest IH] using triples_ind;
    cbn [base64 app forallb]; rewrite ?alphabet_shellSafe; try reflexivity.
  exact IH.
Qed.

Lemma base64_length (bytes : list N) :
  List.length (base64 bytes) = (4 * ((List.length bytes + 2) / 3))%nat.
Proof.
  induction bytes as [| a | a b | a b c rest IH] using triples_ind;
    try reflexivity.
  cbn [base64 app List.length]. rewrite IH.
  replace (S (S (S (List.length rest))) + 2)%nat
    with (List.length rest + 2 + 1 * 3)%nat by lia.
  rewrite Nat.div_add by discriminate. lia.
Qed.

Lemma binaryString_length (bytes : list N) :
  List.length (binaryString bytes) = List.length bytes.
Proof.
  unfold binaryString.
  assert (H : forall acc,
             List.length (fold_left (fun acc byte => acc ++ fromCharCode byte)
                                    bytes acc)
             = (List.length acc + List.length bytes)%nat).
  { induction bytes as [|b bytes IH]; intros acc; cbn [fold_left List.length].
    - lia.
    - rewrite IH, length_app. cbn. lia. }
  apply (H []).
Qed.

(** X9. Whatever the content, the text the fallback puts after [echo] holds
    only letters, digits, plus, slash and equals signs, so no character of
    the content reaches the shell; and it has four characters for every
    three bytes of UTF-8, rounded up. *)
Theorem encoded_is_shell_safe (content text : jsstring) :
  encoded content = Some text ->
  forallb shellSafe text = true
  /\ List.length text
     = (4 * ((List.length (TextEncoder_encode content) + 2) / 3))%nat.
Proof.
  unfold encoded, btoa. intros H.
  destruct (forallb _ _); [|discriminate]. injection H as <-.
  split; [apply base64_shellSafe|].
  now rewrite base64_length, binaryString_length.
Qed.

Lemma TextEncoder_encode_ascii (content : jsstring) :
  isAscii content -> TextEncoder_encode content = content.
Proof.
  induction 1 as [|c rest Hc _ IH]; [reflexivity|].
  cbn [TextEncoder_encode].
  assert (Hhigh : isHighSurrogate c = false).
  { unfold isHighSurrogate. destruct (N.leb_spec 0xD800 c); [lia|reflexivity]. }
  assert (Hlow : isLowSurrogate c = false).
  { unfold isLowSurrogate. destruct (N.leb_spec 0xDC00 c); [lia|reflexivity]. }
  rewrite Hhigh, Hlow. unfold utf8.
  destruct (N.ltb_spec c 0x80); [|lia]. cbn [app]. now rewrite IH.
Qed.

(** X10. For content of ASCII characters only, the UTF-8 bytes are the
    characters themselves, and the file the fallback writes holds the
    content character for character. *)
Theorem fallbackWrites_ascii (content : jsstring) :
  isAscii content ->
  TextEncoder_encode content = content
  /\ fallbackWrites content = Some content.
Proof.
  intros Hascii. pose proof (TextEncoder_encode_ascii Hascii) as Hsame.
  split; [exact Hsame|].
  assert (Hbytes : Forall isByte content).
  { unfold isAscii in Hascii. unfold isByte.
    eapply Forall_impl; [|exact Hascii]. cbn. intros; lia. }
  unfold fallbackWrites, encoded. rewrite Hsame.
  rewrite (binaryString_bytes Hbytes), (btoa_bytes Hbytes).
  rewrite echo_base64_d_base64. now apply unbase64_base64.
Qed.

End MoreOnFallback.

(** The accented sample: twelve characters for nine bytes. *)
Lemma encoded_is_shell_safe_witness :
  forallb Fallback.shellSafe (js "w6nigqzwn5iA") = true
  /\ List.length (js "w6nigqzwn5iA")
     = 4 * ((List.length (SetupB.TextEncoder_encode Samples.accented) + 2) / 3).
Proof.
  apply (@encoded_is_shell_safe Samples.accented (js "w6nigqzwn5iA")).
  reflexivity.
Defined.

(** A line of YAML. *)
Lemma fallbackWrites_ascii_witness :
  SetupB.TextEncoder_encode (js "version: 1") = js "version: 1"
  /\ SetupB.fallbackWrites (js "version: 1") = Some (js "version: 1").
Proof.
  apply (@fallbackWrites_ascii (js "version: 1")).
  repeat (constructor; [reflexivity|]). constructor.
Defined.

(* ------------------------------------------------------------------ *)
(** ** Further properties of the runs *)
(* ------------------------------------------------------------------ *)

Module RunFacts.
Import Runs.

Section Rules.

Context {G : Type}.
Variable w : World.
Variable P : Event -> Prop.

Lemma runs_weaken {A} (P' : Event -> Prop) (R R' : Err + A -> Prop)
      (m : M G A) :
  runs w P' R m -> (forall ev, P' ev -> P ev) -> (forall r, R r -> R' r) ->
  runs w P R' m.
Proof.
  intros Hm HP HR s. destruct (Hm s) as (added & Ht & Hp & Hr).
  exists added. split; [assumption|]. split; [|now apply HR].
  eapply Forall_impl; [exact HP|exact Hp].
Qed.

Lemma runs_ret {A} (R : Err + A -> Prop) (a : A) :
  R (inr a) -> runs (G := G) w P R (ret a).
Proof. intros H s. exists []. cbn. rewrite app_nil_r. now repeat split. Qed.

Lemma runs_throw {A} (R : Err + A -> Prop) (e : Err) :
  R (inl e) -> runs (G := G) w P R (throw e).
Proof. intros H s. exists []. cbn. rewrite app_nil_r. now repeat split. Qed.

Lemma runs_emit (R : Err + unit -> Prop) (ev : Event) :
  P ev -> R (inr tt) -> runs (G := G) w P R (emit ev).
Proof.
  intros Hev H s. exists [ev]. cbn. split; [reflexivity|]. split; [|assumption].
  now constructor.
Qed.

Lemma runs_call (R : Err + jsstring -> Prop) (c : Call) :
  (forall r, P (Called c r)) -> (forall history, R (reply w history c)) ->
  runs (G := G) w P R (call c).
Proof.
  intros Hev H s. exists [Called c (reply w (trace s) c)]. cbn.
  split; [reflexivity|]. split; [|apply H]. now constructor.
Qed.

Lemma runs_waitUntilReady (R : Err + jsstring -> Prop) :
  (forall r, P (Called (Sh waitCommand) r)) ->
  R (awaited (waitForServer (health w))) ->
  runs (G := G) w P R waitUntilReady.
Proof.
  intros Hev H s.
  exists [Called (Sh waitCommand) (awaited (waitForServer (health w)))]. cbn.
  split; [reflexivity|]. split; [|exact H]. now constructor.
Qed.

Lemma runs_getGlobals (R : Err + G -> Prop) :
  (forall g, R (inr g)) -> runs (G := G) w P R getGlobals.
Proof. intros H s. exists []. cbn. rewrite app_nil_r. now repeat split. Qed.

Lemma runs_setGlobals (R : Err + unit -> Prop) (g : G) :
  R (inr tt) -> runs (G := G) w P R (setGlobals g).
Proof. intros H s. exists []. cbn. rewrite app_nil_r. now repeat split. Qed.

Lemma runs_bind {A B} (R1 : Err + A -> Prop) (R : Err + B -> Prop)
      (m : M G A) (k : A -> M G B) :
  runs w P R1 m ->
  (forall a, R1 (inr a) -> runs w P R (k a)) ->
  (forall e, R1 (inl e) -> R (inl e)) ->
  runs w P R (bind m k).
Proof.
  intros Hm Hk He s. unfold bind.
  destruct (Hm s) as (added1 & Ht1 & Hp1 & Hr1).
  destruct (m w s) as [s1 [e|a]]; cbn [fst snd] in *.
  - exists added1. split; [assumption|]. split; [assumption|now apply He].
  - destruct (Hk a Hr1 s1) as (added2 & Ht2 & Hp2 & Hr2).
    exists (added1 ++ added2). rewrite Ht2, Ht1, app_assoc.
    split; [reflexivity|]. split; [now apply Forall_app|assumption].
Qed.

Lemma runs_tryCatch {A} (R1 R : Err + A -> Prop)
      (body : M G A) (handler : Err -> M G A) :
  runs w P R1 body ->
  (forall a, R1 (inr a) -> R (inr a)) ->
  (forall e, R1 (inl e) -> runs w P R (handler e)) ->
  runs w P R (tryCatch body handler).
Proof.
  intros Hbody Hok Hcatch s. unfold tryCatch.
  destruct (Hbody s) as (added1 & Ht1 & Hp1 & Hr1).
  destruct (body w s) as [s1 [e|a]]; cbn [fst snd] in *.
  - destruct (Hcatch e Hr1 s1) as (added2 & Ht2 & Hp2 & Hr2).
    exists (added1 ++ added2). rewrite Ht2, Ht1, app_assoc.
    split; [reflexivity|]. split; [now apply Forall_app|assumption].
  - exists added1. split; [assumption|]. split; [assumption|now apply Hok].
Qed.

Lemma runs_tryFinally {A} (body : M G A) (final : M G unit) :
  runs w P anyOutcome body -> runs w P anyOutcome final ->
  runs w P anyOutcome (tryFinally body final).
Proof.
  intros Hbody Hfinal s. unfold tryFinally.
  destruct (Hbody s) as (added1 & Ht1 & Hp1 & _).
  destruct (body w s) as [s1 r]; cbn [fst snd] in *.
  destruct (Hfinal s1) as (added2 & Ht2 & Hp2 & _).
  destruct (final w s1) as [s2 [e|[]]]; cbn [fst snd] in *;
    exists (added1 ++ added2); rewrite Ht2, Ht1, app_assoc;
    (split; [reflexivity|]); (split; [now apply Forall_app|exact I]).
Qed.

(** Sequencing when the outcome does not matter. *)
Lemma runs_then {A B} (m : M G A) (k : A -> M G B) :
  runs w P anyOutcome m -> (forall a, runs w P anyOutcome (k a)) ->
  runs w P anyOutcome (bind m k).
Proof.
  intros Hm Hk. apply (runs_bind (R1 := anyOutcome)); auto.
Qed.

End Rules.

Lemma runs_lift {G A} (w : World) (P : Event -> Prop) (m : M unit A) :
  runs w P anyOutcome m -> runs (G := G) w P anyOutcome (lift m).
Proof.
  intros Hm s. unfold lift.
  destruct (Hm {| trace := trace s; globals := tt |}) as (added & Ht & Hp & _).
  destruct (m w _) as [s1 r]; cbn [fst snd trace] in *.
  exists added. now repeat split.
Qed.

End RunFacts.

Module PhaseFacts.
Import Runs RunFacts.

Section Rules.

Context {G : Type}.
Variables P Q : Event -> Prop.

Lemma emitsPhased_bind_early {A B} (m : M G A) (k : A -> M G B) :
  (forall w, runs w P anyOutcome m) ->
  (forall a, emitsPhased P Q (k a)) ->
  emitsPhased P Q (bind m k).
Proof.
  intros Hm Hk w s. unfold bind.
  destruct (Hm w s) as (added1 & Ht1 & Hp1 & _).
  destruct (m w s) as [s1 [e|a]]; cbn [fst snd] in *.
  - exists added1. split; [assumption|].
    exists added1, []. rewrite app_nil_r. now repeat split.
  - destruct (Hk a w s1) as (added2 & Ht2 & early & late & -> & He & Hl).
    exists (added1 ++ early ++ late). rewrite Ht2, Ht1.
    split; [now rewrite <- !app_assoc|].
    exists (added1 ++ early), late.
    split; [now rewrite <- !app_assoc|]. split; [now apply Forall_app|assumption].
Qed.

Lemma emitsPhased_bind_late {A B} (m : M G A) (k : A -> M G B) :
  emitsPhased P Q m ->
  (forall a w, runs w Q anyOutcome (k a)) ->
  emitsPhased P Q (bind m k).
Proof.
  intros Hm Hk w s. unfold bind.
  destruct (Hm w s) as (added1 & Ht1 & early & late & -> & He & Hl).
  destruct (m w s) as [s1 [e|a]]; cbn [fst snd] in *.
  - exists (early ++ late). split; [assumption|]. now exists early, late.
  - destruct (Hk a w s1) as (added2 & Ht2 & Hq & _).
    exists ((early ++ late) ++ added2). rewrite Ht2, Ht1.
    split; [now rewrite <- !app_assoc|].
    exists early, (late ++ added2).
    split; [now rewrite <- !app_assoc|]. split; [assumption|now apply Forall_app].
Qed.

Lemma emitsPhased_tryCatch {A} (body : M G A) (handler : Err -> M G A) :
  emitsPhased P Q body ->
  (forall e w, runs w Q anyOutcome (handler e)) ->
  emitsPhased P Q (tryCatch body handler).
Proof.
  intros Hbody Hcatch w s. unfold tryCatch.
  destruct (Hbody w s) as (added1 & Ht1 & early & late & -> & He & Hl).
  destruct (body w s) as [s1 [e|a]]; cbn [fst snd] in *.
  - destruct (Hcatch e w s1) as (added2 & Ht2 & Hq & _).
    exists ((early ++ late) ++ added2). rewrite Ht2, Ht1.
    split; [now rewrite <- !app_assoc|].
    exists early, (late ++ added2).
    split; [now rewrite <- !app_assoc|]. split; [assumption|now apply Forall_app].
  - exists (early ++ late). split; [assumption|]. now exists early, late.
Qed.

Lemma emitsPhased_turn (ev : Event) :
  Q ev -> emitsPhased (G := G) P Q (emit ev).
Proof.
  intros Hev w s. exists [ev]. cbn. split; [reflexivity|].
  exists [], [ev]. split; [reflexivity|]. split; constructor; auto.
Qed.

End Rules.

(** Steps whose every event satisfies the predicate at hand. *)
Ltac harmless :=
  repeat first
    [ apply runs_then; [|intros ?]
    | apply runs_call; [intros ?; exact I|intros ?; exact I]
    | apply runs_emit; [exact I|exact I]
    | apply runs_waitUntilReady; [intros ?; exact I|exact I]
    | apply runs_ret; exact I
    | apply runs_throw; exact I
    | apply runs_tryCatch with (R1 := anyOutcome);
      [|intros ? ?; exact I|intros ? ?] ].

Lemma runs_setEnvVars {G} (w : World) (P : Event -> Prop)
      (entries : list (jsstring * jsstring)) :
  (forall key value r, P (Called (EnvSet key value) r)) ->
  runs (G := G) w P anyOutcome (SetupC.setEnvVars entries).
Proof.
  intros HP. induction entries as [|[key value] rest IH]; cbn [SetupC.setEnvVars].
  - now apply runs_ret.
  - apply runs_then; [|intros _; exact IH].
    apply runs_call; [apply HP|intros; exact I].
Qed.

Lemma cleanup_notEnvSet {G A} (e : Err) (w : World) :
  runs (G := G) w notEnvSet anyOutcome (cleanup (A := A) e).
Proof. unfold cleanup, swallow, logError. harmless. Qed.

Lemma bootstrapA_phased {G} (repo arch sandbox : jsstring) :
  emitsPhased (G := G) notSpawn notEnvSet (SetupA.bootstrap repo arch sandbox).
Proof.
  unfold SetupA.bootstrap, SetupA.writeFileToSandbox, log.
  repeat (apply emitsPhased_bind_early; [intros w; solve [harmless]|intros ?]).
  apply emitsPhased_bind_late; [now apply emitsPhased_turn|].
  intros _ w. harmless.
Qed.

Lemma bootstrapC_phased {G} (opts : option AgentshSandboxOptions)
      (repo arch workspace sandbox : jsstring) :
  emitsPhased (G := G) notSpawn notEnvSet
              (SetupC.bootstrap opts repo arch workspace sandbox).
Proof.
  unfold SetupC.bootstrap, SetupC.writeFileToSandbox, log.
  repeat (apply emitsPhased_bind_early;
          [intros w;
           solve [harmless
                 |destruct (opts ?. envVars);
                  [apply runs_setEnvVars; intros; exact I|now apply runs_ret]]
          |intros ?]).
  apply emitsPhased_bind_late; [now apply emitsPhased_turn|].
  intros _ w. harmless.
Qed.

End PhaseFacts.

Section EnvBeforeSpawn.
Import Runs RunFacts PhaseFacts.

(** X11. In every run of [createAgentshSandbox], first and third revision,
    all calls of [sandbox.env.set] come before the server is spawned: the
    events split into a stretch without spawn followed by a stretch
    without [env.set]. So the server inherits AGENTSH_SERVER and every
    variable of [envVars]. *)
Theorem env_seeded_before_spawn (opts : option AgentshSandboxOptions)
        (w : World) :
  phased notSpawn notEnvSet
         (trace (fst (SetupA.createAgentshSandbox opts w fresh)))
  /\ phased notSpawn notEnvSet
            (trace (fst (SetupC.createAgentshSandbox opts w fresh))).
Proof.
  split.
  - assert (H : emitsPhased (G := unit) notSpawn notEnvSet
                  (SetupA.createAgentshSandbox opts)).
    { unfold SetupA.createAgentshSandbox, log.
      apply emitsPhased_bind_early; [intros w'; solve [harmless]|intros sandbox].
      apply emitsPhased_bind_early; [intros w'; solve [harmless]|intros _].
      apply emitsPhased_tryCatch; [apply bootstrapA_phased|].
      intros e w'. apply cleanup_notEnvSet. }
    destruct (H w fresh) as (added & -> & Hphased). exact Hphased.
  - assert (H : emitsPhased (G := unit) notSpawn notEnvSet
                  (SetupC.createAgentshSandbox opts)).
    { unfold SetupC.createAgentshSandbox, log.
      apply emitsPhased_bind_early; [intros w'; solve [harmless]|intros sandbox].
      apply emitsPhased_bind_early; [intros w'; solve [harmless]|intros _].
      apply emitsPhased_tryCatch; [apply bootstrapC_phased|].
      intros e w'. apply cleanup_notEnvSet. }
    destruct (H w fresh) as (added & -> & Hphased). exact Hphased.
Qed.

End EnvBeforeSpawn.

Module CalmFacts.
Import Runs RunFacts.

Lemma awaited_ready (curl : nat -> bool) :
  (exists i, 1 <= i <= 30 /\ curl i = true) ->
  resolved (awaited (waitForServer curl)).
Proof.
  intros (i & Hi & Hcurl). unfold waitForServer.
  destruct (waitLoop_spec curl 30 1 0 0%Z)
    as [(j & _ & _ & _ & Hst & _)|(Hnone & _)].
  - unfold awaited. rewrite Hst. exact I.
  - rewrite Hnone in Hcurl by lia. discriminate.
Qed.

Lemma awaited_timeout (curl : nat -> bool) :
  (forall i, 1 <= i <= 30 -> curl i = false) ->
  awaited (waitForServer curl) = inl readinessTimeout.
Proof.
  intros Hdead. unfold waitForServer.
  destruct (waitLoop_spec curl 30 1 0 0%Z)
    as [(j & Hj & Hcurl & _)|(_ & Hst & Herr & _)].
  - rewrite Hdead in Hcurl by lia. discriminate.
  - unfold awaited. rewrite Hst, Herr. reflexivity.
Qed.

Lemma runs_setEnvVars_calm {G} (w : World) (P : Event -> Prop)
      (entries : list (jsstring * jsstring)) :
  calm w ->
  (forall key value r, P (Called (EnvSet key value) r)) ->
  runs (G := G) w P resolved (SetupC.setEnvVars entries).
Proof.
  intros Hcalm HP.
  induction entries as [|[key value] rest IH]; cbn [SetupC.setEnvVars].
  - now apply runs_ret.
  - apply (runs_bind (R1 := resolved)); [|intros _ _; exact IH|intros ? []].
    apply runs_call; [apply HP|].
    intros history. destruct (Hcalm history (EnvSet key value)) as [t ->]. exact I.
Qed.

(** One step of a run in a calm world, towards the outcome [R]. *)
Ltac calmly Hcalm :=
  repeat first
    [ apply runs_bind with (R1 := resolved); [|intros ? _|intros ? []]
    | apply runs_call;
      [intros ?; first [exact I|reflexivity]
      |let h := fresh "history" in
       intros h;
       match goal with
       | |- resolved (reply ?w h ?c) =>
         let t := fresh "text" in destruct (Hcalm h c) as [t ->]; exact I
       end]
    | apply runs_emit; [first [exact I|reflexivity]|exact I]
    | apply runs_ret; exact I ].

End CalmFacts.

Section CalmWorlds.
Import Runs RunFacts CalmFacts EffectFacts.

Variable w : World.
Hypothesis Hcalm : calm w.

Lemma bootstrapA_resolves (repo arch sandbox : jsstring) :
  (exists i, 1 <= i <= 30 /\ health w i = true) ->
  runs (G := unit) w anyEvent resolved (SetupA.bootstrap repo arch sandbox).
Proof.
  intros Hup. unfold SetupA.bootstrap, SetupA.writeFileToSandbox, log, spawn.
  calmly Hcalm.
  apply runs_waitUntilReady; [intros; exact I|now apply awaited_ready].
Qed.

Lemma bootstrapC_resolves (opts : option AgentshSandboxOptions)
      (repo arch workspace sandbox : jsstring) :
  (exists i, 1 <= i <= 30 /\ health w i = true) ->
  runs (G := unit) w anyEvent resolved
       (SetupC.bootstrap opts repo arch workspace sandbox).
Proof.
  intros Hup. unfold SetupC.bootstrap, SetupC.writeFileToSandbox, log, spawn.
  calmly Hcalm.
  - destruct (opts ?. envVars);
      [apply runs_setEnvVars_calm; [assumption|intros; exact I]
      |now apply runs_ret].
  - apply runs_waitUntilReady; [intros; exact I|now apply awaited_ready].
Qed.

(** X12. When no call is rejected and the health endpoint answers within the
    30 probes, [createAgentshSandbox] resolves, in the first and in the
    third revision, to the sandbox that [Sandbox.create] gave, and the
    sandbox is not closed. *)
Theorem createAgentshSandbox_resolves (opts : option AgentshSandboxOptions) :
  (exists i, 1 <= i <= 30 /\ health w i = true) ->
  exists sandbox,
    reply w [] (SandboxCreate (allowNetOf opts)) = inr sandbox
    /\ snd (SetupA.createAgentshSandbox opts w fresh) = inr sandbox
    /\ teardowns (trace (fst (SetupA.createAgentshSandbox opts w fresh))) = 0
    /\ snd (SetupC.createAgentshSandbox opts w fresh) = inr sandbox
    /\ teardowns (trace (fst (SetupC.createAgentshSandbox opts w fresh))) = 0.
Proof.
  intros Hup.
  destruct (Hcalm [] (SandboxCreate (allowNetOf opts))) as [sandbox Hcreate].
  exists sandbox. split; [exact Hcreate|].
  assert (HA : runs (G := unit) w anyEvent resolved
                    (SetupA.createAgentshSandbox opts)).
  { unfold SetupA.createAgentshSandbox, log. calmly Hcalm.
    apply runs_tryCatch with (R1 := resolved);
      [now apply bootstrapA_resolves|intros ? _; exact I|intros ? []]. }
  assert (HC : runs (G := unit) w anyEvent resolved
                    (SetupC.createAgentshSandbox opts)).
  { unfold SetupC.createAgentshSandbox, log. calmly Hcalm.
    apply runs_tryCatch with (R1 := resolved);
      [now apply bootstrapC_resolves|intros ? _; exact I|intros ? []]. }
  destruct (HA fresh) as (_ & _ & _ & HAr).
  destruct (HC fresh) as (_ & _ & _ & HCr).
  pose proof (provision_shape w (allowNetOf opts)
                (fun sb => SetupA.bootstrap
                             (opts ?. agentshRepo ?? js "erans/agentsh")
                             (opts ?. debArch ?? js "amd64") sb)
                (fun sb => stepwise_bootstrapA _ _ sb)
                (fun sb => returns_bootstrapA _ _ sb) Hcreate)
    as (_ & HAok & _).
  pose proof (provision_shape w (allowNetOf opts)
                (fun sb => SetupC.bootstrap opts
                             (opts ?. agentshRepo ?? js "erans/agentsh")
                             (opts ?. debArch ?? js "amd64")
                             (opts ?. workspace ?? js "/app") sb)
                (fun sb => stepwise_bootstrapC opts _ _ _ sb)
                (fun sb => returns_bootstrapC opts _ _ _ sb) Hcreate)
    as (_ & HCok & _).
  fold (SetupA.createAgentshSandbox (G := unit) opts) in HAok.
  fold (SetupC.createAgentshSandbox (G := unit) opts) in HCok.
  destruct (snd (SetupA.createAgentshSandbox opts w fresh)) as [e|sbA] eqn:HsA;
    [destruct HAr|].
  destruct (snd (SetupC.createAgentshSandbox opts w fresh)) as [e|sbC] eqn:HsC;
    [destruct HCr|].
  destruct (HAok sbA eq_refl) as (-> & HAclean & _).
  destruct (HCok sbC eq_refl) as (-> & HCclean & _).
  repeat split; assumption.
Qed.

End CalmWorlds.

(** A calm world whose server answers the third probe. *)
Lemma createAgentshSandbox_resolves_witness :
  exists sandbox,
    reply Samples.calmWorld [] (SandboxCreate (allowNetOf None)) = inr sandbox
    /\ snd (SetupA.createAgentshSandbox None Samples.calmWorld fresh) = inr sandbox
    /\ teardowns (trace (fst (SetupA.createAgentshSandbox None Samples.calmWorld fresh))) = 0
    /\ snd (SetupC.createAgentshSandbox None Samples.calmWorld fresh) = inr sandbox
    /\ teardowns (trace (fst (SetupC.createAgentshSandbox None Samples.calmWorld fresh))) = 0.
Proof.
  apply (@createAgentshSandbox_resolves Samples.calmWorld).
  - intros history c. exists (js "ok"). reflexivity.
  - exists 3. split; [lia|reflexivity].
Defined.

Module DeadFacts.
Import Runs RunFacts PhaseFacts CalmFacts.

(** One step of a run in any world, towards an outcome that holds of
    every rejection. *)
Ltac anyhow :=
  repeat first
    [ match goal with
      | |- runs _ _ _ (bind waitUntilReady _) => fail 1
      | |- runs _ _ _ (bind _ _) =>
        apply runs_bind with (R1 := anyOutcome);
        [|intros ? _|intros ? _; exact I]
      end
    | apply runs_call; [intros ?; first [exact I|reflexivity]|intros ?; exact I]
    | apply runs_emit; [first [exact I|reflexivity]|exact I]
    | apply runs_ret; exact I ].

Lemma cleanup_rethrows {G} (w : World) (P : Event -> Prop) (e : Err) :
  (forall line, P (LogError line)) -> (forall r, P (Called Close r)) ->
  runs (G := G) w P (fun r => r = inl e) (cleanup (A := jsstring) e).
Proof.
  intros Hlog Hclose. unfold cleanup, logError.
  apply runs_bind with (R1 := resolved); [|intros _ _|intros ? []].
  { apply runs_emit; [apply Hlog|exact I]. }
  apply runs_bind with (R1 := resolved); [|intros _ _|intros ? []].
  { unfold swallow. apply runs_tryCatch with (R1 := anyOutcome).
    - apply runs_then; [|intros _; now apply runs_ret].
      apply runs_call; [apply Hclose|intros; exact I].
    - intros [] _. exact I.
    - intros ? _. now apply runs_ret. }
  now apply runs_throw.
Qed.

Section Dead.

Variable w : World.
Hypothesis Hdead : forall i, 1 <= i <= 30 -> health w i = false.

Lemma wait_rejects {G} (P : Event -> Prop) :
  (forall r, P (Called (Sh waitCommand) r)) ->
  runs (G := G) w P rejected waitUntilReady.
Proof.
  intros HP. apply runs_waitUntilReady; [exact HP|].
  rewrite awaited_timeout by exact Hdead. exact I.
Qed.

Lemma bootstrapA_never_shims (repo arch sandbox : jsstring) :
  runs (G := unit) w (notCommand (js "sudo " +++ shimCommand)) rejected
       (SetupA.bootstrap repo arch sandbox).
Proof.
  unfold SetupA.bootstrap, SetupA.writeFileToSandbox, log, spawn.
  anyhow.
  apply runs_bind with (R1 := rejected); [|intros ? []|intros ? _; exact I].
  apply wait_rejects. intros; reflexivity.
Qed.

Lemma bootstrapC_never_shims (opts : option AgentshSandboxOptions)
      (repo arch workspace sandbox : jsstring) :
  runs (G := unit) w (notCommand shimCommand) rejected
       (SetupC.bootstrap opts repo arch workspace sandbox).
Proof.
  unfold SetupC.bootstrap, SetupC.writeFileToSandbox, log, spawn.
  anyhow.
  - destruct (opts ?. envVars);
      [apply runs_setEnvVars; intros; exact I|now apply runs_ret].
  - apply runs_bind with (R1 := rejected); [|intros ? []|intros ? _; exact I].
    apply wait_rejects. intros; reflexivity.
Qed.

End Dead.

End DeadFacts.

Section DeadServer.
Import Runs RunFacts CalmFacts DeadFacts EffectFacts.

Variable w : World.
Hypothesis Hdead : forall i, 1 <= i <= 30 -> health w i = false.

(** X13. When none of the 30 probes of the health endpoint succeeds,
    [createAgentshSandbox] rejects and never runs the command that
    installs the shell shim, in the first and in the third revision,
    whatever the world answers to the other calls. *)
Theorem shim_needs_ready_server (opts : option AgentshSandboxOptions) :
  let runA := SetupA.createAgentshSandbox opts w fresh in
  let runC := SetupC.createAgentshSandbox opts w fresh in
  rejected (snd runA)
  /\ Forall (notCommand (js "sudo " +++ shimCommand)) (trace (fst runA))
  /\ rejected (snd runC)
  /\ Forall (notCommand shimCommand) (trace (fst runC)).
Proof.
  intros runA runC.
  assert (HA : runs (G := unit) w (notCommand (js "sudo " +++ shimCommand))
                    rejected (SetupA.createAgentshSandbox opts)).
  { unfold SetupA.createAgentshSandbox, log. anyhow.
    apply runs_tryCatch with (R1 := rejected);
      [now apply bootstrapA_never_shims|intros ? []|intros e _].
    eapply runs_weaken;
      [apply (cleanup_rethrows w (notCommand (js "sudo " +++ shimCommand)) e);
       intros; exact I
      |auto|intros ? ->; exact I]. }
  assert (HC : runs (G := unit) w (notCommand shimCommand)
                    rejected (SetupC.createAgentshSandbox opts)).
  { unfold SetupC.createAgentshSandbox, log. anyhow.
    apply runs_tryCatch with (R1 := rejected);
      [now apply bootstrapC_never_shims|intros ? []|intros e _].
    eapply runs_weaken;
      [apply (cleanup_rethrows w (notCommand shimCommand) e); intros; exact I
      |auto|intros ? ->; exact I]. }
  destruct (HA fresh) as (addedA & HtA & HpA & HrA).
  destruct (HC fresh) as (addedC & HtC & HpC & HrC).
  subst runA runC. rewrite HtA, HtC. cbn [trace fresh app].
  repeat split; assumption.
Qed.

End DeadServer.

(** A world that answers every call and whose server never comes up. *)
Lemma shim_needs_ready_server_witness :
  Runs.rejected (snd (SetupA.createAgentshSandbox None Samples.deadServerWorld fresh))
  /\ Forall (Runs.notCommand (js "sudo " +++ shimCommand))
            (trace (fst (SetupA.createAgentshSandbox None Samples.deadServerWorld fresh)))
  /\ Runs.rejected (snd (SetupC.createAgentshSandbox None Samples.deadServerWorld fresh))
  /\ Forall (Runs.notCommand shimCommand)
            (trace (fst (SetupC.createAgentshSandbox None Samples.deadServerWorld fresh))).
Proof.
  apply (@shim_needs_ready_server Samples.deadServerWorld).
  intros i _. reflexivity.
Defined.

Module TimeoutFacts.
Import Runs RunFacts PhaseFacts CalmFacts.

(** One step of a run in a calm world, up to the readiness loop. *)
Ltac calmlyToWait Hcalm :=
  repeat first
    [ match goal with
      | |- runs _ _ _ (bind waitUntilReady _) => fail 1
      | |- runs _ _ _ (bind _ _) =>
        apply runs_bind with (R1 := resolved); [|intros ? _|intros ? []]
      end
    | apply runs_call;
      [intros ?; exact I
      |let h := fresh "history" in
       intros h;
       match goal with
       | |- resolved (reply ?w h ?c) =>
         let t := fresh "text" in destruct (Hcalm h c) as [t ->]; exact I
       end]
    | apply runs_emit; [exact I|exact I]
    | apply runs_ret; exact I ].

Section Timeout.

Variable w : World.
Hypothesis Hcalm : calm w.
Hypothesis Hdead : forall i, 1 <= i <= 30 -> health w i = false.

Lemma wait_times_out {G A} (k : jsstring -> M G A) :
  runs w anyEvent (fun r => r = inl readinessTimeout)
       (bind waitUntilReady k).
Proof.
  apply runs_bind with (R1 := fun r => r = inl readinessTimeout).
  - apply runs_waitUntilReady; [intros; exact I|now apply awaited_timeout].
  - intros ? [=].
  - intros ? [= ->]. reflexivity.
Qed.

Lemma bootstrapA_times_out (repo arch sandbox : jsstring) :
  runs (G := unit) w anyEvent (fun r => r = inl readinessTimeout)
       (SetupA.bootstrap repo arch sandbox).
Proof.
  unfold SetupA.bootstrap, SetupA.writeFileToSandbox, log, spawn.
  calmlyToWait Hcalm. apply wait_times_out.
Qed.

Lemma bootstrapC_times_out (opts : option AgentshSandboxOptions)
      (repo arch workspace sandbox : jsstring) :
  runs (G := unit) w anyEvent (fun r => r = inl readinessTimeout)
       (SetupC.bootstrap opts repo arch workspace sandbox).
Proof.
  unfold SetupC.bootstrap, SetupC.writeFileToSandbox, log, spawn.
  calmlyToWait Hcalm.
  - destruct (opts ?. envVars);
      [apply runs_setEnvVars_calm; [assumption|intros; exact I]
      |now apply runs_ret].
  - apply wait_times_out.
Qed.

End Timeout.

End TimeoutFacts.

Section ReadinessTimeout.
Import Runs RunFacts CalmFacts DeadFacts TimeoutFacts EffectFacts.

Variable w : World.
Hypothesis Hcalm : calm w.
Hypothesis Hdead : forall i, 1 <= i <= 30 -> health w i = false.

(** X14. When no call is rejected and none of the 30 probes succeeds,
    [createAgentshSandbox] rejects, in the first and in the third
    revision, with the error of the readiness loop (exit status 1 and
    "agentsh server failed to start within 15s" on stderr), and has
    closed the sandbox once. *)
Theorem createAgentshSandbox_times_out (opts : option AgentshSandboxOptions) :
  let runA := SetupA.createAgentshSandbox opts w fresh in
  let runC := SetupC.createAgentshSandbox opts w fresh in
  snd runA = inl readinessTimeout
  /\ teardowns (trace (fst runA)) = 1
  /\ snd runC = inl readinessTimeout
  /\ teardowns (trace (fst runC)) = 1.
Proof.
  intros runA runC.
  destruct (Hcalm [] (SandboxCreate (allowNetOf opts))) as [sandbox Hcreate].
  assert (HA : runs (G := unit) w anyEvent (fun r => r = inl readinessTimeout)
                    (SetupA.createAgentshSandbox opts)).
  { unfold SetupA.createAgentshSandbox, log. calmlyToWait Hcalm.
    apply runs_tryCatch with (R1 := fun r => r = inl readinessTimeout);
      [now apply bootstrapA_times_out|intros ? [=]|intros e [= ->]].
    apply cleanup_rethrows; intros; exact I. }
  assert (HC : runs (G := unit) w anyEvent (fun r => r = inl readinessTimeout)
                    (SetupC.createAgentshSandbox opts)).
  { unfold SetupC.createAgentshSandbox, log. calmlyToWait Hcalm.
    apply runs_tryCatch with (R1 := fun r => r = inl readinessTimeout);
      [now apply bootstrapC_times_out|intros ? [=]|intros e [= ->]].
    apply cleanup_rethrows; intros; exact I. }
  destruct (HA fresh) as (_ & _ & _ & HAr).
  destruct (HC fresh) as (_ & _ & _ & HCr).
  pose proof (provision_shape w (allowNetOf opts)
                (fun sb => SetupA.bootstrap
                             (opts ?. agentshRepo ?? js "erans/agentsh")
                             (opts ?. debArch ?? js "amd64") sb)
                (fun sb => stepwise_bootstrapA _ _ sb)
                (fun sb => returns_bootstrapA _ _ sb) Hcreate)
    as (HAfail & _ & _).
  pose proof (provision_shape w (allowNetOf opts)
                (fun sb => SetupC.bootstrap opts
                             (opts ?. agentshRepo ?? js "erans/agentsh")
                             (opts ?. debArch ?? js "amd64")
                             (opts ?. workspace ?? js "/app") sb)
                (fun sb => stepwise_bootstrapC opts _ _ _ sb)
                (fun sb => returns_bootstrapC opts _ _ _ sb) Hcreate)
    as (HCfail & _ & _).
  fold (SetupA.createAgentshSandbox (G := unit) opts) in HAfail.
  fold (SetupC.createAgentshSandbox (G := unit) opts) in HCfail.
  destruct (HAfail _ HAr) as (? & ? & _ & _ & _ & HA1).
  destruct (HCfail _ HCr) as (? & ? & _ & _ & _ & HC1).
  subst runA runC. repeat split; assumption.
Qed.

End ReadinessTimeout.

(** A world that answers every call and whose server never comes up. *)
Lemma createAgentshSandbox_times_out_witness :
  snd (SetupA.createAgentshSandbox None Samples.deadServerWorld fresh)
  = inl Runs.readinessTimeout
  /\ teardowns (trace (fst (SetupA.createAgentshSandbox None Samples.deadServerWorld fresh))) = 1
  /\ snd (SetupC.createAgentshSandbox None Samples.deadServerWorld fresh)
     = inl Runs.readinessTimeout
  /\ teardowns (trace (fst (SetupC.createAgentshSandbox None Samples.deadServerWorld fresh))) = 1.
Proof.
  apply (@createAgentshSandbox_times_out Samples.deadServerWorld).
  - intros history c. exists (js "ok"). reflexivity.
  - intros i _. reflexivity.
Defined.

Module EnvFacts.
Import Runs RunFacts PhaseFacts CalmFacts.

Lemma envSets_app (a b : list Event) :
  envSets (a ++ b) = envSets a ++ envSets b.
Proof.
  induction a as [|ev a IH]; cbn [app envSets]; [reflexivity|].
  destruct ev as [c r| | |]; try exact IH.
  destruct c; try exact IH. cbn [app]. now rewrite IH.
Qed.

Lemma envSets_notEnvSet (evs : list Event) :
  Forall notEnvSet evs -> envSets evs = [].
Proof.
  induction 1 as [|ev evs Hev _ IH]; [reflexivity|].
  destruct ev as [c r| | |]; cbn [envSets]; try exact IH.
  destruct c; try exact IH. destruct Hev.
Qed.

Section Rules.

Context {G : Type}.
Variable w : World.

Lemma sets_quiet {A} (R : Err + A -> Prop) (m : M G A) :
  runs w notEnvSet R m -> sets w [] R m.
Proof.
  intros Hm s. destruct (Hm s) as (added & Ht & Hp & Hr).
  exists added. split; [assumption|]. split; [now apply envSets_notEnvSet|assumption].
Qed.

Lemma sets_bind {A B} (l1 l2 : list (jsstring * jsstring))
      (R : Err + B -> Prop) (m : M G A) (k : A -> M G B) :
  sets w l1 resolved m ->
  (forall a, sets w l2 R (k a)) ->
  sets w (l1 ++ l2) R (bind m k).
Proof.
  intros Hm Hk s. unfold bind.
  destruct (Hm s) as (added1 & Ht1 & Hl1 & Hr1).
  destruct (m w s) as [s1 [e|a]]; cbn [fst snd] in *; [destruct Hr1|].
  destruct (Hk a s1) as (added2 & Ht2 & Hl2 & Hr2).
  exists (added1 ++ added2). rewrite Ht2, Ht1, app_assoc, envSets_app, Hl1, Hl2.
  now repeat split.
Qed.

Lemma sets_bind_quiet {A B} (l : list (jsstring * jsstring))
      (R : Err + B -> Prop) (m : M G A) (k : A -> M G B) :
  runs w notEnvSet resolved m ->
  (forall a, sets w l R (k a)) ->
  sets w l R (bind m k).
Proof.
  intros Hm Hk. apply (sets_bind (l1 := [])); [now apply sets_quiet|exact Hk].
Qed.

Lemma sets_call (key value : jsstring) :
  calm w -> sets (G := G) w [(key, value)] resolved (call (EnvSet key value)).
Proof.
  intros Hcalm s. exists [Called (EnvSet key value) (reply w (trace s) (EnvSet key value))].
  cbn. split; [reflexivity|]. split; [reflexivity|].
  destruct (Hcalm (trace s) (EnvSet key value)) as [t ->]. exact I.
Qed.

Lemma sets_then_quiet {A B} (l : list (jsstring * jsstring))
      (m : M G A) (k : A -> M G B) :
  sets w l resolved m ->
  (forall a, runs w notEnvSet anyOutcome (k a)) ->
  sets w l anyOutcome (bind m k).
Proof.
  intros Hm Hk. rewrite <- (app_nil_r l).
  apply sets_bind; [exact Hm|]. intros a. apply sets_quiet, Hk.
Qed.

Lemma sets_tryCatch {A} (l : list (jsstring * jsstring))
      (body : M G A) (handler : Err -> M G A) :
  sets w l anyOutcome body ->
  (forall e, runs w notEnvSet anyOutcome (handler e)) ->
  sets w l anyOutcome (tryCatch body handler).
Proof.
  intros Hbody Hcatch s. unfold tryCatch.
  destruct (Hbody s) as (added1 & Ht1 & Hl1 & _).
  destruct (body w s) as [s1 [e|a]]; cbn [fst snd] in *.
  - destruct (Hcatch e s1) as (added2 & Ht2 & Hp2 & _).
    exists (added1 ++ added2).
    rewrite Ht2, Ht1, app_assoc, envSets_app, Hl1,
      (envSets_notEnvSet Hp2), app_nil_r.
    now repeat split.
  - exists added1. now repeat split.
Qed.

Lemma sets_setEnvVars (entries : list (jsstring * jsstring)) :
  calm w -> sets (G := G) w entries resolved (SetupC.setEnvVars entries).
Proof.
  intros Hcalm.
  induction entries as [|[key value] rest IH]; cbn [SetupC.setEnvVars].
  - apply sets_quiet. now apply runs_ret.
  - apply (sets_bind (l1 := [(key, value)]) (l2 := rest));
      [now apply sets_call|intros _; exact IH].
Qed.

End Rules.

(** Steps of a calm run up to the first [sandbox.env.set]. *)
Ltac upToEnvSet Hcalm :=
  repeat match goal with
         | |- sets _ _ _ (bind (call (EnvSet _ _)) _) => fail 1
         | |- sets _ _ _ (bind _ _) =>
           apply sets_bind_quiet; [solve [calmly Hcalm]|intros ?]
         end.

Section Calm.

Variable w : World.
Hypothesis Hcalm : calm w.

Lemma bootstrapA_sets (repo arch sandbox : jsstring) :
  sets (G := unit) w [(js "AGENTSH_SERVER", js "http://127.0.0.1:18080")]
       anyOutcome (SetupA.bootstrap repo arch sandbox).
Proof.
  unfold SetupA.bootstrap, SetupA.writeFileToSandbox, log.
  upToEnvSet Hcalm.
  apply sets_then_quiet; [now apply sets_call|]. intros _. harmless.
Qed.

Lemma bootstrapC_sets (opts : option AgentshSandboxOptions)
      (repo arch workspace sandbox : jsstring) :
  sets (G := unit) w
       ((js "AGENTSH_SERVER", js "http://127.0.0.1:18080")
        :: (opts ?. envVars ?? []))
       anyOutcome (SetupC.bootstrap opts repo arch workspace sandbox).
Proof.
  unfold SetupC.bootstrap, SetupC.writeFileToSandbox, log.
  upToEnvSet Hcalm.
  apply (sets_bind (l1 := [(js "AGENTSH_SERVER", js "http://127.0.0.1:18080")]));
    [now apply sets_call|intros _].
  apply sets_then_quiet; [|intros _; harmless].
  destruct (opts ?. envVars) as [entries|]; cbn [nullish].
  - now apply sets_setEnvVars.
  - apply sets_quiet. now apply runs_ret.
Qed.

End Calm.

End EnvFacts.

Section EnvOrder.
Import Runs RunFacts PhaseFacts CalmFacts EnvFacts.

Variable w : World.
Hypothesis Hcalm : calm w.

(** X15. When no call is rejected, the first revision of
    [createAgentshSandbox] sets AGENTSH_SERVER and nothing else, and the
    third sets AGENTSH_SERVER first and then every entry of [envVars], in
    the order of [Object.entries]: an entry of [envVars] named
    AGENTSH_SERVER is set after the default and replaces it. *)
Theorem env_set_in_order (opts : option AgentshSandboxOptions) :
  envSets (trace (fst (SetupA.createAgentshSandbox opts w fresh)))
  = [(js "AGENTSH_SERVER", js "http://127.0.0.1:18080")]
  /\ envSets (trace (fst (SetupC.createAgentshSandbox opts w fresh)))
     = (js "AGENTSH_SERVER", js "http://127.0.0.1:18080")
       :: (opts ?. envVars ?? []).
Proof.
  split.
  - assert (H : sets (G := unit) w
                  [(js "AGENTSH_SERVER", js "http://127.0.0.1:18080")]
                  anyOutcome (SetupA.createAgentshSandbox opts)).
    { unfold SetupA.createAgentshSandbox, log. upToEnvSet Hcalm.
      apply sets_tryCatch; [now apply bootstrapA_sets|].
      intros e. apply cleanup_notEnvSet. }
    destruct (H fresh) as (added & -> & Hl & _). exact Hl.
  - assert (H : sets (G := unit) w
                  ((js "AGENTSH_SERVER", js "http://127.0.0.1:18080")
                   :: (opts ?. envVars ?? []))
                  anyOutcome (SetupC.createAgentshSandbox opts)).
    { unfold SetupC.createAgentshSandbox, log. upToEnvSet Hcalm.
      apply sets_tryCatch; [now apply bootstrapC_sets|].
      intros e. apply cleanup_notEnvSet. }
    destruct (H fresh) as (added & -> & Hl & _). exact Hl.
Qed.

End EnvOrder.

(** A caller that points AGENTSH_SERVER elsewhere. *)
Lemma env_set_in_order_witness :
  let opts := Some {| agentshRepo := None; debArch := None; workspace := None;
                      allowNet := None;
                      envVars := Some [(js "AGENTSH_SERVER", js "http://10.0.0.2:18080");
                                       (js "TOKEN", js "t")] |} in
  Runs.envSets (trace (fst (SetupA.createAgentshSandbox opts Samples.calmWorld fresh)))
  = [(js "AGENTSH_SERVER", js "http://127.0.0.1:18080")]
  /\ Runs.envSets (trace (fst (SetupC.createAgentshSandbox opts Samples.calmWorld fresh)))
     = (js "AGENTSH_SERVER", js "http://127.0.0.1:18080")
       :: (opts ?. envVars ?? []).
Proof.
  intros opts. apply (@env_set_in_order Samples.calmWorld).
  intros history c. exists (js "ok"). reflexivity.
Defined.

(* ------------------------------------------------------------------ *)
(** ** test-sandbox.ts: the sandbox is closed once *)
(* ------------------------------------------------------------------ *)

Module CloseFacts.
Import Runs RunFacts EffectFacts TestSandbox.

Lemma teardowns_notClose (evs : list Event) :
  Forall notClose evs -> teardowns evs = 0.
Proof.
  induction 1 as [|ev evs Hev _ IH]; [reflexivity|].
  destruct ev as [c r| | |]; cbn [teardowns]; try exact IH.
  destruct c; try exact IH. destruct Hev.
Qed.

(** Steps that call anything but [close]. *)
Ltac quietly :=
  repeat first
    [ apply runs_then; [|intros ?]
    | apply runs_call; [intros ?; exact I|intros ?; exact I]
    | apply runs_emit; [exact I|exact I]
    | apply runs_getGlobals; intros ?; exact I
    | apply runs_setGlobals; exact I
    | apply runs_ret; exact I
    | match goal with
      | |- runs _ _ _ (if ?b then _ else _) => destruct b
      | |- runs _ _ _ (match ?x with _ => _ end) => destruct x
      end ].

Lemma runTests_never_closes
      (JSON_parse : jsstring -> option (list (jsstring * Unknown)))
      (w : World) :
  runs w notClose anyOutcome (runTests JSON_parse).
Proof.
  unfold runTests, test1, test2, test3, test4, test5, test6, test7,
    pass, fail, log, logError.
  quietly.
Qed.

(** Acquire, then bootstrap under the catch clause, from any state: the
    run closes the sandbox once when it rejects after the instance was
    acquired, and not at all otherwise. *)
Lemma provision_teardowns (w : World) (net : AllowNet)
      (body : jsstring -> M unit jsstring) (s : State unit) :
  (forall sb, stepwise (body sb)) ->
  let run := (created <- call (SandboxCreate net) ;;
              log (js "Sandbox created: " +++ created) ;;
              tryCatch (body created) cleanup) w s in
  teardowns (trace (fst run))
  = teardowns (trace s)
    + match snd run, reply w (trace s) (SandboxCreate net) with
      | inl _, inr _ => 1
      | _, _ => 0
      end
  /\ (forall sb, snd run = inr sb ->
        exists sandbox, reply w (trace s) (SandboxCreate net) = inr sandbox).
Proof.
  intros Hstep run.
  assert (Hrun :
    run = match reply w (trace s) (SandboxCreate net) with
          | inl e =>
            ({| trace := trace s ++ [Called (SandboxCreate net) (inl e)];
                globals := globals s |}, inl e)
          | inr sandbox =>
            tryCatch (body sandbox) cleanup w
              {| trace := (trace s ++ [Called (SandboxCreate net) (inr sandbox)])
                          ++ [Log (js "Sandbox created: " +++ sandbox)];
                 globals := globals s |}
          end).
  { subst run. unfold bind, call, log, emit. cbn [trace globals].
    destruct (reply w (trace s) (SandboxCreate net)); reflexivity. }
  clearbody run. subst run.
  destruct (reply w (trace s) (SandboxCreate net)) as [e|sandbox].
  { cbn [fst snd trace]. rewrite teardowns_app. cbn [teardowns].
    split; [lia|discriminate]. }
  set (s1 := {| trace := _; globals := _ |}).
  assert (Hs1 : teardowns (trace s1) = teardowns (trace s)).
  { subst s1. cbn [trace]. rewrite !teardowns_app. cbn [teardowns]. lia. }
  pose proof (tryCatch_cleanup w s1 (Hstep sandbox)) as Hcatch.
  cbv zeta in Hcatch. destruct Hcatch as (added & Ht & Hr).
  rewrite Ht, teardowns_app, Hs1.
  destruct (snd (tryCatch (body sandbox) cleanup w s1)) as [e|sb].
  - destruct Hr as (before & c & -> & [Hclean _] & Hc).
    rewrite teardowns_app, Hclean. split; [|discriminate].
    destruct c; try congruence; reflexivity.
  - destruct Hr as [-> _]. split; [lia|]. intros _ _. now exists sandbox.
Qed.

(** [main] over a provisioning of that form. *)
Lemma main_teardowns
      (JSON_parse : jsstring -> option (list (jsstring * Unknown)))
      (w : World) (net : AllowNet) (body : jsstring -> M unit jsstring) :
  (forall sb, stepwise (body sb)) ->
  teardowns
    (trace (fst (main JSON_parse
                   (created <- call (SandboxCreate net) ;;
                    log (js "Sandbox created: " +++ created) ;;
                    tryCatch (body created) cleanup)
                   w initial)))
  = match reply w [Log (js "Creating agentsh sandbox...")] (SandboxCreate net) with
    | inr _ => 1
    | inl _ => 0
    end.
Proof.
  intros Hstep. rewrite main_unfold. cbv zeta.
  destruct (provision_teardowns w net body
              {| trace := [Log (js "Creating agentsh sandbox...")]; globals := tt |}
              Hstep) as [Hcount Hacquired].
  cbv zeta in Hcount, Hacquired. cbn [trace teardowns] in Hcount, Hacquired.
  destruct ((created <- call (SandboxCreate net) ;;
             log (js "Sandbox created: " +++ created) ;;
             tryCatch (body created) cleanup) w _) as [s1 [e|sb]];
    cbn [fst snd] in Hcount, Hacquired.
  { cbn [fst trace]. rewrite Hcount.
    destruct (reply w _ (SandboxCreate net)); reflexivity. }
  destruct (Hacquired sb eq_refl) as [sandbox ->].
  destruct (runTests_never_closes JSON_parse w
              {| trace := trace s1; globals := globals initial |})
    as (tests & Ht & Hquiet & _).
  destruct (runTests JSON_parse w _) as [s2 r]. cbn [fst trace] in Ht.
  apply teardowns_notClose in Hquiet.
  destruct (reply w _ Close) as [e|closed]; [|destruct r as [e|[]]];
    cbn [fst trace]; rewrite Ht, !teardowns_app, Hcount, Hquiet;
    reflexivity.
Qed.

End CloseFacts.

Section MainCloses.
Import EffectFacts CloseFacts TestSandbox.

Variable JSON_parse : jsstring -> option (list (jsstring * Unknown)).

(** X16. In every run of [main] of test-sandbox.ts, over the first or the
    third revision of [createAgentshSandbox], [close] is called exactly
    once when [Sandbox.create] resolved, whether the bootstrap failed, a
    test command was rejected or all seven tests ran, and not at all when
    [Sandbox.create] was rejected. *)
Theorem main_closes_once (opts : option AgentshSandboxOptions) (w : World) :
  let acquired :=
    match reply w [Log (js "Creating agentsh sandbox...")]
                (SandboxCreate (allowNetOf opts)) with
    | inr _ => 1
    | inl _ => 0
    end in
  teardowns (trace (fst (main JSON_parse (SetupA.createAgentshSandbox opts)
                           w initial))) = acquired
  /\ teardowns (trace (fst (main JSON_parse (SetupC.createAgentshSandbox opts)
                              w initial))) = acquired.
Proof.
  intros acquired. subst acquired. split.
  - apply (main_teardowns JSON_parse w (allowNetOf opts)
             (fun sb => SetupA.bootstrap
                          (opts ?. agentshRepo ?? js "erans/agentsh")
                          (opts ?. debArch ?? js "amd64") sb)).
    intros sb. apply stepwise_bootstrapA.
  - apply (main_teardowns JSON_parse w (allowNetOf opts)
             (fun sb => SetupC.bootstrap opts
                          (opts ?. agentshRepo ?? js "erans/agentsh")
                          (opts ?. debArch ?? js "amd64")
                          (opts ?. workspace ?? js "/app") sb)).
    intros sb. apply stepwise_bootstrapC.
Qed.

End MainCloses.
